(** * Signaling server of godot-simple-webrtc: registry, handlers, lobby

    A shallow embedding of [server/main.py].  The registry and its three
    dictionaries are finite maps, the sets of peer ids are finite sets, and
    every coroutine is a function in a small state-and-trace monad: it
    threads the registry and records, in order, each acquisition and release
    of [registry.lock] and each [send_json].

    Conventions of the model:
    - a handler runs from its first line to its last without another
      coroutine being scheduled in between (asyncio can switch at every
      [await]; that interleaving is not modelled);
    - [time.time()] is read once per handler run and passed as [now];
      timestamps are integers in abstract time units;
    - a decoded client message is the record [Message] of the values the
      handlers read from the dict with [str(...)], [bool(...)], [int(...)];
      a message for which [int(...)] raises is outside the model;
    - iteration over a Python set or dict visits the elements in the order
      of [elements] / [map_to_list]; where the source gathers the sends of a
      loop concurrently, only the multiset of sends is meaningful. *)

From stdpp Require Import gmap strings list fin_maps.

Local Open Scope string_scope.
Local Open Scope list_scope.
Local Open Scope Z_scope.

(** ** Data model *)

(** A connection handle ([WebSocket]); only its identity matters. *)
Definition WebSocket : Type := nat.

(** [Topology = Literal["mesh", "server_authoritative"]] *)
Inductive Topology : Type := Mesh | ServerAuthoritative.

#[global] Instance Topology_eq_dec : EqDecision Topology.
Proof. solve_decision. Defined.

(** Opaque JSON values ([Any]): the [sdp] / [ice] payloads and ICE server
    descriptors, which the server forwards without looking inside. *)
#[local] Unset Elimination Schemes.
Inductive Json : Type :=
  | JNull
  | JBool (b : bool)
  | JNum (n : Z)
  | JStr (s : string)
  | JArr (items : list Json)
  | JObj (fields : list (string * Json)).
#[local] Set Elimination Schemes.

Module PeerSession.
Record t : Type := mk {
  peer_id : Z;
  websocket : WebSocket;
  room_id : string;
  joined_at : Z }.
End PeerSession.

Module LobbySubscription.
Record t : Type := mk {
  connection_id : Z;
  websocket : WebSocket;
  filter_tags : gset string }.
End LobbySubscription.

Module Room.
Record t : Type := mk {
  room_id : string;
  host_id : Z;
  topology : Topology;
  capacity : Z;
  is_sealed : bool;
  peer_ids : gset Z;
  connected_ack : gset Z;
  tags : list string;
  last_activity : Z }.

(** [self.last_activity = time.time()] *)
Definition update_activity (now : Z) (self : t) : t :=
  mk (room_id self) (host_id self) (topology self) (capacity self)
     (is_sealed self) (peer_ids self) (connected_ack self) (tags self) now.

(** [self.capacity > 0 and len(self.peer_ids) >= self.capacity] *)
Definition is_full (self : t) : bool :=
  (0 <? capacity self) && (capacity self <=? Z.of_nat (size (peer_ids self))).

Definition set_is_sealed (b : bool) (self : t) : t :=
  mk (room_id self) (host_id self) (topology self) (capacity self)
     b (peer_ids self) (connected_ack self) (tags self) (last_activity self).

Definition set_peer_ids (s : gset Z) (self : t) : t :=
  mk (room_id self) (host_id self) (topology self) (capacity self)
     (is_sealed self) s (connected_ack self) (tags self) (last_activity self).

Definition set_connected_ack (s : gset Z) (self : t) : t :=
  mk (room_id self) (host_id self) (topology self) (capacity self)
     (is_sealed self) (peer_ids self) s (tags self) (last_activity self).
End Room.

Module Registry.
Record t : Type := mk {
  rooms : gmap string Room.t;
  peers : gmap Z PeerSession.t;
  lobby_subscriptions : gmap Z LobbySubscription.t;
  _next_peer_id : Z;
  _next_connection_id : Z }.

(** [Registry.__init__] *)
Definition init : t := mk ∅ ∅ ∅ 1 1.

Definition set_rooms (m : gmap string Room.t) (self : t) : t :=
  mk m (peers self) (lobby_subscriptions self)
     (_next_peer_id self) (_next_connection_id self).

Definition set_peers (m : gmap Z PeerSession.t) (self : t) : t :=
  mk (rooms self) m (lobby_subscriptions self)
     (_next_peer_id self) (_next_connection_id self).

Definition set_lobby_subscriptions (m : gmap Z LobbySubscription.t) (self : t) : t :=
  mk (rooms self) (peers self) m
     (_next_peer_id self) (_next_connection_id self).
End Registry.

(** The public summary of a room, as [room_to_lobby] builds it. *)
Record Lobby : Type := mkLobby {
  lobby_room_id : string;
  lobby_topology : Topology;
  lobby_players : nat;
  lobby_capacity : Z;
  lobby_tags : list string }.

(** Server-to-client messages, one constructor per [{"type": ...}] shape. *)
Inductive Payload : Type :=
  | PError (message : string)
  | PIdAssigned (peer_id host_id : Z) (topology : Topology) (capacity : Z)
                (ice_servers : list Json)
  | PPeerJoined (peer_id : Z)
  | PPeerLeft (peer_id : Z)
  | PRoomClosed
  | PMatchReady
  | PSignal (from_id : Z) (sdp ice : option Json)
  | PLobbyList (lobbies : list Lobby)
  | PLobbySnapshot (lobbies : list Lobby)
  | PLobbyDeltaUpsert (room_id : string) (lobby : Lobby)
  | PLobbyDeltaRemove (room_id : string).

(** A decoded client message: the values the handlers read from the dict. *)
Record Message : Type := mkMessage {
  m_type : string;              (* str(message.get("type", "")) *)
  m_room_id : string;           (* str(message.get("room_id", "")).strip() *)
  m_is_host_intent : bool;      (* bool(message.get("is_host_intent", False)) *)
  m_topology : string;          (* str(message.get("topology", "mesh")) *)
  m_capacity : Z;               (* int(message.get("capacity", 2)) *)
  m_tags : list string;         (* [str(item) for item in tags_raw], or [] *)
  m_filter_tags : gset string;  (* _normalize_filter_tags(message.get("filter_tags", [])) *)
  m_target_id : Z;              (* int(message.get("target_id", 0)) *)
  m_sdp : option Json;          (* message["sdp"] if "sdp" in message *)
  m_ice : option Json }.        (* message["ice"] if "ice" in message *)

(** ** The handler monad: registry state and an event trace *)

Inductive Event : Type :=
  | EvAcquire                                   (* enter [async with registry.lock] *)
  | EvRelease                                   (* leave it *)
  | EvSend (websocket : WebSocket) (payload : Payload).

Definition Handler (A : Type) : Type :=
  Registry.t → A * Registry.t * list Event.

#[global] Instance Handler_ret : MRet Handler :=
  λ A x st, (x, st, []).

#[global] Instance Handler_bind : MBind Handler :=
  λ A B f m st,
    let '(a, st1, tr1) := m st in
    let '(b, st2, tr2) := f a st1 in
    (b, st2, tr1 ++ tr2).

Definition gets {A : Type} (f : Registry.t → A) : Handler A :=
  λ st, (f st, st, []).

Definition modify (f : Registry.t → Registry.t) : Handler unit :=
  λ st, (tt, f st, []).

Definition emit (e : Event) : Handler unit :=
  λ st, (tt, st, [e]).

Definition acquire : Handler unit := emit EvAcquire.
Definition release : Handler unit := emit EvRelease.

(** Run a handler on a list, left to right ([for x in xs: await f(x)]). *)
Fixpoint for_each {A : Type} (xs : list A) (f : A → Handler unit) : Handler unit :=
  match xs with
  | [] => mret tt
  | x :: xs' => f x ;; for_each xs' f
  end.

Definition result {A} (r : A * Registry.t * list Event) : A := r.1.1.
Definition final {A} (r : A * Registry.t * list Event) : Registry.t := r.1.2.
Definition trace {A} (r : A * Registry.t * list Event) : list Event := r.2.

(** The sends of a trace, in order. *)
Fixpoint sends (tr : list Event) : list (WebSocket * Payload) :=
  match tr with
  | [] => []
  | EvSend ws p :: tr' => (ws, p) :: sends tr'
  | _ :: tr' => sends tr'
  end.

(** Lock discipline of a trace: starting with the lock held or not
    ([held]), no send happens while it is held, acquisitions and releases
    alternate, and the lock is free at the end. *)
Fixpoint lock_free_sends (held : bool) (tr : list Event) : bool :=
  match tr with
  | [] => negb held
  | EvAcquire :: tr' => negb held && lock_free_sends true tr'
  | EvRelease :: tr' => held && lock_free_sends false tr'
  | EvSend _ _ :: tr' => negb held && lock_free_sends held tr'
  end.

(** ** Registry allocators *)

Definition allocate_peer_id : Handler Z :=
  λ st, (Registry._next_peer_id st,
         Registry.mk (Registry.rooms st) (Registry.peers st)
                     (Registry.lobby_subscriptions st)
                     (Registry._next_peer_id st + 1)
                     (Registry._next_connection_id st),
         []).

Definition allocate_connection_id : Handler Z :=
  λ st, (Registry._next_connection_id st,
         Registry.mk (Registry.rooms st) (Registry.peers st)
                     (Registry.lobby_subscriptions st)
                     (Registry._next_peer_id st)
                     (Registry._next_connection_id st + 1),
         []).

(** ** Sending *)

Definition send_json (websocket : WebSocket) (payload : Payload) : Handler unit :=
  emit (EvSend websocket payload).

Definition send_error (websocket : WebSocket) (message : string) : Handler unit :=
  send_json websocket (PError message).

(** [broadcast_room]: one send per member of [room.peer_ids] that is not
    excluded and still has a session in [registry.peers]. *)
Definition broadcast_room (room : Room.t) (payload : Payload)
    (exclude_peer_id : option Z) : Handler unit :=
  for_each (elements (Room.peer_ids room)) (λ peer_id,
    if bool_decide (exclude_peer_id = Some peer_id) then mret tt
    else
      peer_session ← gets (λ st, Registry.peers st !! peer_id);
      match peer_session with
      | None => mret tt
      | Some s => send_json (PeerSession.websocket s) payload
      end).

(** ** Lobby directory *)

Definition room_to_lobby (room : Room.t) : Lobby :=
  mkLobby (Room.room_id room) (Room.topology room)
          (size (Room.peer_ids room)) (Room.capacity room) (Room.tags room).

Definition _is_room_visible_to_filter (room : Room.t) (filter_tags : gset string) : bool :=
  if Room.is_sealed room || Room.is_full room then false
  else if bool_decide (filter_tags ≠ ∅)
          && negb (bool_decide (filter_tags ⊆ list_to_set (Room.tags room)))
  then false
  else true.

Definition _build_lobby_snapshot (rooms : list Room.t) (filter_tags : gset string)
    : list Lobby :=
  room_to_lobby <$> filter (λ room, _is_room_visible_to_filter room filter_tags = true) rooms.

(** The delta one subscriber receives for [room_id], given the room found
    in the registry (if any): the body of the loop of
    [notify_lobby_room_changed]. *)
Definition lobby_delta_payload (room : option Room.t) (room_id : string)
    (subscription : LobbySubscription.t) : Payload :=
  match room with
  | Some r =>
      if _is_room_visible_to_filter r (LobbySubscription.filter_tags subscription)
      then PLobbyDeltaUpsert (Room.room_id r) (room_to_lobby r)
      else PLobbyDeltaRemove room_id
  | None => PLobbyDeltaRemove room_id
  end.

Definition notify_lobby_room_changed (room_id : string) : Handler unit :=
  acquire ;;
  room ← gets (λ st, Registry.rooms st !! room_id);
  subscriptions ← gets (λ st, (map_to_list (Registry.lobby_subscriptions st)).*2);
  release ;;
  for_each subscriptions (λ subscription,
    send_json (LobbySubscription.websocket subscription)
              (lobby_delta_payload room room_id subscription)).

Definition handle_list_lobbies (websocket : WebSocket) (message : Message)
    : Handler unit :=
  let tags := m_filter_tags message in
  acquire ;;
  lobbies ← gets (λ st,
    _build_lobby_snapshot ((map_to_list (Registry.rooms st)).*2) tags);
  release ;;
  send_json websocket (PLobbyList lobbies) ;;
  send_json websocket (PLobbySnapshot lobbies).

Definition handle_subscribe_lobbies (connection_id : Z) (websocket : WebSocket)
    (message : Message) : Handler unit :=
  let filter_tags := m_filter_tags message in
  acquire ;;
  modify (λ st, Registry.set_lobby_subscriptions
    (<[connection_id := LobbySubscription.mk connection_id websocket filter_tags]>
       (Registry.lobby_subscriptions st)) st) ;;
  lobbies ← gets (λ st,
    _build_lobby_snapshot ((map_to_list (Registry.rooms st)).*2) filter_tags);
  release ;;
  send_json websocket (PLobbySnapshot lobbies).

Definition handle_unsubscribe_lobbies (connection_id : Z) : Handler unit :=
  acquire ;;
  modify (λ st, Registry.set_lobby_subscriptions
    (delete connection_id (Registry.lobby_subscriptions st)) st) ;;
  release.

(** ** Match readiness *)

Definition maybe_emit_match_ready (room_id : string) (now : Z) : Handler unit :=
  acquire ;;
  room ← gets (λ st, Registry.rooms st !! room_id);
  match room with
  | None => release
  | Some room =>
      if negb (Room.is_full room) then release
      else if (size (Room.connected_ack room) <? size (Room.peer_ids room))%nat
      then release
      else
        let room := Room.update_activity now room in
        modify (λ st, Registry.set_rooms (<[room_id := room]> (Registry.rooms st)) st) ;;
        release ;;
        broadcast_room room PMatchReady None
  end.

Definition handle_peer_connected (peer_id : Z) (now : Z) : Handler unit :=
  acquire ;;
  session ← gets (λ st, Registry.peers st !! peer_id);
  match session with
  | None => release
  | Some session =>
      room ← gets (λ st, Registry.rooms st !! PeerSession.room_id session);
      match room with
      | None => release
      | Some room =>
          let room := Room.set_connected_ack ({[peer_id]} ∪ Room.connected_ack room) room in
          let room := Room.update_activity now room in
          modify (λ st, Registry.set_rooms
            (<[PeerSession.room_id session := room]> (Registry.rooms st)) st) ;;
          release ;;
          maybe_emit_match_ready (PeerSession.room_id session) now
      end
  end.

(** ** Signal relay *)

Definition handle_signal (from_peer_id : Z) (message : Message) (now : Z)
    : Handler unit :=
  let target_id := m_target_id message in
  if bool_decide (target_id = 0) then
    source_session ← gets (λ st, Registry.peers st !! from_peer_id);
    match source_session with
    | Some s => send_error (PeerSession.websocket s) "target_id_required"
    | None => mret tt
    end
  else
    acquire ;;
    source_session ← gets (λ st, Registry.peers st !! from_peer_id);
    target_session ← gets (λ st, Registry.peers st !! target_id);
    match source_session, target_session with
    | Some source_session, Some target_session =>
        if negb (bool_decide (PeerSession.room_id source_session
                              = PeerSession.room_id target_session))
        then
          send_error (PeerSession.websocket source_session) "cross_room_signal_blocked" ;;
          release
        else
          room ← gets (λ st, Registry.rooms st !! PeerSession.room_id source_session);
          match room with
          | None => release
          | Some room =>
              modify (λ st, Registry.set_rooms
                (<[PeerSession.room_id source_session := Room.update_activity now room]>
                   (Registry.rooms st)) st) ;;
              let relay_payload := PSignal from_peer_id (m_sdp message) (m_ice message) in
              release ;;
              send_json (PeerSession.websocket target_session) relay_payload
          end
    | _, _ => release
    end.

(** ** Disconnect *)

Definition handle_disconnect (peer_id : Z) (now : Z) : Handler unit :=
  acquire ;;
  session ← gets (λ st, Registry.peers st !! peer_id);
  modify (λ st, Registry.set_peers (delete peer_id (Registry.peers st)) st) ;;
  match session with
  | None => release
  | Some session =>
      room ← gets (λ st, Registry.rooms st !! PeerSession.room_id session);
      match room with
      | None => release
      | Some room =>
          let room := Room.set_peer_ids (Room.peer_ids room ∖ {[peer_id]}) room in
          let room := Room.set_connected_ack (Room.connected_ack room ∖ {[peer_id]}) room in
          let room := Room.update_activity now room in
          modify (λ st, Registry.set_rooms
            (<[PeerSession.room_id session := room]> (Registry.rooms st)) st) ;;
          let host_disconnected := bool_decide (peer_id = Room.host_id room) in
          let is_empty := bool_decide (size (Room.peer_ids room) = 0%nat) in
          let peers_left := elements (Room.peer_ids room) in
          let room :=
            if host_disconnected || is_empty then room
            else Room.set_is_sealed false room in
          (if host_disconnected || is_empty then
             modify (λ st, Registry.set_rooms
               (delete (Room.room_id room) (Registry.rooms st)) st)
           else
             modify (λ st, Registry.set_rooms
               (<[PeerSession.room_id session := room]> (Registry.rooms st)) st)) ;;
          release ;;
          (if host_disconnected then broadcast_room room PRoomClosed None
           else match peers_left with
                | [] => mret tt
                | _ :: _ => broadcast_room room (PPeerLeft peer_id) None
                end) ;;
          notify_lobby_room_changed (Room.room_id room)
      end
  end.

(** ** Stale room reaper *)

Definition stale_after_seconds : Z := 60.

(** One pass of the body of [while True] in [prune_stale_rooms], run at
    time [now] after the sleep.  [registry.rooms.pop(room_id)] cannot miss:
    the ids were read from the same dict under the same lock. *)
Definition prune_stale_rooms (now : Z) : Handler unit :=
  acquire ;;
  stale_room_ids ← gets (λ st,
    (filter (λ kv : string * Room.t, stale_after_seconds < now - Room.last_activity kv.2)
            (map_to_list (Registry.rooms st))).*1);
  for_each stale_room_ids (λ room_id,
    room ← gets (λ st, Registry.rooms st !! room_id);
    modify (λ st, Registry.set_rooms (delete room_id (Registry.rooms st)) st) ;;
    match room with
    | None => mret tt
    | Some room =>
        for_each (elements (Room.peer_ids room)) (λ peer_id,
          modify (λ st, Registry.set_peers (delete peer_id (Registry.peers st)) st))
    end) ;;
  release ;;
  for_each stale_room_ids (λ room_id, notify_lobby_room_changed room_id).

Section Server.

(** [ICE_SERVERS], loaded from the environment at start-up. *)
Variable ICE_SERVERS : list Json.

(** ** Join *)

(** Lines 389-448 of [handle_join]: what follows the lookup or creation of
    the room, still inside the lock. [room] is the room stored under
    [room_id]. *)
Definition handle_join_admit (websocket : WebSocket) (room_id : string)
    (is_host_intent : bool) (peer_id : Z) (room : Room.t) (now : Z)
    : Handler (option Z) :=
  if Room.is_sealed room || Room.is_full room then
    send_error websocket "room_unavailable" ;; release ;; mret None
  else if is_host_intent && negb (bool_decide (Room.host_id room = peer_id)) then
    send_error websocket "host_already_exists" ;; release ;; mret None
  else
    let room := Room.set_peer_ids ({[peer_id]} ∪ Room.peer_ids room) room in
    let room := Room.update_activity now room in
    let room := if Room.is_full room then Room.set_is_sealed true room else room in
    modify (λ st, Registry.set_rooms (<[room_id := room]> (Registry.rooms st)) st) ;;
    modify (λ st, Registry.set_peers
      (<[peer_id := PeerSession.mk peer_id websocket room_id now]>
         (Registry.peers st)) st) ;;
    let existing_peers :=
      filter (λ pid, pid ≠ peer_id) (elements (Room.peer_ids room)) in
    release ;;
    notify_lobby_room_changed room_id ;;
    send_json websocket
      (PIdAssigned peer_id (Room.host_id room) (Room.topology room)
                   (Room.capacity room) ICE_SERVERS) ;;
    let notify_peer_ids :=
      match Room.topology room with
      | Mesh => existing_peers
      | ServerAuthoritative =>
          if bool_decide (Room.host_id room ∈ existing_peers)
          then [Room.host_id room] else []
      end in
    for_each notify_peer_ids (λ existing_peer_id,
      existing_session ← gets (λ st, Registry.peers st !! existing_peer_id);
      match existing_session with
      | None => mret tt
      | Some s => send_json (PeerSession.websocket s) (PPeerJoined peer_id)
      end) ;;
    (if Room.is_full room then maybe_emit_match_ready room_id now else mret tt) ;;
    mret (Some peer_id).

Definition handle_join (websocket : WebSocket) (message : Message) (now : Z)
    : Handler (option Z) :=
  let room_id := m_room_id message in
  let is_host_intent := m_is_host_intent message in
  let topology :=
    if bool_decide (m_topology message = "server_authoritative")
    then ServerAuthoritative else Mesh in
  let capacity := m_capacity message in
  let capacity := Z.max 2 capacity in
  let tags := m_tags message in
  if bool_decide (room_id = "") then
    send_error websocket "room_id_required" ;; mret None
  else
    acquire ;;
    peer_id ← allocate_peer_id;
    room ← gets (λ st, Registry.rooms st !! room_id);
    match room with
    | None =>
        if negb is_host_intent then
          send_error websocket "room_not_found" ;; release ;; mret None
        else
          let room := Room.mk room_id peer_id topology capacity false ∅ ∅ tags now in
          modify (λ st, Registry.set_rooms (<[room_id := room]> (Registry.rooms st)) st) ;;
          handle_join_admit websocket room_id is_host_intent peer_id room now
    | Some room =>
        if negb (bool_decide (topology = Room.topology room)) then
          send_error websocket "topology_mismatch" ;; release ;; mret None
        else
          handle_join_admit websocket room_id is_host_intent peer_id room now
    end.

(** ** Protocol handler *)

(** One turn of the [while True] loop of [websocket_endpoint] on a decoded
    message; returns the connection's [peer_id] after the turn. *)
Definition websocket_endpoint (connection_id : Z) (websocket : WebSocket)
    (peer_id : option Z) (message : Message) (now : Z) : Handler (option Z) :=
  let message_type := m_type message in
  if bool_decide (message_type = "join") then
    assigned_peer_id ← handle_join websocket message now;
    mret (match assigned_peer_id with
          | Some p => Some p
          | None => peer_id
          end)
  else if bool_decide (message_type = "list_lobbies") then
    handle_list_lobbies websocket message ;; mret peer_id
  else if bool_decide (message_type = "subscribe_lobbies") then
    handle_subscribe_lobbies connection_id websocket message ;; mret peer_id
  else if bool_decide (message_type = "unsubscribe_lobbies") then
    handle_unsubscribe_lobbies connection_id ;; mret peer_id
  else
    match peer_id with
    | None => send_error websocket "join_required" ;; mret peer_id
    | Some p =>
        (if bool_decide (message_type = "signal") then
           handle_signal p message now
         else if bool_decide (message_type = "peer_connected") then
           handle_peer_connected p now
         else
           send_error websocket (String.append "unknown_message_type:" message_type)) ;;
        mret peer_id
    end.

(** The [except WebSocketDisconnect] / [except Exception] clean-up. *)
Definition websocket_cleanup (connection_id : Z) (peer_id : option Z) (now : Z)
    : Handler unit :=
  match peer_id with
  | Some p => handle_disconnect p now
  | None => mret tt
  end ;;
  handle_unsubscribe_lobbies connection_id.

End Server.

(** ** The server as a sequence of connection events *)

(** What [websocket_endpoint] keeps in its frame for one connection. *)
Record Connection : Type := mkConnection {
  conn_connection_id : Z;
  conn_peer_id : option Z }.

Record Server : Type := mkServer {
  registry : Registry.t;
  connections : gmap WebSocket Connection }.

Definition server_init : Server := mkServer Registry.init ∅.

(** What can happen to the server: a connection is accepted, a decoded
    message arrives on a connection, a connection ends, the reaper wakes. *)
Inductive Input : Type :=
  | Accept (websocket : WebSocket)
  | Receive (websocket : WebSocket) (message : Message)
  | Disconnect (websocket : WebSocket)
  | ReaperWake.

Section ServerRun.

Variable ICE_SERVERS : list Json.

Definition server_step (now : Z) (input : Input) (sv : Server)
    : Server * list Event :=
  match input with
  | Accept ws =>
      let '(connection_id, reg, tr) := allocate_connection_id (registry sv) in
      (mkServer reg (<[ws := mkConnection connection_id None]> (connections sv)), tr)
  | Receive ws message =>
      match connections sv !! ws with
      | None => (sv, [])
      | Some c =>
          let '(peer_id, reg, tr) :=
            websocket_endpoint ICE_SERVERS (conn_connection_id c) ws
                               (conn_peer_id c) message now (registry sv) in
          (mkServer reg (<[ws := mkConnection (conn_connection_id c) peer_id]>
                           (connections sv)), tr)
      end
  | Disconnect ws =>
      match connections sv !! ws with
      | None => (sv, [])
      | Some c =>
          let '(_, reg, tr) :=
            websocket_cleanup (conn_connection_id c) (conn_peer_id c) now (registry sv) in
          (mkServer reg (delete ws (connections sv)), tr)
      end
  | ReaperWake =>
      let '(_, reg, tr) := prune_stale_rooms now (registry sv) in
      (mkServer reg (connections sv), tr)
  end.

(** Run timed inputs in order; the traces are concatenated. *)
Fixpoint server_run (inputs : list (Z * Input)) (sv : Server)
    : Server * list Event :=
  match inputs with
  | [] => (sv, [])
  | (now, input) :: rest =>
      let '(sv1, tr1) := server_step now input sv in
      let '(sv2, tr2) := server_run rest sv1 in
      (sv2, tr1 ++ tr2)
  end.

(** The registries the server can be in after some sequence of events. *)
Definition reachable (reg : Registry.t) : Prop :=
  ∃ inputs, registry (server_run inputs server_init).1 = reg.

End ServerRun.

(** ** Predicates of the specification *)

(** The room invariants of the data model. *)
Definition room_invariant (room : Room.t) : Prop :=
  Room.connected_ack room ⊆ Room.peer_ids room
  ∧ Room.host_id room ∈ Room.peer_ids room
  ∧ Z.of_nat (size (Room.peer_ids room)) ≤ Room.capacity room
  ∧ (Room.is_sealed room = true
     ↔ Z.of_nat (size (Room.peer_ids room)) = Room.capacity room).

Definition registry_invariant (reg : Registry.t) : Prop :=
  ∀ room_id room, Registry.rooms reg !! room_id = Some room → room_invariant room.

(** The part of the room invariants that every reachable registry keeps. *)
Definition room_bounds (room : Room.t) : Prop :=
  Room.host_id room ∈ Room.peer_ids room
  ∧ 2 ≤ Room.capacity room
  ∧ Z.of_nat (size (Room.peer_ids room)) ≤ Room.capacity room.

(** ... for every room, stored under its own id. *)
Definition registry_bounds (reg : Registry.t) : Prop :=
  ∀ room_id room,
    Registry.rooms reg !! room_id = Some room →
    Room.room_id room = room_id ∧ room_bounds room.

(** The connections [broadcast_room] sends to when nobody is excluded: the
    members of the room that still have a session. *)
Definition room_recipients (reg : Registry.t) (room : Room.t) : list WebSocket :=
  omap (λ peer_id, PeerSession.websocket <$> Registry.peers reg !! peer_id)
       (elements (Room.peer_ids room)).

(** The connections a trace sends [match_ready] to, in order. *)
Definition match_ready_sends (tr : list Event) : list WebSocket :=
  omap (λ e, match e with
             | EvSend ws PMatchReady => Some ws
             | _ => None
             end) tr.

(** The subscriptions [notify_lobby_room_changed] fans out to. *)
Definition subscribers (reg : Registry.t) : list LobbySubscription.t :=
  (map_to_list (Registry.lobby_subscriptions reg)).*2.

(** The trace of one [notify_lobby_room_changed(room_id)]. *)
Definition lobby_delta_trace (reg : Registry.t) (room_id : string) : list Event :=
  [EvAcquire; EvRelease]
  ++ ((λ sub, EvSend (LobbySubscription.websocket sub)
                     (lobby_delta_payload (Registry.rooms reg !! room_id) room_id sub))
      <$> subscribers reg).

(** The ids the reaper collects at time [now] (the list comprehension of
    [prune_stale_rooms]). *)
Definition stale_room_ids (now : Z) (reg : Registry.t) : list string :=
  (filter (λ kv : string * Room.t, stale_after_seconds < now - Room.last_activity kv.2)
          (map_to_list (Registry.rooms reg))).*1.

(** The room after lines 397-400 of [handle_join]: the peer added, the
    activity refreshed, the room sealed if it is now full. *)
Definition admitted (peer_id : Z) (now : Z) (room : Room.t) : Room.t :=
  let room := Room.set_peer_ids ({[peer_id]} ∪ Room.peer_ids room) room in
  let room := Room.update_activity now room in
  if Room.is_full room then Room.set_is_sealed true room else room.

(** The registry after an accepted join of [peer_id] into the room stored
    under [room_id]. *)
Definition joined_registry (websocket : WebSocket) (room_id : string)
    (peer_id now : Z) (room : Room.t) (st : Registry.t) : Registry.t :=
  Registry.set_peers
    (<[peer_id := PeerSession.mk peer_id websocket room_id now]> (Registry.peers st))
    (Registry.set_rooms
       (<[room_id := admitted peer_id now room]> (Registry.rooms st)) st).

(** The room after lines 572-573 of [handle_peer_connected]. *)
Definition acknowledged (peer_id : Z) (now : Z) (room : Room.t) : Room.t :=
  Room.update_activity now
    (Room.set_connected_ack ({[peer_id]} ∪ Room.connected_ack room) room).

(** The room after lines 614-616 of [handle_disconnect]. *)
Definition departed (peer_id : Z) (now : Z) (room : Room.t) : Room.t :=
  Room.update_activity now
    (Room.set_connected_ack (Room.connected_ack room ∖ {[peer_id]})
       (Room.set_peer_ids (Room.peer_ids room ∖ {[peer_id]}) room)).

(** Whether [handle_disconnect] removes the room ([host_disconnected or
    is_empty]), judged on the room after the peer has been discarded. *)
Definition closes (peer_id : Z) (room : Room.t) : bool :=
  bool_decide (peer_id = Room.host_id room)
  || bool_decide (size (Room.peer_ids room) = 0%nat).

(** The registry after [handle_disconnect] of a peer whose session
    [session] and room [room] were found. *)
Definition disconnected_registry (peer_id now : Z) (session : PeerSession.t)
    (room : Room.t) (st : Registry.t) : Registry.t :=
  let room' := departed peer_id now room in
  let st1 := Registry.set_peers (delete peer_id (Registry.peers st)) st in
  let rooms1 := <[PeerSession.room_id session := room']> (Registry.rooms st) in
  if closes peer_id room'
  then Registry.set_rooms (delete (Room.room_id room') rooms1) st1
  else Registry.set_rooms
         (<[PeerSession.room_id session := Room.set_is_sealed false room']> rooms1) st1.

(** Whether [maybe_emit_match_ready] goes on to broadcast for this room. *)
Definition ready (room : Room.t) : bool :=
  Room.is_full room
  && negb (size (Room.connected_ack room) <? size (Room.peer_ids room))%nat.

(** Follows the spec's words (join validation order): the verdict on a join
    request, where the requester is the peer id about to be allocated. *)
Inductive JoinVerdict : Type :=
  | Reject (code : string)
  | Admit.

Definition requested_topology (message : Message) : Topology :=
  if bool_decide (m_topology message = "server_authoritative")
  then ServerAuthoritative else Mesh.

Definition spec_join_verdict (reg : Registry.t) (message : Message) : JoinVerdict :=
  let requester := Registry._next_peer_id reg in
  if bool_decide (m_room_id message = "") then Reject "room_id_required"
  else
    match Registry.rooms reg !! m_room_id message with
    | Some room =>
        if bool_decide (requested_topology message ≠ Room.topology room)
        then Reject "topology_mismatch"
        else if Room.is_sealed room || Room.is_full room
        then Reject "room_unavailable"
        else if m_is_host_intent message
                && bool_decide (Room.host_id room ≠ requester)
        then Reject "host_already_exists"
        else Admit
    | None =>
        if m_is_host_intent message then Admit else Reject "room_not_found"
    end.

(** Follows the spec's words (lobby directory): a room is visible to a filter
    when it is neither sealed nor full and the filter, if non-empty, is a
    subset of the room's tags. *)
Definition spec_visible (room : Room.t) (filter_tags : gset string) : Prop :=
  Room.is_sealed room = false
  ∧ Room.is_full room = false
  ∧ (filter_tags ≠ ∅ → filter_tags ⊆ list_to_set (Room.tags room)).

(** Message types [websocket_endpoint] serves before the join check. *)
Definition connection_scoped_types : list string :=
  ["join"; "list_lobbies"; "subscribe_lobbies"; "unsubscribe_lobbies"].

(** ** Concrete messages and scenarios *)

Definition join_message (room_id : string) (is_host_intent : bool) (capacity : Z)
    : Message :=
  mkMessage "join" room_id is_host_intent "mesh" capacity [] ∅ 0 None None.

Definition bare_message (type : string) : Message :=
  mkMessage type "" false "mesh" 2 [] ∅ 0 None None.

Definition signal_message (target_id : Z) (sdp ice : option Json) : Message :=
  mkMessage "signal" "" false "mesh" 2 [] ∅ target_id sdp ice.

Definition subscribe_message (filter_tags : gset string) : Message :=
  mkMessage "subscribe_lobbies" "" false "mesh" 2 [] filter_tags 0 None None.

Definition DEFAULT_ICE_SERVERS : list Json :=
  [JObj [("urls", JArr [JStr "stun:stun.l.google.com:19302"])]].

(** Connections 10 (A) and 11 (B) are accepted; A creates room r1 with
    capacity 2 and B joins it: peers 1 and 2, room full and sealed. *)
Definition two_peers_inputs : list (Z * Input) :=
  [ (100, Accept 10%nat); (100, Accept 11%nat);
    (101, Receive 10%nat (join_message "r1" true 2));
    (102, Receive 11%nat (join_message "r1" false 2)) ].

(** ... then both acknowledge their connection. *)
Definition both_acked_inputs : list (Z * Input) :=
  two_peers_inputs
  ++ [ (103, Receive 10%nat (bare_message "peer_connected"));
       (104, Receive 11%nat (bare_message "peer_connected")) ].

(** ... or instead the host A disconnects while B stays connected. *)
Definition host_left_inputs : list (Z * Input) :=
  two_peers_inputs ++ [ (103, Disconnect 10%nat) ].

(** ... then a new connection 12 (C) creates r1 again, and B, whose session
    is still registered, acknowledges. *)
Definition stale_ack_inputs : list (Z * Input) :=
  host_left_inputs
  ++ [ (104, Accept 12%nat);
       (105, Receive 12%nat (join_message "r1" true 2));
       (106, Receive 11%nat (bare_message "peer_connected")) ].

(** ... or C creates r1 again, a connection 13 (D) fills it, and then B
    disconnects. *)
Definition stale_leave_inputs : list (Z * Input) :=
  host_left_inputs
  ++ [ (104, Accept 12%nat); (104, Accept 13%nat);
       (105, Receive 12%nat (join_message "r1" true 2));
       (106, Receive 13%nat (join_message "r1" false 2));
       (107, Disconnect 11%nat) ].

(** Rooms r1 (peers 1 and 2) and r2 (peer 3, on connection 12). *)
Definition two_rooms_inputs : list (Z * Input) :=
  two_peers_inputs
  ++ [ (103, Accept 12%nat);
       (104, Receive 12%nat (join_message "r2" true 2)) ].

(** Room r1 with peers 1 and 2, and a subscriber on connection 12. *)
Definition subscribed_inputs : list (Z * Input) :=
  two_peers_inputs
  ++ [ (103, Accept 12%nat);
       (104, Receive 12%nat (subscribe_message ∅)) ].

Definition run_from_start (inputs : list (Z * Input)) : Server * list Event :=
  server_run DEFAULT_ICE_SERVERS inputs server_init.

Definition registry_after (inputs : list (Z * Input)) : Registry.t :=
  registry (run_from_start inputs).1.


(** ** Configuration and frame decoding *)

(** [isinstance(entry, dict)] *)
Definition is_dict (value : Json) : bool :=
  match value with
  | JObj _ => true
  | _ => false
  end.

Section Decoding.

(** [json.loads] on a string: the parsed value, or [None] where it raises
    [json.JSONDecodeError]. *)
Variable json_loads : string → option Json.

(** [bytes.decode("utf-8")]: the text, or [None] where it raises
    [UnicodeDecodeError]. *)
Variable utf8_decode : list Byte.byte → option string.

(** [_load_ice_servers], given the value of [os.getenv("ICE_SERVERS_JSON")]. *)
Definition _load_ice_servers (raw_value : option string) : list Json :=
  match raw_value with
  | None => DEFAULT_ICE_SERVERS
  | Some raw_value =>
      if bool_decide (raw_value = "") then DEFAULT_ICE_SERVERS
      else
        match json_loads raw_value with
        | None => DEFAULT_ICE_SERVERS
        | Some (JArr loaded) =>
            let validated := filter (λ entry, is_dict entry = true) loaded in
            match validated with
            | [] => DEFAULT_ICE_SERVERS
            | _ :: _ => validated
            end
        | Some _ => DEFAULT_ICE_SERVERS
        end
  end.

(** What [websocket.receive()] returns, as [receive_client_message] reads
    it: [str(raw_message.get("type", ""))], [int(raw_message.get("code",
    1000))], [raw_message.get("text")], [raw_message.get("bytes")]. *)
Record Frame : Type := mkFrame {
  f_type : string;
  f_code : Z;
  f_text : option string;
  f_bytes : option (list Byte.byte) }.

(** The three ways [receive_client_message] ends: it raises
    [WebSocketDisconnect(code)], returns [None], or returns the parsed
    dict (the fields of the JSON object). *)
Inductive Received : Type :=
  | RaisedDisconnect (code : Z)
  | ReturnedNone
  | ReturnedDict (parsed : list (string * Json)).

Definition receive_client_message (websocket : WebSocket) (raw_message : Frame)
    : Handler Received :=
  let message_type := f_type raw_message in
  if bool_decide (message_type = "websocket.disconnect") then
    mret (RaisedDisconnect (f_code raw_message))
  else
    let payload_text := f_text raw_message in
    let payload_bytes := f_bytes raw_message in
    match payload_text, payload_bytes with
    | None, None => send_error websocket "empty_payload" ;; mret ReturnedNone
    | _, _ =>
        (* [payload_text] after the [try: payload_bytes.decode("utf-8")];
           [inl tt] stands for the [UnicodeDecodeError] *)
        let decoded : unit + option string :=
          match payload_text, payload_bytes with
          | None, Some b =>
              match utf8_decode b with
              | Some t => inr (Some t)
              | None => inl tt
              end
          | _, _ => inr payload_text
          end in
        match decoded with
        | inl _ => send_error websocket "invalid_utf8_payload" ;; mret ReturnedNone
        | inr None => send_error websocket "empty_payload" ;; mret ReturnedNone
        | inr (Some payload_text) =>
            match json_loads payload_text with
            | None => send_error websocket "invalid_json" ;; mret ReturnedNone
            | Some (JObj parsed) => mret (ReturnedDict parsed)
            | Some _ => send_error websocket "json_object_required" ;; mret ReturnedNone
            end
        end
    end.

End Decoding.

Section FilterTags.

(** [str(item)] on a JSON value, and [str.strip()]. *)
Variable py_str : Json → string.
Variable strip : string → string.


End FilterTags.

(** [heartbeat]: the two counts it reads under the lock. *)
Definition heartbeat : Handler (nat * nat) :=
  acquire ;;
  rooms_count ← gets (λ st, size (Registry.rooms st));
  peers_count ← gets (λ st, size (Registry.peers st));
  release ;;
  mret (rooms_count, peers_count).

(** ** More predicates on registries *)

(** Every peer id in use was handed out by the allocator: the sessions, the
    hosts and the members of the rooms are below [_next_peer_id]. *)
Definition peer_ids_allocated (reg : Registry.t) : Prop :=
  (∀ p s, Registry.peers reg !! p = Some s → p < Registry._next_peer_id reg)
  ∧ (∀ room_id room, Registry.rooms reg !! room_id = Some room →
       Room.host_id room < Registry._next_peer_id reg
       ∧ ∀ p, p ∈ Room.peer_ids room → p < Registry._next_peer_id reg).

(** Two rooms agree on everything but their [last_activity]. *)
Definition same_but_activity (room1 room2 : Room.t) : Prop :=
  Room.update_activity 0 room1 = Room.update_activity 0 room2.

(** Two rooms agree on everything but their [connected_ack] and
    [last_activity]. *)
Definition same_membership (room1 room2 : Room.t) : Prop :=
  Room.set_connected_ack ∅ (Room.update_activity 0 room1)
  = Room.set_connected_ack ∅ (Room.update_activity 0 room2).

(** Every member of a room has a session, and that session names the room
    by the id it is stored under. *)
Definition members_have_sessions (reg : Registry.t) : Prop :=
  ∀ room_id room p,
    Registry.rooms reg !! room_id = Some room →
    p ∈ Room.peer_ids room →
    ∃ s, Registry.peers reg !! p = Some s ∧ PeerSession.room_id s = room_id.

(** Every connection id in use was handed out by the allocator (the live
    connections' and the keys of the subscriptions are below
    [_next_connection_id]), and no two live connections share one. *)
Definition connection_ids_allocated (sv : Server) : Prop :=
  (∀ ws c, connections sv !! ws = Some c →
     conn_connection_id c < Registry._next_connection_id (registry sv))
  ∧ (∀ k sub, Registry.lobby_subscriptions (registry sv) !! k = Some sub →
       k < Registry._next_connection_id (registry sv))
  ∧ (∀ ws1 ws2 c1 c2,
       connections sv !! ws1 = Some c1 → connections sv !! ws2 = Some c2 →
       conn_connection_id c1 = conn_connection_id c2 → ws1 = ws2).

(** ** More concrete inputs *)

(** Room r1 with capacity 3: host 1 and members 2 and 3, on connections 10,
    11 and 12. *)
Definition three_peers_inputs : list (Z * Input) :=
  [ (100, Accept 10%nat); (100, Accept 11%nat); (100, Accept 12%nat);
    (101, Receive 10%nat (join_message "r1" true 3));
    (102, Receive 11%nat (join_message "r1" false 3));
    (103, Receive 12%nat (join_message "r1" false 3)) ].

(** A server-authoritative join request. *)
Definition authoritative_join_message (room_id : string) (is_host_intent : bool)
    (capacity : Z) : Message :=
  mkMessage "join" room_id is_host_intent "server_authoritative" capacity [] ∅ 0
            None None.

(** Room r1, server-authoritative with capacity 4: host 1 and member 2. *)
Definition authoritative_inputs : list (Z * Input) :=
  [ (100, Accept 10%nat); (100, Accept 11%nat);
    (101, Receive 10%nat (authoritative_join_message "r1" true 4));
    (102, Receive 11%nat (authoritative_join_message "r1" false 4)) ].

(** A JSON text decoder that only knows three inputs. *)
Definition sample_json_loads (text : string) : option Json :=
  if bool_decide (text = "[{},1]") then Some (JArr [JObj []; JNum 1])
  else if bool_decide (text = "{}") then Some (JObj [])
  else if bool_decide (text = "[1]") then Some (JArr [JNum 1])
  else None.

(** * Proofs *)

(** ** Running handlers *)

#[local] Arguments Nat.ltb : simpl never.
#[local] Arguments Room.is_full : simpl never.
#[local] Arguments ready : simpl never.
#[local] Arguments lobby_delta_trace : simpl never.
#[local] Arguments stale_room_ids : simpl never.
#[local] Arguments departed : simpl never.
#[local] Arguments closes : simpl never.

Ltac run_handler :=
  unfold mbind, mret, Handler_bind, Handler_ret, gets, modify,
         acquire, release, send_error, send_json, emit; cbn.

Lemma bind_run {A B} (m : Handler A) (f : A → Handler B) (st : Registry.t) :
  (m ≫= f) st =
    (result (f (result (m st)) (final (m st))),
     final (f (result (m st)) (final (m st))),
     trace (m st) ++ trace (f (result (m st)) (final (m st)))).
Proof.
  unfold mbind, Handler_bind, result, final, trace.
  destruct (m st) as [[a st1] tr1]; cbn.
  by destruct (f a st1) as [[b st2] tr2].
Qed.

Lemma sends_app (tr1 tr2 : list Event) :
  sends (tr1 ++ tr2) = sends tr1 ++ sends tr2.
Proof.
  induction tr1 as [|e tr1 IH]; [done|].
  destruct e; cbn; by rewrite IH.
Qed.

Lemma sends_EvSend {A} (w : A → WebSocket) (p : A → Payload) (xs : list A) :
  sends ((λ x, EvSend (w x) (p x)) <$> xs) = (λ x, (w x, p x)) <$> xs.
Proof. induction xs as [|x xs IH]; [done|]. cbn. by rewrite IH. Qed.

(** A trace that respects the lock discipline leaves the lock free, so what
    follows it is judged from the free state. *)
Lemma lock_free_sends_app (held : bool) (tr1 tr2 : list Event) :
  lock_free_sends held tr1 = true →
  lock_free_sends held (tr1 ++ tr2) = lock_free_sends false tr2.
Proof.
  revert held. induction tr1 as [|e tr1 IH]; intros held H; cbn in *.
  - by destruct held.
  - destruct e, held; cbn in *; try done; by apply IH.
Qed.

Lemma lock_free_sends_EvSend {A} (f : A → Event) (xs : list A) :
  (∀ x, ∃ ws p, f x = EvSend ws p) →
  lock_free_sends false (f <$> xs) = true.
Proof.
  intros Hf. induction xs as [|x xs IH]; [done|].
  cbn. by destruct (Hf x) as (ws & p & ->).
Qed.

Lemma lock_free_sends_concat {A} (f : A → list Event) (xs : list A) :
  (∀ x, lock_free_sends false (f x) = true) →
  lock_free_sends false (concat (f <$> xs)) = true.
Proof.
  intros Hf. induction xs as [|x xs IH]; [done|].
  rewrite fmap_cons. cbn [concat]. by rewrite lock_free_sends_app.
Qed.

(** A loop whose body neither changes the registry nor returns anything but
    a trace concatenates the traces of its turns. *)
Lemma for_each_pure {A} (xs : list A) (f : A → Handler unit)
    (tr : A → list Event) (st : Registry.t) :
  (∀ x, f x st = (tt, st, tr x)) →
  for_each xs f st = (tt, st, concat (tr <$> xs)).
Proof.
  intros Hf. induction xs as [|x xs IH]; [done|].
  cbn [for_each]. rewrite bind_run, Hf. cbn. by rewrite IH.
Qed.

Lemma broadcast_room_run (room : Room.t) (payload : Payload) (st : Registry.t) :
  broadcast_room room payload None st
  = (tt, st, (λ ws, EvSend ws payload) <$> room_recipients st room).
Proof.
  unfold broadcast_room, room_recipients.
  erewrite for_each_pure; last first.
  { intros peer_id. rewrite bool_decide_eq_false_2 by done.
    run_handler.
    instantiate (1 := λ peer_id,
      match Registry.peers st !! peer_id with
      | Some s => [EvSend (PeerSession.websocket s) payload]
      | None => []
      end).
    cbn. by destruct (Registry.peers st !! peer_id). }
  f_equal. induction (elements (Room.peer_ids room)) as [|p ps IH]; [done|].
  cbn. rewrite IH. by destruct (Registry.peers st !! p).
Qed.

Lemma notify_lobby_room_changed_run (room_id : string) (st : Registry.t) :
  notify_lobby_room_changed room_id st = (tt, st, lobby_delta_trace st room_id).
Proof.
  unfold notify_lobby_room_changed, lobby_delta_trace, subscribers.
  rewrite !bind_run. cbn.
  erewrite for_each_pure; last by (intros sub; run_handler; reflexivity).
  cbn. do 3 f_equal.
  induction ((map_to_list (Registry.lobby_subscriptions st)).*2) as [|s l IH]; [done|].
  cbn. by rewrite IH.
Qed.

Lemma lobby_delta_trace_lock_free (st : Registry.t) (room_id : string) :
  lock_free_sends false (lobby_delta_trace st room_id) = true.
Proof.
  unfold lobby_delta_trace. cbn.
  apply lock_free_sends_EvSend. eauto.
Qed.

Lemma sends_lobby_delta_trace (st : Registry.t) (room_id : string) :
  sends (lobby_delta_trace st room_id)
  = (λ sub, (LobbySubscription.websocket sub,
             lobby_delta_payload (Registry.rooms st !! room_id) room_id sub))
    <$> subscribers st.
Proof. unfold lobby_delta_trace. cbn. apply sends_EvSend. Qed.

(** ** Signal relay *)

Lemma handle_signal_absent (from_peer_id : Z) (message : Message) (now : Z)
    (st : Registry.t) :
  m_target_id message ≠ 0 →
  Registry.peers st !! from_peer_id = None
  ∨ Registry.peers st !! m_target_id message = None →
  handle_signal from_peer_id message now st = (tt, st, [EvAcquire; EvRelease]).
Proof.
  intros Hz Habs. unfold handle_signal.
  rewrite bool_decide_eq_false_2 by done.
  run_handler.
  destruct Habs as [H|H]; rewrite H; [done|].
  by destruct (Registry.peers st !! from_peer_id).
Qed.

Lemma handle_signal_cross_room (from_peer_id : Z) (message : Message) (now : Z)
    (st : Registry.t) (source target : PeerSession.t) :
  m_target_id message ≠ 0 →
  Registry.peers st !! from_peer_id = Some source →
  Registry.peers st !! m_target_id message = Some target →
  PeerSession.room_id source ≠ PeerSession.room_id target →
  handle_signal from_peer_id message now st
  = (tt, st, [EvAcquire;
              EvSend (PeerSession.websocket source) (PError "cross_room_signal_blocked");
              EvRelease]).
Proof.
  intros Hz Hs Ht Hne. unfold handle_signal.
  rewrite bool_decide_eq_false_2 by done.
  run_handler. rewrite Hs, Ht.
  by rewrite bool_decide_eq_false_2 by done.
Qed.

Lemma handle_signal_same_room (from_peer_id : Z) (message : Message) (now : Z)
    (st : Registry.t) (source target : PeerSession.t) (room : Room.t) :
  m_target_id message ≠ 0 →
  Registry.peers st !! from_peer_id = Some source →
  Registry.peers st !! m_target_id message = Some target →
  PeerSession.room_id source = PeerSession.room_id target →
  Registry.rooms st !! PeerSession.room_id source = Some room →
  handle_signal from_peer_id message now st
  = (tt,
     Registry.set_rooms
       (<[PeerSession.room_id source := Room.update_activity now room]>
          (Registry.rooms st)) st,
     [EvAcquire; EvRelease;
      EvSend (PeerSession.websocket target)
             (PSignal from_peer_id (m_sdp message) (m_ice message))]).
Proof.
  intros Hz Hs Ht Heq Hr. unfold handle_signal.
  rewrite bool_decide_eq_false_2 by done.
  run_handler. rewrite Hs, Ht.
  rewrite bool_decide_eq_true_2 by done. cbn. by rewrite Hr.
Qed.

(** C5. A signal from a sender with a session to a nonzero target with a
    session: when the two sessions are in different rooms, the only send is
    the error [cross_room_signal_blocked] to the sender and the registry is
    unchanged; when they are in the same room and that room is in the
    registry, the only send goes to the target and is the signal message
    with [from_id] the sender's id and the request's [sdp] and [ice] as they
    came (present or absent), and the room's [last_activity] becomes [now]
    while every other room, the peers and the subscriptions stay as they
    were. *)
Theorem handle_signal_relay (from_peer_id : Z) (message : Message) (now : Z)
    (st : Registry.t) (source target : PeerSession.t) :
  m_target_id message ≠ 0 →
  Registry.peers st !! from_peer_id = Some source →
  Registry.peers st !! m_target_id message = Some target →
  let r := handle_signal from_peer_id message now st in
  (PeerSession.room_id source ≠ PeerSession.room_id target →
     sends (trace r)
       = [(PeerSession.websocket source, PError "cross_room_signal_blocked")]
     ∧ final r = st)
  ∧ (∀ room,
       PeerSession.room_id source = PeerSession.room_id target →
       Registry.rooms st !! PeerSession.room_id source = Some room →
       sends (trace r)
         = [(PeerSession.websocket target,
             PSignal from_peer_id (m_sdp message) (m_ice message))]
       ∧ Registry.rooms (final r) !! PeerSession.room_id source
         = Some (Room.update_activity now room)
       ∧ (∀ other, other ≠ PeerSession.room_id source →
            Registry.rooms (final r) !! other = Registry.rooms st !! other)
       ∧ Registry.peers (final r) = Registry.peers st
       ∧ Registry.lobby_subscriptions (final r) = Registry.lobby_subscriptions st).
Proof.
  intros Hz Hs Ht r. subst r. split.
  - intros Hne. by rewrite (handle_signal_cross_room _ _ _ _ _ _ Hz Hs Ht Hne).
  - intros room Heq Hr.
    rewrite (handle_signal_same_room _ _ _ _ _ _ _ Hz Hs Ht Heq Hr). cbn.
    split_and!; try done.
    + apply lookup_insert_eq.
    + intros other Hne. by apply lookup_insert_ne.
Qed.

(** C10. A signal with a nonzero target whose sender or target has no
    session in the registry: the handler takes and releases the lock, sends
    nothing to anyone (no relay, no error), and leaves the registry as it
    was. *)
Theorem handle_signal_silent_drop (from_peer_id : Z) (message : Message)
    (now : Z) (st : Registry.t) :
  m_target_id message ≠ 0 →
  Registry.peers st !! from_peer_id = None
  ∨ Registry.peers st !! m_target_id message = None →
  sends (trace (handle_signal from_peer_id message now st)) = []
  ∧ final (handle_signal from_peer_id message now st) = st.
Proof.
  intros Hz Habs. by rewrite (handle_signal_absent _ _ _ _ Hz Habs).
Qed.

(** ** Lobby directory *)

Lemma _is_room_visible_to_filter_spec (room : Room.t) (filter_tags : gset string) :
  _is_room_visible_to_filter room filter_tags = true ↔ spec_visible room filter_tags.
Proof.
  unfold _is_room_visible_to_filter, spec_visible.
  destruct (Room.is_sealed room), (Room.is_full room); cbn; try naive_solver.
  case_bool_decide as Hne; cbn; [|naive_solver].
  case_bool_decide as Hsub; cbn; naive_solver.
Qed.

Lemma spec_visible_dec (room : Room.t) (filter_tags : gset string) :
  spec_visible room filter_tags ∨ ¬ spec_visible room filter_tags.
Proof.
  rewrite <- _is_room_visible_to_filter_spec.
  destruct (_is_room_visible_to_filter room filter_tags); [by left | by right].
Qed.

(** C6. [_is_room_visible_to_filter] holds exactly when the room is neither
    sealed nor full and the filter, when non-empty, is a subset of the
    room's tags; with the empty filter it holds exactly when the room is
    neither sealed nor full. An entry is in the snapshot built from a list
    of rooms exactly when it is the summary of a room of the list that is
    visible in that sense; and the delta a subscriber gets for a room in the
    registry is the upsert of its summary when the room is visible under the
    subscriber's filter and a remove otherwise. *)
Theorem lobby_visibility :
  (∀ room filter_tags,
     _is_room_visible_to_filter room filter_tags = true
     ↔ Room.is_sealed room = false ∧ Room.is_full room = false
       ∧ (filter_tags ≠ ∅ → filter_tags ⊆ list_to_set (Room.tags room)))
  ∧ (∀ room,
       _is_room_visible_to_filter room ∅ = true
       ↔ Room.is_sealed room = false ∧ Room.is_full room = false)
  ∧ (∀ (rooms : list Room.t) filter_tags lobby,
       lobby ∈ _build_lobby_snapshot rooms filter_tags
       ↔ ∃ room, room ∈ rooms ∧ spec_visible room filter_tags
                 ∧ lobby = room_to_lobby room)
  ∧ (∀ room room_id subscription,
       (spec_visible room (LobbySubscription.filter_tags subscription) →
          lobby_delta_payload (Some room) room_id subscription
          = PLobbyDeltaUpsert (Room.room_id room) (room_to_lobby room))
       ∧ (¬ spec_visible room (LobbySubscription.filter_tags subscription) →
          lobby_delta_payload (Some room) room_id subscription
          = PLobbyDeltaRemove room_id)).
Proof.
  split_and!.
  - intros room filter_tags. apply _is_room_visible_to_filter_spec.
  - intros room. rewrite _is_room_visible_to_filter_spec.
    unfold spec_visible. naive_solver.
  - intros rooms filter_tags lobby. unfold _build_lobby_snapshot.
    rewrite list_elem_of_fmap. split.
    + intros (room & -> & Hin). apply list_elem_of_filter in Hin as [Hv Hin].
      exists room. by rewrite <- _is_room_visible_to_filter_spec.
    + intros (room & Hin & Hv & ->). exists room. split; [done|].
      apply list_elem_of_filter. by rewrite _is_room_visible_to_filter_spec.
  - intros room room_id subscription. cbn.
    rewrite <- _is_room_visible_to_filter_spec.
    destruct (_is_room_visible_to_filter room _); naive_solver.
Qed.

Lemma handle_list_lobbies_run (websocket : WebSocket) (message : Message)
    (st : Registry.t) :
  let lobbies :=
    _build_lobby_snapshot ((map_to_list (Registry.rooms st)).*2) (m_filter_tags message) in
  handle_list_lobbies websocket message st
  = (tt, st, [EvAcquire; EvRelease;
              EvSend websocket (PLobbyList lobbies);
              EvSend websocket (PLobbySnapshot lobbies)]).
Proof. reflexivity. Qed.

Lemma handle_subscribe_lobbies_run (connection_id : Z) (websocket : WebSocket)
    (message : Message) (st : Registry.t) :
  let lobbies :=
    _build_lobby_snapshot ((map_to_list (Registry.rooms st)).*2) (m_filter_tags message) in
  handle_subscribe_lobbies connection_id websocket message st
  = (tt,
     Registry.set_lobby_subscriptions
       (<[connection_id := LobbySubscription.mk connection_id websocket
                             (m_filter_tags message)]>
          (Registry.lobby_subscriptions st)) st,
     [EvAcquire; EvRelease; EvSend websocket (PLobbySnapshot lobbies)]).
Proof. reflexivity. Qed.

(** ** Protocol handler *)

Lemma not_connection_scoped (message_type : string) :
  message_type ∉ connection_scoped_types →
  message_type ≠ "join" ∧ message_type ≠ "list_lobbies"
  ∧ message_type ≠ "subscribe_lobbies" ∧ message_type ≠ "unsubscribe_lobbies".
Proof. unfold connection_scoped_types. set_solver. Qed.

(** C7, as amended. A decoded message whose type is none of [join],
    [list_lobbies], [subscribe_lobbies], [unsubscribe_lobbies]: on a
    connection that has not completed a join it gets the error
    [join_required] and nothing else happens, whatever its type ([signal],
    [peer_connected] or an unknown one); on a connection that has joined, a
    type other than [signal] and [peer_connected] gets the error
    [unknown_message_type:<type>] and nothing else happens. *)
Theorem websocket_endpoint_gate (ICE_SERVERS : list Json) (connection_id : Z)
    (websocket : WebSocket) (message : Message) (now : Z) (st : Registry.t) :
  m_type message ∉ connection_scoped_types →
  websocket_endpoint ICE_SERVERS connection_id websocket None message now st
    = (None, st, [EvSend websocket (PError "join_required")])
  ∧ (∀ peer_id,
       m_type message ≠ "signal" → m_type message ≠ "peer_connected" →
       websocket_endpoint ICE_SERVERS connection_id websocket (Some peer_id)
                          message now st
       = (Some peer_id, st,
          [EvSend websocket
             (PError (String.append "unknown_message_type:" (m_type message)))])).
Proof.
  intros Hty. apply not_connection_scoped in Hty as (H1 & H2 & H3 & H4).
  unfold websocket_endpoint.
  rewrite !bool_decide_eq_false_2 by done.
  split; [done|]. intros peer_id Hs Hp.
  by rewrite !bool_decide_eq_false_2 by done.
Qed.

(** C7, counterexample. On a fresh connection that has not joined, a message
    of the unknown type [ping] is answered with [join_required]; no
    [unknown_message_type:ping] error is sent. *)
Lemma unknown_type_before_join :
  sends (trace (websocket_endpoint DEFAULT_ICE_SERVERS 1 10%nat None
                  (bare_message "ping") 100 Registry.init))
    = [(10%nat, PError "join_required")]
  ∧ (10%nat, PError "unknown_message_type:ping")
    ∉ sends (trace (websocket_endpoint DEFAULT_ICE_SERVERS 1 10%nat None
                      (bare_message "ping") 100 Registry.init)).
Proof.
  split; [reflexivity|].
  intros Hin. apply list_elem_of_singleton in Hin. discriminate Hin.
Qed.

(** ** Match readiness *)

Lemma room_recipients_set_rooms (m : gmap string Room.t) (st : Registry.t)
    (room : Room.t) :
  room_recipients (Registry.set_rooms m st) room = room_recipients st room.
Proof. reflexivity. Qed.

Lemma maybe_emit_match_ready_run (room_id : string) (now : Z) (st : Registry.t) :
  maybe_emit_match_ready room_id now st =
    match Registry.rooms st !! room_id with
    | Some room =>
        if ready room then
          (tt,
           Registry.set_rooms
             (<[room_id := Room.update_activity now room]> (Registry.rooms st)) st,
           [EvAcquire; EvRelease]
           ++ ((λ ws, EvSend ws PMatchReady) <$> room_recipients st room))
        else (tt, st, [EvAcquire; EvRelease])
    | None => (tt, st, [EvAcquire; EvRelease])
    end.
Proof.
  unfold maybe_emit_match_ready, ready.
  rewrite !bind_run. cbn.
  destruct (Registry.rooms st !! room_id) as [room|]; [|done].
  destruct (Room.is_full room); cbn; [|done].
  destruct (size (Room.connected_ack room) <? size (Room.peer_ids room))%nat; cbn; [done|].
  rewrite !bind_run. cbn. by rewrite broadcast_room_run.
Qed.

Lemma maybe_emit_match_ready_lock_free (room_id : string) (now : Z) (st : Registry.t) :
  lock_free_sends false (trace (maybe_emit_match_ready room_id now st)) = true.
Proof.
  rewrite maybe_emit_match_ready_run.
  destruct (Registry.rooms st !! room_id) as [room|]; [|done].
  destruct (ready room); [|done]. cbn.
  apply lock_free_sends_EvSend. eauto.
Qed.

Lemma handle_peer_connected_run (peer_id : Z) (now : Z) (st : Registry.t)
    (session : PeerSession.t) (room : Room.t) :
  Registry.peers st !! peer_id = Some session →
  Registry.rooms st !! PeerSession.room_id session = Some room →
  handle_peer_connected peer_id now st
  = (tt,
     Registry.set_rooms
       (<[PeerSession.room_id session := acknowledged peer_id now room]>
          (Registry.rooms st)) st,
     [EvAcquire; EvRelease; EvAcquire; EvRelease]
     ++ if ready (acknowledged peer_id now room)
        then (λ ws, EvSend ws PMatchReady) <$> room_recipients st room
        else []).
Proof.
  intros Hs Hr. unfold handle_peer_connected.
  rewrite !bind_run. cbn. rewrite Hs. rewrite !bind_run. cbn. rewrite Hr.
  rewrite !bind_run. cbn.
  rewrite maybe_emit_match_ready_run. cbn.
  rewrite lookup_insert_eq.
  fold (acknowledged peer_id now room).
  destruct (ready (acknowledged peer_id now room)); cbn; [|done].
  rewrite insert_insert_eq. done.
Qed.

Lemma ready_acknowledged (peer_id : Z) (now : Z) (room : Room.t) :
  ready (acknowledged peer_id now room) = true
  ↔ Room.is_full room = true
    ∧ (size (Room.peer_ids room) ≤ size ({[peer_id]} ∪ Room.connected_ack room))%nat.
Proof.
  unfold ready, acknowledged, Room.is_full. cbn.
  rewrite andb_true_iff, negb_true_iff, Nat.ltb_ge. done.
Qed.

(** C2, as amended. A [peer_connected] from a peer with a session whose room
    is in the registry records the acknowledgment, and [match_ready] goes to
    every member of the room that has a session exactly when the room is
    full and the acknowledgments recorded are at least as many as the
    members; otherwise nothing is sent. So it fires when the last member's
    acknowledgment is recorded in a full room, and it fires again on a
    redundant acknowledgment from a member that had already acknowledged,
    as long as the room is still full and every member has acknowledged. *)
Theorem handle_peer_connected_match_ready (peer_id : Z) (now : Z)
    (st : Registry.t) (session : PeerSession.t) (room : Room.t) :
  Registry.peers st !! peer_id = Some session →
  Registry.rooms st !! PeerSession.room_id session = Some room →
  let r := handle_peer_connected peer_id now st in
  let acks := {[peer_id]} ∪ Room.connected_ack room in
  let match_ready_to_all :=
    (λ ws, (ws, PMatchReady)) <$> room_recipients st room in
  (Room.connected_ack <$> Registry.rooms (final r) !! PeerSession.room_id session)
    = Some acks
  ∧ (Room.is_full room = true →
     (size (Room.peer_ids room) ≤ size acks)%nat →
     sends (trace r) = match_ready_to_all)
  ∧ (Room.is_full room = false ∨ (size acks < size (Room.peer_ids room))%nat →
     sends (trace r) = [])
  ∧ (Room.is_full room = true → Room.peer_ids room ⊆ acks →
     sends (trace r) = match_ready_to_all)
  ∧ (peer_id ∈ Room.connected_ack room →
     Room.is_full room = true →
     Room.peer_ids room ⊆ Room.connected_ack room →
     sends (trace r) = match_ready_to_all).
Proof.
  intros Hs Hr r acks match_ready_to_all. subst r.
  rewrite (handle_peer_connected_run _ _ _ _ _ Hs Hr). cbn.
  assert (Hfire : Room.is_full room = true →
                  (size (Room.peer_ids room) ≤ size acks)%nat →
                  sends (if ready (acknowledged peer_id now room)
                         then (λ ws, EvSend ws PMatchReady) <$> room_recipients st room
                         else []) = match_ready_to_all).
  { intros Hfull Hsz.
    rewrite (proj2 (ready_acknowledged peer_id now room)) by done.
    apply sends_EvSend with (w := λ ws, ws) (p := λ _, PMatchReady). }
  split_and!.
  - by rewrite lookup_insert_eq.
  - done.
  - intros Hno.
    destruct (ready (acknowledged peer_id now room)) eqn:Hready; [|done].
    apply ready_acknowledged in Hready as [Hfull Hsz].
    destruct Hno as [Hno|Hno]; [congruence|]. fold acks in Hsz. lia.
  - intros Hfull Hsub. apply Hfire; [done|]. by apply subseteq_size.
  - intros Hin Hfull Hsub. apply Hfire; [done|].
    apply subseteq_size. subst acks. set_solver.
Qed.

(** ** Join *)

Lemma update_activity_same (now : Z) (room : Room.t) :
  Room.last_activity room = now → Room.update_activity now room = room.
Proof. destruct room; cbn; by intros ->. Qed.

Lemma admitted_last_activity (peer_id now : Z) (room : Room.t) :
  Room.last_activity (admitted peer_id now room) = now.
Proof. unfold admitted. by case (Room.is_full _). Qed.

Lemma handle_join_admit_reject_unavailable (ICE_SERVERS : list Json)
    (websocket : WebSocket) (room_id : string) (is_host_intent : bool)
    (peer_id : Z) (room : Room.t) (now : Z) (st : Registry.t) :
  Room.is_sealed room || Room.is_full room = true →
  handle_join_admit ICE_SERVERS websocket room_id is_host_intent peer_id room now st
  = (None, st, [EvSend websocket (PError "room_unavailable"); EvRelease]).
Proof. intros H. unfold handle_join_admit. by rewrite H. Qed.

Lemma handle_join_admit_reject_host (ICE_SERVERS : list Json)
    (websocket : WebSocket) (room_id : string)
    (peer_id : Z) (room : Room.t) (now : Z) (st : Registry.t) :
  Room.is_sealed room || Room.is_full room = false →
  Room.host_id room ≠ peer_id →
  handle_join_admit ICE_SERVERS websocket room_id true peer_id room now st
  = (None, st, [EvSend websocket (PError "host_already_exists"); EvRelease]).
Proof.
  intros H Hne. unfold handle_join_admit. rewrite H.
  by rewrite bool_decide_eq_false_2 by done.
Qed.

Lemma handle_join_admit_accept (ICE_SERVERS : list Json)
    (websocket : WebSocket) (room_id : string) (is_host_intent : bool)
    (peer_id : Z) (room : Room.t) (now : Z) (st : Registry.t) :
  Room.is_sealed room || Room.is_full room = false →
  is_host_intent && negb (bool_decide (Room.host_id room = peer_id)) = false →
  ∃ tr,
    handle_join_admit ICE_SERVERS websocket room_id is_host_intent peer_id room now st
    = (Some peer_id, joined_registry websocket room_id peer_id now room st,
       EvRelease :: tr)
    ∧ lock_free_sends false tr = true
    ∧ (websocket,
       PIdAssigned peer_id (Room.host_id room) (Room.topology room)
                   (Room.capacity room) ICE_SERVERS) ∈ sends tr.
Proof.
  intros Hfree Hhost. unfold handle_join_admit. rewrite Hfree, Hhost.
  fold (admitted peer_id now room).
  rewrite !bind_run. cbn.
  rewrite notify_lobby_room_changed_run. cbn.
  fold (joined_registry websocket room_id peer_id now room st).
  set (st' := joined_registry websocket room_id peer_id now room st).
  set (room' := admitted peer_id now room).
  set (notify_peer_ids := match Room.topology room' with
                          | Mesh => _ | ServerAuthoritative => _ end).
  erewrite (for_each_pure notify_peer_ids _
    (λ existing_peer_id,
       match Registry.peers st' !! existing_peer_id with
       | Some s => [EvSend (PeerSession.websocket s) (PPeerJoined peer_id)]
       | None => []
       end)); last first.
  { intros p. rewrite bind_run. cbn.
    by destruct (<[peer_id:=_]> (Registry.peers st) !! p). }
  cbn.
  assert (Hhost' : Room.host_id room' = Room.host_id room)
    by (subst room'; unfold admitted; by case (Room.is_full _)).
  assert (Htopo' : Room.topology room' = Room.topology room)
    by (subst room'; unfold admitted; by case (Room.is_full _)).
  assert (Hcap' : Room.capacity room' = Room.capacity room)
    by (subst room'; unfold admitted; by case (Room.is_full _)).
  assert (Hjoined : ∀ l : list Z, lock_free_sends false
            (concat ((λ existing_peer_id,
               match Registry.peers st' !! existing_peer_id with
               | Some s => [EvSend (PeerSession.websocket s) (PPeerJoined peer_id)]
               | None => []
               end) <$> l)) = true).
  { intros l. apply lock_free_sends_concat. intros p.
    by destruct (Registry.peers st' !! p). }
  assert (Hfinal : final ((if Room.is_full room'
                           then maybe_emit_match_ready room_id now
                           else mret ()) st') = st'
                   ∧ lock_free_sends false
                       (trace ((if Room.is_full room'
                                then maybe_emit_match_ready room_id now
                                else mret ()) st')) = true).
  { destruct (Room.is_full room'); [|done].
    split; [|apply maybe_emit_match_ready_lock_free].
    rewrite maybe_emit_match_ready_run.
    replace (Registry.rooms st' !! room_id) with (Some room')
      by (subst st' room'; cbn; by rewrite lookup_insert_eq).
    destruct (ready room'); [|done]. cbn.
    rewrite update_activity_same by apply admitted_last_activity.
    subst st'. unfold joined_registry, Registry.set_rooms. cbn.
    by rewrite insert_insert_eq. }
  destruct Hfinal as [Hfin Hlock].
  eexists. split; [|split].
  - rewrite Hfin. reflexivity.
  - rewrite app_nil_r.
    rewrite lock_free_sends_app by apply lobby_delta_trace_lock_free.
    cbn. rewrite lock_free_sends_app by apply Hjoined. done.
  - rewrite app_nil_r, sends_app. apply elem_of_app. right.
    cbn. rewrite Hhost', Htopo', Hcap'. apply list_elem_of_here.
Qed.

Lemma admitted_fields (peer_id now : Z) (room : Room.t) :
  Room.peer_ids (admitted peer_id now room) = {[peer_id]} ∪ Room.peer_ids room
  ∧ Room.capacity (admitted peer_id now room) = Room.capacity room
  ∧ Room.host_id (admitted peer_id now room) = Room.host_id room
  ∧ Room.topology (admitted peer_id now room) = Room.topology room
  ∧ Room.connected_ack (admitted peer_id now room) = Room.connected_ack room
  ∧ Room.tags (admitted peer_id now room) = Room.tags room
  ∧ Room.room_id (admitted peer_id now room) = Room.room_id room.
Proof. unfold admitted. by case (Room.is_full _). Qed.

Lemma admitted_sealed (peer_id now : Z) (room : Room.t) :
  Room.is_sealed room = false →
  Room.is_sealed (admitted peer_id now room)
  = Room.is_full (admitted peer_id now room).
Proof.
  intros Hs. unfold admitted.
  destruct (Room.is_full (Room.update_activity now _)) eqn:Hfull; [done|].
  by rewrite Hfull.
Qed.

(** A room as [handle_join] creates it is neither sealed nor full. *)
Lemma new_room_open (room_id : string) (peer_id : Z) (topology : Topology)
    (capacity : Z) (tags : list string) (now : Z) :
  let room := Room.mk room_id peer_id topology (Z.max 2 capacity) false ∅ ∅ tags now in
  Room.is_sealed room || Room.is_full room = false.
Proof.
  cbn. unfold Room.is_full. cbn. rewrite size_empty.
  apply andb_false_iff. right. apply Z.leb_gt. lia.
Qed.

(** C4. The outcome of a join request is the verdict of the validation order
    of the specification: empty room id, then for an existing room topology
    mismatch, sealed or full, host intent by someone who is not the host,
    and for a missing room no host intent. A rejected request gets exactly
    one error with the verdict's code and changes neither rooms nor peers.
    An admitted request returns the allocated peer id, registers its
    session, and leaves under the room id a room that contains the peer, has
    its activity set to [now] and is sealed exactly when it is full; a
    room created by the request has the requester as host and capacity
    [max 2 requested], hence 2 when less than 2 was requested. *)
Theorem handle_join_validation (ICE_SERVERS : list Json) (websocket : WebSocket)
    (message : Message) (now : Z) (st : Registry.t) :
  let r := handle_join ICE_SERVERS websocket message now st in
  let peer_id := Registry._next_peer_id st in
  let room_id := m_room_id message in
  match spec_join_verdict st message with
  | Reject code =>
      result r = None
      ∧ sends (trace r) = [(websocket, PError code)]
      ∧ Registry.rooms (final r) = Registry.rooms st
      ∧ Registry.peers (final r) = Registry.peers st
  | Admit =>
      result r = Some peer_id
      ∧ Registry.peers (final r)
        = <[peer_id := PeerSession.mk peer_id websocket room_id now]>
            (Registry.peers st)
      ∧ ∃ room',
          Registry.rooms (final r) = <[room_id := room']> (Registry.rooms st)
          ∧ peer_id ∈ Room.peer_ids room'
          ∧ Room.last_activity room' = now
          ∧ Room.is_sealed room' = Room.is_full room'
          ∧ match Registry.rooms st !! room_id with
            | Some room =>
                Room.peer_ids room' = {[peer_id]} ∪ Room.peer_ids room
                ∧ Room.capacity room' = Room.capacity room
                ∧ Room.host_id room' = Room.host_id room
                ∧ Room.topology room' = Room.topology room
            | None =>
                Room.peer_ids room' = {[peer_id]}
                ∧ Room.capacity room' = Z.max 2 (m_capacity message)
                ∧ (m_capacity message < 2 → Room.capacity room' = 2)
                ∧ Room.host_id room' = peer_id
                ∧ Room.topology room' = requested_topology message
            end
  end.
Proof.
  intros r peer_id room_id. subst r. unfold spec_join_verdict, handle_join.
  fold room_id. fold (requested_topology message).
  case_bool_decide as Hrid; [done|].
  rewrite !bind_run. cbn. fold peer_id.
  destruct (Registry.rooms st !! room_id) as [room|] eqn:Hroom.
  - (* the room exists *)
    case_bool_decide as Htopo.
    { rewrite (bool_decide_eq_false_2 _ Htopo). by split_and!. }
    rewrite (bool_decide_eq_true_2 _ Htopo). cbn.
    destruct (Room.is_sealed room || Room.is_full room) eqn:Hfree.
    { rewrite handle_join_admit_reject_unavailable by done. done. }
    destruct (m_is_host_intent message
              && bool_decide (Room.host_id room ≠ peer_id)) eqn:Hhost.
    { apply andb_true_iff in Hhost as [-> Hne%bool_decide_eq_true].
      rewrite handle_join_admit_reject_host by done. done. }
    edestruct (handle_join_admit_accept ICE_SERVERS websocket room_id
                 (m_is_host_intent message) peer_id room now)
      as (tr & Hrun & _ & _); [done| |].
    { destruct (m_is_host_intent message); [|done]. cbn in *.
      apply negb_false_iff, bool_decide_eq_true.
      apply bool_decide_eq_false in Hhost. by destruct (decide (Room.host_id room = peer_id)). }
    rewrite Hrun. cbn.
    split; [done|]. split; [done|].
    exists (admitted peer_id now room).
    destruct (admitted_fields peer_id now room) as (Hp & Hc & Hh & Ht & _).
    split_and!; try done.
    + rewrite Hp. set_solver.
    + apply admitted_last_activity.
    + apply admitted_sealed. by apply orb_false_iff in Hfree as [? _].
  - (* no such room *)
    destruct (m_is_host_intent message) eqn:Hintent; cbn; [|done].
    set (room := Room.mk room_id peer_id (requested_topology message)
                         (Z.max 2 (m_capacity message)) false ∅ ∅
                         (m_tags message) now).
    edestruct (handle_join_admit_accept ICE_SERVERS websocket room_id
                 true peer_id room now)
      as (tr & Hrun & _ & _).
    { apply new_room_open. }
    { cbn. by rewrite bool_decide_eq_true_2. }
    rewrite !bind_run. cbn. rewrite Hrun. cbn.
    split; [done|]. split; [done|].
    exists (admitted peer_id now room).
    destruct (admitted_fields peer_id now room) as (Hp & Hc & Hh & Ht & _).
    split_and!; try done.
    + by rewrite insert_insert_eq.
    + rewrite Hp. set_solver.
    + apply admitted_last_activity.
    + by apply admitted_sealed.
    + rewrite Hp. cbn. set_solver.
    + intros Hlt. rewrite Hc. cbn. lia.
Qed.

(** ** Stale room reaper *)

(** The inner loop of the reaper: drop the sessions of a room's members. *)
Lemma drop_sessions_run (ps : list Z) (st : Registry.t) :
  let r := for_each ps
             (λ peer_id, modify (λ st,
                Registry.set_peers (delete peer_id (Registry.peers st)) st)) st in
  result r = tt ∧ trace r = []
  ∧ Registry.rooms (final r) = Registry.rooms st
  ∧ Registry.lobby_subscriptions (final r) = Registry.lobby_subscriptions st
  ∧ (∀ p, Registry.peers (final r) !! p
          = if decide (p ∈ ps) then None else Registry.peers st !! p).
Proof.
  revert st. induction ps as [|q ps IH]; intros st; cbn.
  - split_and!; try done.
    all: intros p; by rewrite decide_False by set_solver.
  - rewrite bind_run. cbn.
    destruct (IH (Registry.set_peers (delete q (Registry.peers st)) st))
      as (Hres & Htr & Hrooms & Hsubs & Hpeers).
    cbn in *. rewrite Htr, Hrooms, Hsubs. split_and!; try done.
    intros p. rewrite Hpeers.
    destruct (decide (p ∈ ps)) as [Hin|Hnin].
    + by rewrite decide_True by set_solver.
    + destruct (decide (p = q)) as [->|Hne].
      * rewrite decide_True by set_solver. apply lookup_delete_eq.
      * rewrite decide_False by set_solver. by apply lookup_delete_ne.
Qed.

(** The outer loop of the reaper over distinct room ids. *)
Lemma prune_loop_run (ids : list string) (st : Registry.t) :
  NoDup ids →
  let r := for_each ids (λ room_id,
             room ← gets (λ st, Registry.rooms st !! room_id);
             modify (λ st, Registry.set_rooms (delete room_id (Registry.rooms st)) st) ;;
             match room with
             | None => mret tt
             | Some room =>
                 for_each (elements (Room.peer_ids room)) (λ peer_id,
                   modify (λ st, Registry.set_peers
                                   (delete peer_id (Registry.peers st)) st))
             end) st in
  trace r = []
  ∧ Registry.lobby_subscriptions (final r) = Registry.lobby_subscriptions st
  ∧ (∀ k, Registry.rooms (final r) !! k
          = if decide (k ∈ ids) then None else Registry.rooms st !! k)
  ∧ (∀ p, Registry.peers st !! p = None → Registry.peers (final r) !! p = None)
  ∧ (∀ k room p, k ∈ ids → Registry.rooms st !! k = Some room →
       p ∈ Room.peer_ids room → Registry.peers (final r) !! p = None).
Proof.
  intros Hnd. revert st. induction Hnd as [|k ids Hk Hnd IH]; intros st; cbn.
  - split_and!; try done. intros k room p Hin. set_solver.
  - rewrite !bind_run. cbn.
    set (st1 := Registry.set_rooms (delete k (Registry.rooms st)) st).
    set (body := match Registry.rooms st !! k with
                 | Some room => _ | None => _ end).
    assert (Hbody : trace (body st1) = []
              ∧ Registry.rooms (final (body st1)) = delete k (Registry.rooms st)
              ∧ Registry.lobby_subscriptions (final (body st1))
                = Registry.lobby_subscriptions st
              ∧ (∀ p, Registry.peers st !! p = None →
                      Registry.peers (final (body st1)) !! p = None)
              ∧ (∀ room p, Registry.rooms st !! k = Some room →
                   p ∈ Room.peer_ids room →
                   Registry.peers (final (body st1)) !! p = None)).
    { subst body. destruct (Registry.rooms st !! k) as [room|]; [|done].
      destruct (drop_sessions_run (elements (Room.peer_ids room)) st1)
        as (_ & Htr & Hrooms & Hsubs & Hpeers).
      cbn in Htr, Hrooms, Hsubs, Hpeers.
      split_and!; try done.
      - intros p Hp. rewrite Hpeers. by case_decide.
      - intros room' p [= <-] Hp. rewrite Hpeers.
        by rewrite decide_True by by apply elem_of_elements. }
    destruct Hbody as (Htr1 & Hrooms1 & Hsubs1 & Hkeep1 & Hdrop1).
    destruct (IH (final (body st1))) as (Htr & Hsubs & Hrooms & Hkeep & Hdrop).
    cbn in Htr, Hsubs, Hrooms, Hkeep, Hdrop.
    rewrite Htr1, Htr, Hsubs, Hsubs1. split_and!; try done.
    + intros k'. rewrite Hrooms, Hrooms1.
      destruct (decide (k' ∈ ids)) as [Hin|Hnin].
      * by rewrite decide_True by set_solver.
      * destruct (decide (k' = k)) as [->|Hne].
        -- rewrite decide_True by set_solver. apply lookup_delete_eq.
        -- rewrite decide_False by set_solver. by apply lookup_delete_ne.
    + intros p Hp. by apply Hkeep, Hkeep1.
    + intros k' room p Hin Hroom Hp.
      apply elem_of_cons in Hin as [->|Hin].
      * eapply Hkeep, Hdrop1; done.
      * eapply Hdrop; [done| |done].
        rewrite Hrooms1, lookup_delete_ne; [done|]. by intros ->.
Qed.

Lemma elem_of_stale_room_ids (now : Z) (st : Registry.t) (room_id : string) :
  room_id ∈ stale_room_ids now st
  ↔ ∃ room, Registry.rooms st !! room_id = Some room
            ∧ stale_after_seconds < now - Room.last_activity room.
Proof.
  unfold stale_room_ids. rewrite list_elem_of_fmap. split.
  - intros ([k room] & -> & Hin). apply list_elem_of_filter in Hin as [Hst Hin].
    apply elem_of_map_to_list in Hin. by exists room.
  - intros (room & Hroom & Hst). exists (room_id, room). split; [done|].
    apply list_elem_of_filter. split; [done|]. by apply elem_of_map_to_list.
Qed.

Lemma NoDup_stale_room_ids (now : Z) (st : Registry.t) :
  NoDup (stale_room_ids now st).
Proof.
  unfold stale_room_ids.
  eapply sublist_NoDup; [apply (NoDup_fst_map_to_list (Registry.rooms st))|].
  apply fmap_sublist, sublist_filter.
Qed.

Lemma prune_stale_rooms_run (now : Z) (st : Registry.t) :
  ∃ st',
    prune_stale_rooms now st
    = (tt, st',
       [EvAcquire; EvRelease]
       ++ concat (lobby_delta_trace st' <$> stale_room_ids now st))
    ∧ Registry.lobby_subscriptions st' = Registry.lobby_subscriptions st
    ∧ (∀ k, Registry.rooms st' !! k
            = if decide (k ∈ stale_room_ids now st) then None
              else Registry.rooms st !! k)
    ∧ (∀ p, Registry.peers st !! p = None → Registry.peers st' !! p = None)
    ∧ (∀ k room p, k ∈ stale_room_ids now st →
         Registry.rooms st !! k = Some room → p ∈ Room.peer_ids room →
         Registry.peers st' !! p = None).
Proof.
  unfold prune_stale_rooms.
  rewrite !bind_run. cbn. fold (stale_room_ids now st).
  destruct (prune_loop_run (stale_room_ids now st) st (NoDup_stale_room_ids now st))
    as (Htr & Hsubs & Hrooms & Hkeep & Hdrop).
  cbn in Htr, Hsubs, Hrooms, Hkeep, Hdrop.
  eexists. split; [|split_and!; [exact Hsubs|exact Hrooms|exact Hkeep|exact Hdrop]].
  rewrite Htr.
  erewrite for_each_pure by (intros room_id; apply notify_lobby_room_changed_run).
  reflexivity.
Qed.

(** C9. One wake of the reaper at time [now]: every room whose
    [last_activity] is more than 60 before [now] is gone from the registry,
    no member of such a room still has a session, and every subscriber is
    sent a [remove] delta for it; a room whose last activity is at most 60
    old is still there, unchanged. The subscriptions are untouched, the
    removal happens in one critical section that sends nothing, and all the
    sends come after it with the lock free; each of them is a [remove] delta
    for a pruned room. *)
Theorem prune_stale_rooms_reaps (now : Z) (st : Registry.t) :
  let r := prune_stale_rooms now st in
  (∀ room_id room,
     Registry.rooms st !! room_id = Some room →
     stale_after_seconds < now - Room.last_activity room →
     Registry.rooms (final r) !! room_id = None
     ∧ (∀ p, p ∈ Room.peer_ids room → Registry.peers (final r) !! p = None)
     ∧ (∀ sub, sub ∈ subscribers st →
          (LobbySubscription.websocket sub, PLobbyDeltaRemove room_id)
          ∈ sends (trace r)))
  ∧ (∀ room_id room,
       Registry.rooms st !! room_id = Some room →
       now - Room.last_activity room ≤ stale_after_seconds →
       Registry.rooms (final r) !! room_id = Some room)
  ∧ Registry.lobby_subscriptions (final r) = Registry.lobby_subscriptions st
  ∧ (∃ tr, trace r = EvAcquire :: EvRelease :: tr
           ∧ lock_free_sends false tr = true)
  ∧ (∀ ws payload, (ws, payload) ∈ sends (trace r) →
       ∃ room_id room,
         payload = PLobbyDeltaRemove room_id
         ∧ Registry.rooms st !! room_id = Some room
         ∧ stale_after_seconds < now - Room.last_activity room).
Proof.
  intros r. subst r.
  destruct (prune_stale_rooms_run now st)
    as (st' & -> & Hsubs & Hrooms & Hkeep & Hdrop).
  cbn [final trace fst snd].
  assert (Hsubscribers : subscribers st' = subscribers st)
    by (unfold subscribers; by rewrite Hsubs).
  assert (Hsends : ∀ ws payload,
            (ws, payload) ∈ sends (concat (lobby_delta_trace st' <$> stale_room_ids now st))
            ↔ ∃ room_id sub, room_id ∈ stale_room_ids now st ∧ sub ∈ subscribers st
                ∧ ws = LobbySubscription.websocket sub
                ∧ payload = PLobbyDeltaRemove room_id).
  { intros ws payload.
    assert (Hgone : ∀ k, k ∈ stale_room_ids now st → Registry.rooms st' !! k = None)
      by (intros k Hk; rewrite Hrooms; by rewrite decide_True).
    revert Hgone. generalize (stale_room_ids now st) as ids.
    induction ids as [|k ids IH]; intros Hgone.
    { cbn. set_solver. }
    rewrite fmap_cons. cbn [concat]. rewrite sends_app, elem_of_app.
    rewrite IH by (intros k' Hk'; apply Hgone; set_solver).
    rewrite sends_lobby_delta_trace, Hgone, Hsubscribers by set_solver.
    rewrite list_elem_of_fmap. cbn. split.
    - intros [(sub & [= -> ->] & Hsub)|(k' & sub & Hk' & Hsub & -> & ->)].
      + exists k, sub. set_solver.
      + exists k', sub. set_solver.
    - intros (k' & sub & Hk' & Hsub & -> & ->).
      apply elem_of_cons in Hk' as [->|Hk'].
      + left. by exists sub.
      + right. by exists k', sub. }
  split_and!.
  - intros room_id room Hroom Hstale.
    assert (Hin : room_id ∈ stale_room_ids now st)
      by (apply elem_of_stale_room_ids; eauto).
    split_and!.
    + rewrite Hrooms. by rewrite decide_True.
    + intros p Hp. by eapply Hdrop.
    + intros sub Hsub. cbn. apply Hsends. by exists room_id, sub.
  - intros room_id room Hroom Hfresh. rewrite Hrooms.
    rewrite decide_False; [done|].
    intros (room' & Hroom' & Hstale)%elem_of_stale_room_ids.
    rewrite Hroom in Hroom'. injection Hroom' as <-. lia.
  - done.
  - eexists. split; [reflexivity|].
    apply lock_free_sends_concat. intros k. apply lobby_delta_trace_lock_free.
  - intros ws payload Hin. cbn in Hin.
    apply Hsends in Hin as (room_id & sub & Hk & _ & _ & ->).
    apply elem_of_stale_room_ids in Hk as (room & Hroom & Hstale).
    by exists room_id, room.
Qed.

(** ** Disconnect *)

Lemma room_recipients_peer_ids (st : Registry.t) (room1 room2 : Room.t) :
  Room.peer_ids room1 = Room.peer_ids room2 →
  room_recipients st room1 = room_recipients st room2.
Proof. unfold room_recipients. by intros ->. Qed.

Lemma handle_disconnect_absent (peer_id now : Z) (st : Registry.t) :
  Registry.peers st !! peer_id = None →
  handle_disconnect peer_id now st = (tt, st, [EvAcquire; EvRelease]).
Proof.
  intros Hs. unfold handle_disconnect. rewrite !bind_run. cbn. rewrite Hs. cbn.
  rewrite delete_id by done. by destruct st.
Qed.

Lemma handle_disconnect_roomless (peer_id now : Z) (st : Registry.t)
    (session : PeerSession.t) :
  Registry.peers st !! peer_id = Some session →
  Registry.rooms st !! PeerSession.room_id session = None →
  handle_disconnect peer_id now st
  = (tt, Registry.set_peers (delete peer_id (Registry.peers st)) st,
     [EvAcquire; EvRelease]).
Proof.
  intros Hs Hr. unfold handle_disconnect. rewrite !bind_run. cbn. rewrite Hs.
  rewrite !bind_run. cbn. by rewrite Hr.
Qed.

Lemma handle_disconnect_run (peer_id now : Z) (st : Registry.t)
    (session : PeerSession.t) (room : Room.t) :
  Registry.peers st !! peer_id = Some session →
  Registry.rooms st !! PeerSession.room_id session = Some room →
  handle_disconnect peer_id now st
  = (tt, disconnected_registry peer_id now session room st,
     [EvAcquire; EvRelease]
     ++ (if bool_decide (peer_id = Room.host_id (departed peer_id now room))
         then (λ ws, EvSend ws PRoomClosed)
              <$> room_recipients (disconnected_registry peer_id now session room st)
                                  (departed peer_id now room)
         else match elements (Room.peer_ids (departed peer_id now room)) with
              | [] => []
              | _ :: _ =>
                  (λ ws, EvSend ws (PPeerLeft peer_id))
                  <$> room_recipients (disconnected_registry peer_id now session room st)
                                      (departed peer_id now room)
              end)
     ++ lobby_delta_trace (disconnected_registry peer_id now session room st)
                          (Room.room_id (departed peer_id now room))).
Proof.
  intros Hs Hr. unfold handle_disconnect.
  rewrite !bind_run. cbn. rewrite Hs. rewrite !bind_run. cbn. rewrite Hr.
  unfold disconnected_registry, closes, departed. cbn.
  destruct (bool_decide (peer_id = Room.host_id room)) eqn:Hhost;
    [|destruct (bool_decide (size (Room.peer_ids room ∖ {[peer_id]}) = 0%nat)) eqn:Hempty;
      destruct (elements (Room.peer_ids room ∖ {[peer_id]})) eqn:Hel];
    cbn;
    rewrite ?bind_run, ?broadcast_room_run, ?notify_lobby_room_changed_run;
    cbn; rewrite ?app_nil_r; reflexivity.
Qed.

(** ** What every reachable registry keeps *)

Lemma registry_bounds_rooms (st st' : Registry.t) :
  Registry.rooms st' = Registry.rooms st → registry_bounds st → registry_bounds st'.
Proof. unfold registry_bounds. by intros ->. Qed.

Lemma registry_bounds_shrink (st st' : Registry.t) :
  (∀ k, Registry.rooms st' !! k = None
        ∨ Registry.rooms st' !! k = Registry.rooms st !! k) →
  registry_bounds st → registry_bounds st'.
Proof.
  intros Hsh Hinv k r Hr. destruct (Hsh k) as [Hk|Hk]; [congruence|].
  apply Hinv. by rewrite <- Hk.
Qed.

Lemma admitted_bounds (peer_id now : Z) (room : Room.t) :
  2 ≤ Room.capacity room →
  Room.is_full room = false →
  Room.host_id room ∈ Room.peer_ids room ∨ Room.host_id room = peer_id →
  room_bounds (admitted peer_id now room).
Proof.
  intros Hcap Hfull Hhost.
  destruct (admitted_fields peer_id now room) as (Hp & Hc & Hh & _).
  unfold room_bounds. rewrite Hp, Hc, Hh. split_and!; [set_solver|done|].
  unfold Room.is_full in Hfull.
  apply andb_false_iff in Hfull as [Hfull|Hfull]; [apply Z.ltb_ge in Hfull; lia|].
  apply Z.leb_gt in Hfull.
  assert (size ({[peer_id]} ∪ Room.peer_ids room) ≤ 1 + size (Room.peer_ids room))%nat.
  { rewrite size_union_alt, size_singleton.
    apply Nat.add_le_mono_l, subseteq_size. set_solver. }
  lia.
Qed.

Lemma handle_join_rooms (ICE_SERVERS : list Json) (websocket : WebSocket)
    (message : Message) (now : Z) (st : Registry.t) :
  let r := handle_join ICE_SERVERS websocket message now st in
  let peer_id := Registry._next_peer_id st in
  let room_id := m_room_id message in
  Registry.rooms (final r) = Registry.rooms st
  ∨ ∃ room,
      (Registry.rooms st !! room_id = Some room
       ∨ room = Room.mk room_id peer_id (requested_topology message)
                        (Z.max 2 (m_capacity message)) false ∅ ∅
                        (m_tags message) now)
      ∧ Room.is_sealed room || Room.is_full room = false
      ∧ Registry.rooms (final r)
        = <[room_id := admitted peer_id now room]> (Registry.rooms st).
Proof.
  intros r peer_id room_id. subst r. unfold handle_join.
  fold room_id. fold (requested_topology message).
  case_bool_decide as Hrid; [by left|].
  rewrite !bind_run. cbn. fold peer_id.
  destruct (Registry.rooms st !! room_id) as [room|] eqn:Hroom.
  - destruct (negb (bool_decide (requested_topology message = Room.topology room)));
      [by left|].
    destruct (Room.is_sealed room || Room.is_full room) eqn:Hfree.
    { rewrite handle_join_admit_reject_unavailable by done. by left. }
    destruct (m_is_host_intent message
              && negb (bool_decide (Room.host_id room = peer_id))) eqn:Hhost.
    { apply andb_true_iff in Hhost as [-> Hne%negb_true_iff%bool_decide_eq_false].
      rewrite handle_join_admit_reject_host by done. by left. }
    edestruct (handle_join_admit_accept ICE_SERVERS websocket room_id
                 (m_is_host_intent message) peer_id room now)
      as (tr & Hrun & _ & _); [done|done|].
    rewrite Hrun. right. exists room. by split_and!; [left| |].
  - destruct (m_is_host_intent message) eqn:Hintent; cbn; [|by left].
    set (room := Room.mk room_id peer_id (requested_topology message)
                         (Z.max 2 (m_capacity message)) false ∅ ∅
                         (m_tags message) now).
    edestruct (handle_join_admit_accept ICE_SERVERS websocket room_id
                 true peer_id room now)
      as (tr & Hrun & _ & _).
    { apply new_room_open. }
    { cbn. by rewrite bool_decide_eq_true_2. }
    rewrite !bind_run. cbn. rewrite Hrun. cbn.
    right. exists room. split_and!; [by right|apply new_room_open|].
    by rewrite insert_insert_eq.
Qed.

Lemma handle_join_bounds (ICE_SERVERS : list Json) (websocket : WebSocket)
    (message : Message) (now : Z) (st : Registry.t) :
  registry_bounds st →
  registry_bounds (final (handle_join ICE_SERVERS websocket message now st)).
Proof.
  intros Hinv.
  destruct (handle_join_rooms ICE_SERVERS websocket message now st)
    as [Hsame|(room & Hroom & Hfree & Hrooms)];
    [by eapply registry_bounds_rooms|].
  apply orb_false_iff in Hfree as [_ Hfull].
  destruct (admitted_fields (Registry._next_peer_id st) now room)
    as (_ & _ & _ & _ & _ & _ & Hid).
  intros k r. rewrite Hrooms.
  intros [[<- <-]|[_ Hr]]%lookup_insert_Some; [|by apply Hinv].
  destruct Hroom as [Hroom| ->].
  - destruct (Hinv _ _ Hroom) as (Hrid & Hh & Hc & Hsz).
    split; [congruence|]. apply admitted_bounds; auto.
  - split; [by rewrite Hid|]. apply admitted_bounds; cbn; [lia|done|by right].
Qed.

Lemma handle_peer_connected_bounds (peer_id now : Z) (st : Registry.t) :
  registry_bounds st → registry_bounds (final (handle_peer_connected peer_id now st)).
Proof.
  intros Hinv.
  destruct (Registry.peers st !! peer_id) as [session|] eqn:Hs.
  - destruct (Registry.rooms st !! PeerSession.room_id session) as [room|] eqn:Hr.
    + rewrite (handle_peer_connected_run _ _ _ _ _ Hs Hr).
      intros k r Hk. cbn in Hk.
      apply lookup_insert_Some in Hk as [[<- <-]|[_ Hk]]; [|by apply Hinv].
      by apply Hinv in Hr.
    + unfold handle_peer_connected. rewrite !bind_run. cbn. rewrite Hs.
      rewrite !bind_run. cbn. by rewrite Hr.
  - unfold handle_peer_connected. rewrite !bind_run. cbn. by rewrite Hs.
Qed.

Lemma handle_signal_bounds (from_peer_id : Z) (message : Message) (now : Z)
    (st : Registry.t) :
  registry_bounds st →
  registry_bounds (final (handle_signal from_peer_id message now st)).
Proof.
  intros Hinv. unfold handle_signal.
  case_bool_decide as Hz.
  { rewrite bind_run. cbn. by destruct (Registry.peers st !! from_peer_id). }
  rewrite !bind_run. cbn.
  destruct (Registry.peers st !! from_peer_id) as [source|]; [|done].
  destruct (Registry.peers st !! m_target_id message) as [target|]; [|done].
  destruct (negb (bool_decide (PeerSession.room_id source = PeerSession.room_id target)));
    [done|].
  rewrite !bind_run. cbn.
  destruct (Registry.rooms st !! PeerSession.room_id source) as [room|] eqn:Hr;
    [|done].
  intros k r Hk. rewrite !bind_run in Hk. cbn in Hk.
  apply lookup_insert_Some in Hk as [[<- <-]|[_ Hk]]; [|by apply Hinv].
  by apply Hinv in Hr.
Qed.

Lemma handle_disconnect_bounds (peer_id now : Z) (st : Registry.t) :
  registry_bounds st → registry_bounds (final (handle_disconnect peer_id now st)).
Proof.
  intros Hinv.
  destruct (Registry.peers st !! peer_id) as [session|] eqn:Hs;
    [|by rewrite handle_disconnect_absent].
  destruct (Registry.rooms st !! PeerSession.room_id session) as [room|] eqn:Hr;
    [|by rewrite (handle_disconnect_roomless _ _ _ _ Hs Hr)].
  rewrite (handle_disconnect_run _ _ _ _ _ Hs Hr). cbn [final fst snd].
  destruct (Hinv _ _ Hr) as (Hid & Hh & Hc & Hsz).
  unfold disconnected_registry.
  destruct (closes peer_id (departed peer_id now room)) eqn:Hcl.
  - change (Room.room_id (departed peer_id now room)) with (Room.room_id room).
    rewrite Hid. intros k r Hk. cbn in Hk. rewrite delete_insert_eq in Hk.
    apply lookup_delete_Some in Hk as [_ Hk]. by apply Hinv.
  - intros k r Hk. cbn in Hk. rewrite insert_insert_eq in Hk.
    apply lookup_insert_Some in Hk as [[<- <-]|[_ Hk]]; [|by apply Hinv].
    split; [done|].
    apply orb_false_iff in Hcl as [Hhost%bool_decide_eq_false _].
    unfold room_bounds, departed in *. cbn in *. split_and!; [set_solver|done|].
    assert (size (Room.peer_ids room ∖ {[peer_id]}) ≤ size (Room.peer_ids room))%nat
      by (apply subseteq_size; set_solver).
    lia.
Qed.

Lemma prune_stale_rooms_bounds (now : Z) (st : Registry.t) :
  registry_bounds st → registry_bounds (final (prune_stale_rooms now st)).
Proof.
  destruct (prune_stale_rooms_run now st) as (st' & -> & _ & Hrooms & _).
  apply registry_bounds_shrink. intros k. rewrite Hrooms.
  case_decide; [by left|by right].
Qed.

Lemma websocket_endpoint_bounds (ICE_SERVERS : list Json) (connection_id : Z)
    (websocket : WebSocket) (peer_id : option Z) (message : Message) (now : Z)
    (st : Registry.t) :
  registry_bounds st →
  registry_bounds
    (final (websocket_endpoint ICE_SERVERS connection_id websocket peer_id
                               message now st)).
Proof.
  intros Hinv. unfold websocket_endpoint.
  repeat case_bool_decide; try destruct peer_id as [p|];
    repeat case_bool_decide; rewrite ?bind_run; cbn;
    auto using handle_join_bounds, handle_peer_connected_bounds,
               handle_signal_bounds.
Qed.

Lemma websocket_cleanup_bounds (connection_id : Z) (peer_id : option Z) (now : Z)
    (st : Registry.t) :
  registry_bounds st →
  registry_bounds (final (websocket_cleanup connection_id peer_id now st)).
Proof.
  intros Hinv. unfold websocket_cleanup. rewrite bind_run. cbn.
  destruct peer_id as [p|]; [|done].
  eapply registry_bounds_rooms; [|by apply (handle_disconnect_bounds p now)].
  done.
Qed.

Lemma server_step_bounds (ICE_SERVERS : list Json) (now : Z) (input : Input)
    (sv : Server) :
  registry_bounds (registry sv) →
  registry_bounds (registry (server_step ICE_SERVERS now input sv).1).
Proof.
  intros Hinv. destruct input as [ws|ws message|ws|]; cbn.
  - done.
  - destruct (connections sv !! ws) as [c|]; [|done].
    pose proof (websocket_endpoint_bounds ICE_SERVERS (conn_connection_id c) ws
                  (conn_peer_id c) message now _ Hinv) as H.
    by destruct (websocket_endpoint _ _ _ _ _ _ _) as [[? ?] ?].
  - destruct (connections sv !! ws) as [c|]; [|done].
    pose proof (websocket_cleanup_bounds (conn_connection_id c) (conn_peer_id c)
                  now _ Hinv) as H.
    by destruct (websocket_cleanup _ _ _ _) as [[? ?] ?].
  - pose proof (prune_stale_rooms_bounds now _ Hinv) as H.
    by destruct (prune_stale_rooms _ _) as [[? ?] ?].
Qed.

Lemma server_run_bounds (ICE_SERVERS : list Json) (inputs : list (Z * Input))
    (sv : Server) :
  registry_bounds (registry sv) →
  registry_bounds (registry (server_run ICE_SERVERS inputs sv).1).
Proof.
  revert sv. induction inputs as [|[now input] inputs IH]; intros sv Hinv; [done|].
  cbn. pose proof (server_step_bounds ICE_SERVERS now input sv Hinv) as Hstep.
  destruct (server_step ICE_SERVERS now input sv) as [sv1 tr1].
  specialize (IH sv1 Hstep).
  by destruct (server_run ICE_SERVERS inputs sv1) as [sv2 tr2].
Qed.

(** X21. In every registry the server can reach, each room holds its host, has
    capacity at least 2 and no more members than its capacity. *)
Lemma reachable_room_bounds (ICE_SERVERS : list Json) (reg : Registry.t) :
  reachable ICE_SERVERS reg →
  ∀ room_id room, Registry.rooms reg !! room_id = Some room → room_bounds room.
Proof.
  intros [inputs <-] room_id room Hroom.
  eapply (server_run_bounds ICE_SERVERS inputs server_init); [|done].
  intros k r Hk. cbn in Hk. by rewrite lookup_empty in Hk.
Qed.

(** ** Where the code departs from the specification *)

(** When the disconnecting peer is the host of its room, the room goes, the
    members left get [room_closed], and only the host's own session is
    removed: every other session, the remaining members' included, stays
    in the registry. *)
Lemma handle_disconnect_host (peer_id now : Z) (st : Registry.t)
    (session : PeerSession.t) (room : Room.t) :
  Registry.peers st !! peer_id = Some session →
  Registry.rooms st !! PeerSession.room_id session = Some room →
  Room.room_id room = PeerSession.room_id session →
  Room.host_id room = peer_id →
  let r := handle_disconnect peer_id now st in
  Registry.rooms (final r) = delete (PeerSession.room_id session) (Registry.rooms st)
  ∧ Registry.peers (final r) = delete peer_id (Registry.peers st)
  ∧ (∀ q s, q ∈ Room.peer_ids room → q ≠ peer_id →
       Registry.peers st !! q = Some s →
       Registry.peers (final r) !! q = Some s
       ∧ (PeerSession.websocket s, PRoomClosed) ∈ sends (trace r)).
Proof.
  intros Hs Hr Hid Hhost r. subst r.
  rewrite (handle_disconnect_run _ _ _ _ _ Hs Hr). cbn [final trace fst snd].
  unfold disconnected_registry, closes.
  change (Room.host_id (departed peer_id now room)) with (Room.host_id room).
  change (Room.room_id (departed peer_id now room)) with (Room.room_id room).
  rewrite Hhost, Hid, bool_decide_eq_true_2 by done. cbn.
  split_and!; [by rewrite delete_insert_eq|done|].
  intros q s Hq Hne Hqs. split; [by rewrite lookup_delete_ne|].
  rewrite !sends_app. apply elem_of_app. left.
  rewrite (sends_EvSend (λ ws, ws) (λ _, PRoomClosed)).
  apply list_elem_of_fmap. exists (PeerSession.websocket s). split; [done|].
  unfold room_recipients. apply list_elem_of_omap. exists q. split.
  - apply elem_of_elements. unfold departed. cbn. set_solver.
  - cbn. by rewrite lookup_delete_ne, Hqs.
Qed.

(** C3, the code at the failing input. Peer 1 hosts room r1 and peer 2 is a
    member; when the host's connection ends the room is removed and
    connection 11 gets [room_closed], but only the session of peer 1 is
    removed: the session of peer 2 is still in the registry, pointing at
    the room that no longer exists. *)
Theorem host_departure_keeps_member_session :
  (Room.host_id <$> Registry.rooms (registry_after two_peers_inputs) !! "r1") = Some 1
  ∧ (Room.peer_ids <$> Registry.rooms (registry_after two_peers_inputs) !! "r1")
    = Some {[1; 2]}
  ∧ Registry.rooms (final (handle_disconnect 1 103 (registry_after two_peers_inputs)))
      !! "r1" = None
  ∧ sends (trace (handle_disconnect 1 103 (registry_after two_peers_inputs)))
    = [(11%nat, PRoomClosed)]
  ∧ Registry.peers (final (handle_disconnect 1 103 (registry_after two_peers_inputs)))
      !! 1 = None
  ∧ Registry.peers (final (handle_disconnect 1 103 (registry_after two_peers_inputs)))
      !! 2 = Some (PeerSession.mk 2 11%nat "r1" 102).
Proof. split_and!; vm_compute; reflexivity. Qed.

(** C1, the code at the failing input. After the host of r1 left, the
    session of peer 2 outlives the room. When a new host creates r1 again,
    an acknowledgment from peer 2 lands in the new room's [connected_ack]
    although peer 2 is not a member; and when the new room is full, the
    disconnect of peer 2 unseals it although it stays full. Both
    registries are reached from the start and break the room invariants. *)
Theorem stale_session_breaks_room_invariant :
  Registry.rooms (registry_after stale_ack_inputs) !! "r1"
    = Some (Room.mk "r1" 3 Mesh 2 false {[3]} {[2]} [] 106)
  ∧ ¬ registry_invariant (registry_after stale_ack_inputs)
  ∧ Registry.rooms (registry_after stale_leave_inputs) !! "r1"
    = Some (Room.mk "r1" 3 Mesh 2 false {[3; 4]} ∅ [] 107)
  ∧ ¬ registry_invariant (registry_after stale_leave_inputs)
  ∧ reachable DEFAULT_ICE_SERVERS (registry_after stale_ack_inputs)
  ∧ reachable DEFAULT_ICE_SERVERS (registry_after stale_leave_inputs).
Proof.
  assert (H1 : Registry.rooms (registry_after stale_ack_inputs) !! "r1"
               = Some (Room.mk "r1" 3 Mesh 2 false {[3]} {[2]} [] 106))
    by (vm_compute; reflexivity).
  assert (H2 : Registry.rooms (registry_after stale_leave_inputs) !! "r1"
               = Some (Room.mk "r1" 3 Mesh 2 false {[3; 4]} ∅ [] 107))
    by (vm_compute; reflexivity).
  split; [exact H1|]. split; [|split; [exact H2|split; [|split]]].
  - intros Hinv. destruct (Hinv _ _ H1) as (Hsub & _). clear H1 H2 Hinv.
    cbn in Hsub. specialize (Hsub 2). rewrite !elem_of_singleton in Hsub.
    specialize (Hsub eq_refl). discriminate Hsub.
  - intros Hinv. destruct (Hinv _ _ H2) as (_ & _ & _ & Hseal).
    assert (Habs : false = true); [|discriminate Habs].
    apply Hseal. vm_compute. reflexivity.
  - exists stale_ack_inputs. reflexivity.
  - exists stale_leave_inputs. reflexivity.
Qed.

(** The lock discipline of a join, for every request: the trace keeps every
    send outside the critical section exactly when the request is admitted
    or rejected for its empty room id; the four rejections decided inside
    the critical section send their error while the lock is held. *)
Lemma handle_join_lock_discipline (ICE_SERVERS : list Json) (websocket : WebSocket)
    (message : Message) (now : Z) (st : Registry.t) :
  lock_free_sends false (trace (handle_join ICE_SERVERS websocket message now st))
  = match spec_join_verdict st message with
    | Reject code => bool_decide (code = "room_id_required")
    | Admit => true
    end.
Proof.
  unfold spec_join_verdict, handle_join.
  fold (requested_topology message).
  case_bool_decide as Hrid; [done|].
  rewrite !bind_run. cbn.
  destruct (Registry.rooms st !! m_room_id message) as [room|] eqn:Hroom.
  - destruct (decide (requested_topology message = Room.topology room))
      as [Htopo|Htopo].
    2: { rewrite (bool_decide_eq_false_2 _ Htopo).
         by rewrite (bool_decide_eq_true_2 (_ ≠ _) Htopo). }
    rewrite (bool_decide_eq_true_2 _ Htopo).
    rewrite (bool_decide_eq_false_2 (_ ≠ _)) by (intros Hne; by apply Hne).
    cbn.
    destruct (Room.is_sealed room || Room.is_full room) eqn:Hfree.
    { by rewrite handle_join_admit_reject_unavailable by done. }
    destruct (m_is_host_intent message
              && bool_decide (Room.host_id room ≠ Registry._next_peer_id st)) eqn:Hhost.
    { apply andb_true_iff in Hhost as [-> Hne%bool_decide_eq_true].
      by rewrite handle_join_admit_reject_host by done. }
    edestruct (handle_join_admit_accept ICE_SERVERS websocket (m_room_id message)
                 (m_is_host_intent message) (Registry._next_peer_id st) room now)
      as (tr & Hrun & Hlock & _); [done| |].
    { destruct (m_is_host_intent message); [|done]. cbn in *.
      apply negb_false_iff, bool_decide_eq_true.
      apply bool_decide_eq_false in Hhost.
      by destruct (decide (Room.host_id room = Registry._next_peer_id st)). }
    by rewrite Hrun.
  - destruct (m_is_host_intent message) eqn:Hintent; cbn; [|done].
    edestruct (handle_join_admit_accept ICE_SERVERS websocket (m_room_id message)
                 true (Registry._next_peer_id st)
                 (Room.mk (m_room_id message) (Registry._next_peer_id st)
                          (requested_topology message)
                          (Z.max 2 (m_capacity message)) false ∅ ∅
                          (m_tags message) now) now)
      as (tr & Hrun & Hlock & _).
    { apply new_room_open. }
    { cbn. by rewrite bool_decide_eq_true_2. }
    rewrite !bind_run. cbn. by rewrite Hrun.
Qed.

(** C8, the code at the failing input. A join without host intent for a
    room that does not exist, and a signal to a peer of another room: the
    error reply is sent between the acquisition and the release of the
    registry lock. *)
Theorem validation_error_sent_under_lock :
  trace (handle_join DEFAULT_ICE_SERVERS 10%nat (join_message "r1" false 2) 100
           Registry.init)
    = [EvAcquire; EvSend 10%nat (PError "room_not_found"); EvRelease]
  ∧ lock_free_sends false
      (trace (handle_join DEFAULT_ICE_SERVERS 10%nat (join_message "r1" false 2) 100
                Registry.init)) = false
  ∧ trace (handle_signal 1 (signal_message 3 None None) 200
             (registry_after two_rooms_inputs))
    = [EvAcquire; EvSend 10%nat (PError "cross_room_signal_blocked"); EvRelease]
  ∧ lock_free_sends false
      (trace (handle_signal 1 (signal_message 3 None None) 200
                (registry_after two_rooms_inputs))) = false.
Proof. split_and!; vm_compute; reflexivity. Qed.

(** ** The claims at concrete inputs *)

(** C5, at a concrete input. Peers 1 and 2 are in room r1 and peer 3 in
    room r2: a signal from 1 to 3 is blocked, a signal from 1 to 2 is
    relayed to connection 11 only. *)
Lemma handle_signal_relay_witness :
  (sends (trace (handle_signal 1 (signal_message 3 (Some (JStr "offer")) None) 200
                   (registry_after two_rooms_inputs)))
     = [(10%nat, PError "cross_room_signal_blocked")]
   ∧ final (handle_signal 1 (signal_message 3 (Some (JStr "offer")) None) 200
              (registry_after two_rooms_inputs))
     = registry_after two_rooms_inputs)
  ∧ sends (trace (handle_signal 1 (signal_message 2 (Some (JStr "offer")) None) 200
                    (registry_after two_rooms_inputs)))
    = [(11%nat, PSignal 1 (Some (JStr "offer")) None)].
Proof.
  split.
  - refine (proj1 (handle_signal_relay 1
              (signal_message 3 (Some (JStr "offer")) None) 200
              (registry_after two_rooms_inputs)
              (PeerSession.mk 1 10%nat "r1" 101) (PeerSession.mk 3 12%nat "r2" 104)
              _ _ _) _).
    + discriminate.
    + vm_compute. reflexivity.
    + vm_compute. reflexivity.
    + discriminate.
  - refine (proj1 (proj2 (handle_signal_relay 1
              (signal_message 2 (Some (JStr "offer")) None) 200
              (registry_after two_rooms_inputs)
              (PeerSession.mk 1 10%nat "r1" 101) (PeerSession.mk 2 11%nat "r1" 102)
              _ _ _)
              (Room.mk "r1" 1 Mesh 2 true {[1; 2]} ∅ [] 102) _ _)).
    + discriminate.
    + vm_compute. reflexivity.
    + vm_compute. reflexivity.
    + reflexivity.
    + vm_compute. reflexivity.
Defined.

(** C10, at a concrete input. Peer 2 signals peer 1 after the host's
    session is gone: nothing is sent and the registry is unchanged. *)
Lemma handle_signal_silent_drop_witness :
  sends (trace (handle_signal 2 (signal_message 1 (Some (JStr "offer")) None) 200
                  (registry_after host_left_inputs))) = []
  ∧ final (handle_signal 2 (signal_message 1 (Some (JStr "offer")) None) 200
             (registry_after host_left_inputs))
    = registry_after host_left_inputs.
Proof.
  apply handle_signal_silent_drop.
  - discriminate.
  - right. vm_compute. reflexivity.
Defined.

(** C7, at a concrete input: [signal] before a join, and [ping] after one. *)
Lemma websocket_endpoint_gate_witness :
  websocket_endpoint DEFAULT_ICE_SERVERS 1 10%nat None
                     (signal_message 2 None None) 100 Registry.init
    = (None, Registry.init, [EvSend 10%nat (PError "join_required")])
  ∧ websocket_endpoint DEFAULT_ICE_SERVERS 1 10%nat (Some 1)
                       (bare_message "ping") 100 (registry_after two_peers_inputs)
    = (Some 1, registry_after two_peers_inputs,
       [EvSend 10%nat (PError "unknown_message_type:ping")]).
Proof.
  split.
  - refine (proj1 (websocket_endpoint_gate DEFAULT_ICE_SERVERS 1 10%nat
                     (signal_message 2 None None) 100 Registry.init _)).
    unfold connection_scoped_types. cbn. set_solver.
  - refine (proj2 (websocket_endpoint_gate DEFAULT_ICE_SERVERS 1 10%nat
                     (bare_message "ping") 100 (registry_after two_peers_inputs) _)
                  1 _ _).
    + unfold connection_scoped_types. cbn. set_solver.
    + discriminate.
    + discriminate.
Defined.

(** C2, at a concrete input. Room r1 is full with peers 1 and 2 and peer 1
    has acknowledged: the acknowledgment of peer 2 completes the cycle and
    [match_ready] goes to both connections. *)
Lemma handle_peer_connected_match_ready_witness :
  sends (trace (handle_peer_connected 2 104
                  (registry_after (two_peers_inputs
                     ++ [(103, Receive 10%nat (bare_message "peer_connected"))]))))
  = [(11%nat, PMatchReady); (10%nat, PMatchReady)].
Proof.
  refine (proj1 (proj2 (proj2 (proj2
    (handle_peer_connected_match_ready 2 104
       (registry_after (two_peers_inputs
          ++ [(103, Receive 10%nat (bare_message "peer_connected"))]))
       (PeerSession.mk 2 11%nat "r1" 102)
       (Room.mk "r1" 1 Mesh 2 true {[1; 2]} {[1]} [] 103) _ _)))) _ _).
  - vm_compute. reflexivity.
  - vm_compute. reflexivity.
  - vm_compute. reflexivity.
  - cbn. set_solver.
Defined.

(** C2, counterexample. Both peers of the full room r1 have acknowledged
    and [match_ready] has been broadcast (once to each connection). Peer 1,
    already in [connected_ack], acknowledges again: [match_ready] is
    broadcast to both connections again. *)
Lemma redundant_ack_refires_match_ready :
  (Room.connected_ack <$> Registry.rooms (registry_after both_acked_inputs) !! "r1")
    = Some {[1; 2]}
  ∧ match_ready_sends (run_from_start both_acked_inputs).2 = [11%nat; 10%nat]
  ∧ sends (server_step DEFAULT_ICE_SERVERS 105
             (Receive 10%nat (bare_message "peer_connected"))
             (run_from_start both_acked_inputs).1).2
    = [(11%nat, PMatchReady); (10%nat, PMatchReady)].
Proof. split_and!; vm_compute; reflexivity. Qed.

(** C9, at a concrete input. Room r1 was last active at 102 and connection
    12 subscribes to the lobby; a wake at 200 removes the room and the
    sessions of peers 1 and 2 and sends the subscriber a remove delta. *)
Lemma prune_stale_rooms_reaps_witness :
  Registry.rooms (final (prune_stale_rooms 200 (registry_after subscribed_inputs)))
    !! "r1" = None
  ∧ (∀ p, p ∈ ({[1; 2]} : gset Z) →
       Registry.peers (final (prune_stale_rooms 200 (registry_after subscribed_inputs)))
         !! p = None)
  ∧ (∀ sub, sub ∈ subscribers (registry_after subscribed_inputs) →
       (LobbySubscription.websocket sub, PLobbyDeltaRemove "r1")
       ∈ sends (trace (prune_stale_rooms 200 (registry_after subscribed_inputs)))).
Proof.
  refine (proj1 (prune_stale_rooms_reaps 200 (registry_after subscribed_inputs))
            "r1" (Room.mk "r1" 1 Mesh 2 true {[1; 2]} ∅ [] 102) _ _).
  - vm_compute. reflexivity.
  - vm_compute. reflexivity.
Defined.

(** * Further properties of the code *)

(** ** Configuration and frame decoding *)

(** X1. [_load_ice_servers] never returns an empty list, and every entry it
    returns is a dict, whatever the environment variable holds and whatever
    the JSON parser makes of it. *)
Theorem _load_ice_servers_nonempty_dicts (json_loads : string → option Json)
    (raw_value : option string) :
  _load_ice_servers json_loads raw_value ≠ []
  ∧ Forall (λ entry, is_dict entry = true) (_load_ice_servers json_loads raw_value).
Proof.
  assert (Hdefault : DEFAULT_ICE_SERVERS ≠ []
                     ∧ Forall (λ entry, is_dict entry = true) DEFAULT_ICE_SERVERS).
  { split; [done|]. by repeat constructor. }
  unfold _load_ice_servers.
  destruct raw_value as [raw|]; [|done].
  case_bool_decide; [done|].
  destruct (json_loads raw) as [[| | | |loaded|]|]; try done.
  destruct (filter (λ entry, is_dict entry = true) loaded) as [|e l] eqn:Hf; [done|].
  split; [done|]. rewrite <- Hf. apply Forall_forall.
  by intros entry [Hd _]%list_elem_of_filter.
Qed.

(** X2. When the variable holds a JSON list with at least one dict,
    [_load_ice_servers] returns the dicts of that list, in order, and drops
    the other entries; when the variable is unset or empty, is not valid
    JSON, is not a list, or is a list without a dict, it returns the
    built-in default list. *)
Theorem _load_ice_servers_cases (json_loads : string → option Json) :
  (∀ raw loaded entry,
     raw ≠ "" → json_loads raw = Some (JArr loaded) →
     entry ∈ loaded → is_dict entry = true →
     _load_ice_servers json_loads (Some raw)
     = filter (λ entry, is_dict entry = true) loaded)
  ∧ _load_ice_servers json_loads None = DEFAULT_ICE_SERVERS
  ∧ _load_ice_servers json_loads (Some "") = DEFAULT_ICE_SERVERS
  ∧ (∀ raw, json_loads raw = None →
       _load_ice_servers json_loads (Some raw) = DEFAULT_ICE_SERVERS)
  ∧ (∀ raw value, json_loads raw = Some value → (∀ loaded, value ≠ JArr loaded) →
       _load_ice_servers json_loads (Some raw) = DEFAULT_ICE_SERVERS)
  ∧ (∀ raw loaded, json_loads raw = Some (JArr loaded) →
       (∀ entry, entry ∈ loaded → is_dict entry = false) →
       _load_ice_servers json_loads (Some raw) = DEFAULT_ICE_SERVERS).
Proof.
  unfold _load_ice_servers. split_and!.
  - intros raw loaded entry Hne Hload Hin Hd.
    rewrite bool_decide_eq_false_2, Hload by done.
    destruct (filter (λ entry, is_dict entry = true) loaded) as [|e l] eqn:Hf; [|done].
    exfalso. eapply (filter_nil_not_elem_of _ loaded entry); done.
  - done.
  - done.
  - intros raw Hload. case_bool_decide; [done|]. by rewrite Hload.
  - intros raw value Hload Hnot. case_bool_decide; [done|]. rewrite Hload.
    destruct value; try done. by destruct (Hnot items).
  - intros raw loaded Hload Hnone. case_bool_decide; [done|]. rewrite Hload.
    destruct (filter (λ entry, is_dict entry = true) loaded) as [|e l] eqn:Hf; [done|].
    assert (Hin : e ∈ filter (λ entry, is_dict entry = true) loaded)
      by (rewrite Hf; apply list_elem_of_here).
    apply list_elem_of_filter in Hin as [Hd Hin].
    rewrite (Hnone e Hin) in Hd. discriminate Hd.
Qed.

(** [_load_ice_servers_cases] at concrete inputs: a list with a dict and a
    number keeps the dict; a list with only a number, and text that does
    not parse, give the default. *)
Lemma _load_ice_servers_cases_witness :
  _load_ice_servers sample_json_loads (Some "[{},1]") = [JObj []]
  ∧ _load_ice_servers sample_json_loads (Some "[1]") = DEFAULT_ICE_SERVERS
  ∧ _load_ice_servers sample_json_loads (Some "oops") = DEFAULT_ICE_SERVERS.
Proof.
  split; [|split].
  - refine (proj1 (_load_ice_servers_cases sample_json_loads)
              "[{},1]" [JObj []; JNum 1] (JObj []) _ _ _ _).
    + discriminate.
    + reflexivity.
    + apply list_elem_of_here.
    + reflexivity.
  - refine (proj2 (proj2 (proj2 (proj2 (proj2
              (_load_ice_servers_cases sample_json_loads)))))
              "[1]" [JNum 1] _ _).
    + reflexivity.
    + intros entry Hin. apply list_elem_of_singleton in Hin. by rewrite Hin.
  - refine (proj1 (proj2 (proj2 (proj2
              (_load_ice_servers_cases sample_json_loads)))) "oops" _).
    reflexivity.
Defined.


(** X4. A frame that carries text is decoded from its text alone: whatever
    bytes it also carries are ignored (and never decoded). *)
Theorem receive_client_message_text_first (json_loads : string → option Json)
    (utf8_decode1 utf8_decode2 : list Byte.byte → option string)
    (websocket : WebSocket) (type : string) (code : Z) (text : string)
    (bytes1 bytes2 : option (list Byte.byte)) (st : Registry.t) :
  receive_client_message json_loads utf8_decode1 websocket
    (mkFrame type code (Some text) bytes1) st
  = receive_client_message json_loads utf8_decode2 websocket
      (mkFrame type code (Some text) bytes2) st.
Proof.
  unfold receive_client_message. cbn.
  case_bool_decide; [done|]. by destruct bytes1, bytes2.
Qed.

(** ** Filter tags *)



(** ** Edge cases of the handlers *)

(** X6. A [peer_connected] for a peer id without a session, or whose session
    names a room that is not in the registry, changes nothing and sends
    nothing. *)
Theorem handle_peer_connected_unknown (peer_id now : Z) (st : Registry.t) :
  (Registry.peers st !! peer_id = None
   ∨ ∃ session, Registry.peers st !! peer_id = Some session
                ∧ Registry.rooms st !! PeerSession.room_id session = None) →
  handle_peer_connected peer_id now st = (tt, st, [EvAcquire; EvRelease]).
Proof.
  intros [Hs|(session & Hs & Hr)]; unfold handle_peer_connected;
    rewrite !bind_run; cbn; rewrite Hs; [done|].
  rewrite !bind_run. cbn. by rewrite Hr.
Qed.

(** [handle_peer_connected_unknown] for a peer id that was never allocated,
    and for peer 2 after the host closed room r1. *)
Lemma handle_peer_connected_unknown_witness :
  handle_peer_connected 7 200 Registry.init
    = (tt, Registry.init, [EvAcquire; EvRelease])
  ∧ handle_peer_connected 2 200 (registry_after host_left_inputs)
    = (tt, registry_after host_left_inputs, [EvAcquire; EvRelease]).
Proof.
  split.
  - apply handle_peer_connected_unknown. left. reflexivity.
  - apply handle_peer_connected_unknown. right.
    exists (PeerSession.mk 2 11%nat "r1" 102).
    split; vm_compute; reflexivity.
Defined.

(** X7. A signal whose target id is 0 (or missing) is answered with the error
    [target_id_required] to the sender, if the sender has a session, and
    with nothing otherwise; the lock is not taken and the registry is not
    touched. *)
Theorem handle_signal_target_required (from_peer_id : Z) (message : Message)
    (now : Z) (st : Registry.t) :
  m_target_id message = 0 →
  handle_signal from_peer_id message now st
  = (tt, st,
     match Registry.peers st !! from_peer_id with
     | Some source => [EvSend (PeerSession.websocket source)
                              (PError "target_id_required")]
     | None => []
     end).
Proof.
  intros Hz. unfold handle_signal. rewrite bool_decide_eq_true_2 by done.
  rewrite bind_run. cbn. by destruct (Registry.peers st !! from_peer_id).
Qed.

(** [handle_signal_target_required] for peer 1 of room r1. *)
Lemma handle_signal_target_required_witness :
  handle_signal 1 (signal_message 0 (Some (JStr "offer")) None) 200
                (registry_after two_peers_inputs)
  = (tt, registry_after two_peers_inputs,
     [EvSend 10%nat (PError "target_id_required")]).
Proof.
  refine (eq_trans (handle_signal_target_required 1
            (signal_message 0 (Some (JStr "offer")) None) 200
            (registry_after two_peers_inputs) _) _).
  - reflexivity.
  - vm_compute. reflexivity.
Defined.

(** X8. A disconnect for a peer id without a session changes nothing; one for
    a session whose room is not in the registry removes that session and
    nothing else. In both cases nothing is sent. *)
Theorem handle_disconnect_unknown (peer_id now : Z) (st : Registry.t) :
  (Registry.peers st !! peer_id = None →
   handle_disconnect peer_id now st = (tt, st, [EvAcquire; EvRelease]))
  ∧ (∀ session,
       Registry.peers st !! peer_id = Some session →
       Registry.rooms st !! PeerSession.room_id session = None →
       handle_disconnect peer_id now st
       = (tt, Registry.set_peers (delete peer_id (Registry.peers st)) st,
          [EvAcquire; EvRelease])).
Proof.
  split.
  - apply handle_disconnect_absent.
  - intros session. apply handle_disconnect_roomless.
Qed.

(** [handle_disconnect_unknown] for peer 2 after the host closed room r1:
    the leftover session is removed and nothing is sent. *)
Lemma handle_disconnect_unknown_witness :
  handle_disconnect 2 200 (registry_after host_left_inputs)
  = (tt, Registry.set_peers ∅ (registry_after host_left_inputs),
     [EvAcquire; EvRelease]).
Proof.
  refine (eq_trans (proj2 (handle_disconnect_unknown 2 200
            (registry_after host_left_inputs))
            (PeerSession.mk 2 11%nat "r1" 102) _ _) _).
  - vm_compute. reflexivity.
  - vm_compute. reflexivity.
  - vm_compute. reflexivity.
Defined.

(** ** What the relay and the acknowledgment leave alone *)

(** X9. Whatever the input, [handle_signal] leaves the sessions, the
    subscriptions and both allocators as they were, adds and removes no
    room, changes no field of a room other than [last_activity], and sends
    at most one message. *)
Theorem handle_signal_frame (from_peer_id : Z) (message : Message) (now : Z)
    (st : Registry.t) :
  let r := handle_signal from_peer_id message now st in
  Registry.peers (final r) = Registry.peers st
  ∧ Registry.lobby_subscriptions (final r) = Registry.lobby_subscriptions st
  ∧ Registry._next_peer_id (final r) = Registry._next_peer_id st
  ∧ Registry._next_connection_id (final r) = Registry._next_connection_id st
  ∧ (∀ room_id, option_Forall2 same_but_activity
                  (Registry.rooms st !! room_id)
                  (Registry.rooms (final r) !! room_id))
  ∧ (length (sends (trace r)) ≤ 1)%nat.
Proof.
  assert (Hrefl : ∀ (m : gmap string Room.t) room_id,
            option_Forall2 same_but_activity (m !! room_id) (m !! room_id)).
  { intros m room_id. destruct (m !! room_id); by constructor. }
  intros r. subst r. unfold handle_signal.
  case_bool_decide as Hz.
  { rewrite bind_run. cbn.
    destruct (Registry.peers st !! from_peer_id); cbn; split_and!; auto. }
  rewrite !bind_run. cbn.
  destruct (Registry.peers st !! from_peer_id) as [source|];
    [|cbn; split_and!; auto].
  destruct (Registry.peers st !! m_target_id message) as [target|];
    [|cbn; split_and!; auto].
  destruct (negb (bool_decide (PeerSession.room_id source = PeerSession.room_id target)));
    [cbn; split_and!; auto|].
  rewrite !bind_run. cbn.
  destruct (Registry.rooms st !! PeerSession.room_id source) as [room|] eqn:Hr;
    [|cbn; split_and!; auto].
  rewrite !bind_run. cbn. split_and!; auto.
  intros room_id. destruct (decide (room_id = PeerSession.room_id source)) as [->|Hne].
  - rewrite lookup_insert_eq, Hr. by constructor.
  - rewrite lookup_insert_ne by done. apply Hrefl.
Qed.

(** X10. Whatever the input, [handle_peer_connected] leaves the sessions, the
    subscriptions and both allocators as they were, adds and removes no
    room, changes no field of a room other than [connected_ack] and
    [last_activity], and adds nothing but the acknowledging peer to a
    room's [connected_ack]. *)
Theorem handle_peer_connected_frame (peer_id now : Z) (st : Registry.t) :
  let r := handle_peer_connected peer_id now st in
  Registry.peers (final r) = Registry.peers st
  ∧ Registry.lobby_subscriptions (final r) = Registry.lobby_subscriptions st
  ∧ Registry._next_peer_id (final r) = Registry._next_peer_id st
  ∧ Registry._next_connection_id (final r) = Registry._next_connection_id st
  ∧ (∀ room_id,
       option_Forall2
         (λ before after,
            same_membership before after
            ∧ Room.connected_ack before ⊆ Room.connected_ack after
            ∧ Room.connected_ack after ⊆ {[peer_id]} ∪ Room.connected_ack before)
         (Registry.rooms st !! room_id)
         (Registry.rooms (final r) !! room_id)).
Proof.
  assert (Hrefl : ∀ (m : gmap string Room.t) room_id,
            option_Forall2
              (λ before after,
                 same_membership before after
                 ∧ Room.connected_ack before ⊆ Room.connected_ack after
                 ∧ Room.connected_ack after ⊆ {[peer_id]} ∪ Room.connected_ack before)
              (m !! room_id) (m !! room_id)).
  { intros m room_id. destruct (m !! room_id); constructor.
    split; [done|]. set_solver. }
  intros r. subst r.
  destruct (Registry.peers st !! peer_id) as [session|] eqn:Hs.
  - destruct (Registry.rooms st !! PeerSession.room_id session) as [room|] eqn:Hr.
    + rewrite (handle_peer_connected_run _ _ _ _ _ Hs Hr). cbn.
      split_and!; auto. intros room_id.
      destruct (decide (room_id = PeerSession.room_id session)) as [->|Hne].
      * rewrite lookup_insert_eq, Hr. constructor.
        unfold acknowledged, same_membership. cbn. split; [done|]. set_solver.
      * rewrite lookup_insert_ne by done. apply Hrefl.
    + unfold handle_peer_connected. rewrite !bind_run. cbn. rewrite Hs.
      rewrite !bind_run. cbn. rewrite Hr. cbn. split_and!; auto.
  - unfold handle_peer_connected. rewrite !bind_run. cbn. rewrite Hs. cbn.
    split_and!; auto.
Qed.

(** ** Lobby subscriptions *)

(** X11. Subscribing registers the connection's filter under its connection id
    and replaces any earlier subscription of that connection; the other
    subscriptions, the rooms and the sessions stay as they were, and the
    only send is one snapshot to the subscriber, whose entries are exactly
    the summaries of the rooms of the registry visible under the filter. *)
Theorem handle_subscribe_lobbies_registers (connection_id : Z)
    (websocket : WebSocket) (message : Message) (st : Registry.t) :
  let r := handle_subscribe_lobbies connection_id websocket message st in
  Registry.lobby_subscriptions (final r) !! connection_id
    = Some (LobbySubscription.mk connection_id websocket (m_filter_tags message))
  ∧ (∀ other, other ≠ connection_id →
       Registry.lobby_subscriptions (final r) !! other
       = Registry.lobby_subscriptions st !! other)
  ∧ Registry.rooms (final r) = Registry.rooms st
  ∧ Registry.peers (final r) = Registry.peers st
  ∧ (∃ lobbies,
       sends (trace r) = [(websocket, PLobbySnapshot lobbies)]
       ∧ ∀ lobby, lobby ∈ lobbies
           ↔ ∃ room_id room,
               Registry.rooms st !! room_id = Some room
               ∧ spec_visible room (m_filter_tags message)
               ∧ lobby = room_to_lobby room).
Proof.
  intros r. subst r. rewrite handle_subscribe_lobbies_run. cbn.
  split_and!; try done.
  - apply lookup_insert_eq.
  - intros other Hne. by apply lookup_insert_ne.
  - eexists. split; [reflexivity|]. intros lobby.
    unfold _build_lobby_snapshot. rewrite list_elem_of_fmap. split.
    + intros (room & -> & Hin). apply list_elem_of_filter in Hin as [Hv Hin].
      apply list_elem_of_fmap in Hin as ([room_id room'] & -> & Hin).
      apply elem_of_map_to_list in Hin. exists room_id, room'.
      by rewrite <- _is_room_visible_to_filter_spec.
    + intros (room_id & room & Hroom & Hv & ->). exists room. split; [done|].
      apply list_elem_of_filter. split.
      * by apply _is_room_visible_to_filter_spec.
      * apply list_elem_of_fmap. exists (room_id, room). split; [done|].
        by apply elem_of_map_to_list.
Qed.

(** X12. Unsubscribing sends nothing and removes the connection's subscription
    and nothing else; for a connection that had no subscription, subscribing
    and then unsubscribing gives back the registry it started from. *)
Theorem handle_unsubscribe_lobbies_round_trip (connection_id : Z)
    (websocket : WebSocket) (message : Message) (st : Registry.t) :
  sends (trace (handle_unsubscribe_lobbies connection_id st)) = []
  ∧ Registry.lobby_subscriptions (final (handle_unsubscribe_lobbies connection_id st))
    = delete connection_id (Registry.lobby_subscriptions st)
  ∧ Registry.rooms (final (handle_unsubscribe_lobbies connection_id st))
    = Registry.rooms st
  ∧ Registry.peers (final (handle_unsubscribe_lobbies connection_id st))
    = Registry.peers st
  ∧ (Registry.lobby_subscriptions st !! connection_id = None →
     final (handle_unsubscribe_lobbies connection_id
              (final (handle_subscribe_lobbies connection_id websocket message st)))
     = st).
Proof.
  split_and!; try done.
  intros Hnone. rewrite handle_subscribe_lobbies_run. cbn.
  unfold handle_unsubscribe_lobbies. rewrite !bind_run. cbn.
  unfold Registry.set_lobby_subscriptions. cbn.
  rewrite delete_insert_eq, delete_id by done. by destruct st.
Qed.

(** [handle_unsubscribe_lobbies_round_trip] on the registry with room r1
    and no subscription: connection 3 subscribes and unsubscribes. *)
Lemma handle_unsubscribe_lobbies_round_trip_witness :
  final (handle_unsubscribe_lobbies 3
           (final (handle_subscribe_lobbies 3 12%nat (subscribe_message ∅)
                     (registry_after two_peers_inputs))))
  = registry_after two_peers_inputs.
Proof.
  refine (proj2 (proj2 (proj2 (proj2
            (handle_unsubscribe_lobbies_round_trip 3 12%nat (subscribe_message ∅)
               (registry_after two_peers_inputs))))) _).
  vm_compute. reflexivity.
Defined.

(** X13. [handle_list_lobbies] leaves the registry as it was and sends the
    requester, and nobody else, one [lobby_list] and one [lobby_snapshot]
    with the same entries, with every send after the lock is released. *)
Theorem handle_list_lobbies_reply (websocket : WebSocket) (message : Message)
    (st : Registry.t) :
  let r := handle_list_lobbies websocket message st in
  final r = st
  ∧ lock_free_sends false (trace r) = true
  ∧ ∃ lobbies,
      sends (trace r)
        = [(websocket, PLobbyList lobbies); (websocket, PLobbySnapshot lobbies)]
      ∧ ∀ lobby, lobby ∈ lobbies
          ↔ ∃ room_id room,
              Registry.rooms st !! room_id = Some room
              ∧ spec_visible room (m_filter_tags message)
              ∧ lobby = room_to_lobby room.
Proof.
  intros r. subst r. rewrite handle_list_lobbies_run. cbn.
  split_and!; try done.
  eexists. split; [reflexivity|]. intros lobby.
  unfold _build_lobby_snapshot. rewrite list_elem_of_fmap. split.
  - intros (room & -> & Hin). apply list_elem_of_filter in Hin as [Hv Hin].
    apply list_elem_of_fmap in Hin as ([room_id room'] & -> & Hin).
    apply elem_of_map_to_list in Hin. exists room_id, room'.
    by rewrite <- _is_room_visible_to_filter_spec.
  - intros (room_id & room & Hroom & Hv & ->). exists room. split; [done|].
    apply list_elem_of_filter. split.
    + by apply _is_room_visible_to_filter_spec.
    + apply list_elem_of_fmap. exists (room_id, room). split; [done|].
      by apply elem_of_map_to_list.
Qed.

(** X14. [notify_lobby_room_changed] leaves the registry as it was and sends
    every subscriber exactly one delta for the room, after releasing the
    lock: as many sends as there are subscriptions, each to a subscriber's
    connection; when the room is not in the registry every one of them is a
    [remove]. *)
Theorem notify_lobby_room_changed_fanout (room_id : string) (st : Registry.t) :
  let r := notify_lobby_room_changed room_id st in
  final r = st
  ∧ lock_free_sends false (trace r) = true
  ∧ sends (trace r)
    = (λ sub, (LobbySubscription.websocket sub,
               lobby_delta_payload (Registry.rooms st !! room_id) room_id sub))
      <$> subscribers st
  ∧ length (sends (trace r)) = size (Registry.lobby_subscriptions st)
  ∧ (Registry.rooms st !! room_id = None →
     ∀ send, send ∈ sends (trace r) → send.2 = PLobbyDeltaRemove room_id).
Proof.
  intros r. subst r. rewrite notify_lobby_room_changed_run. cbn [final trace fst snd].
  split; [done|]. split; [apply lobby_delta_trace_lock_free|].
  rewrite sends_lobby_delta_trace. split; [done|]. split.
  - unfold subscribers. by rewrite !length_fmap, length_map_to_list.
  - intros Hnone send Hin. rewrite Hnone in Hin.
    apply list_elem_of_fmap in Hin as (sub & -> & _). done.
Qed.

(** ** Sends and the lock *)

(** X15. In [handle_peer_connected], [handle_disconnect], [maybe_emit_match_ready],
    one pass of [prune_stale_rooms], the three lobby handlers and
    [heartbeat], for every input, no send happens while the registry lock
    is held, and the lock is free when the handler ends. *)
Theorem sends_outside_lock (peer_id now : Z) (room_id : string)
    (connection_id : Z) (websocket : WebSocket) (message : Message)
    (st : Registry.t) :
  lock_free_sends false (trace (handle_peer_connected peer_id now st)) = true
  ∧ lock_free_sends false (trace (handle_disconnect peer_id now st)) = true
  ∧ lock_free_sends false (trace (maybe_emit_match_ready room_id now st)) = true
  ∧ lock_free_sends false (trace (prune_stale_rooms now st)) = true
  ∧ lock_free_sends false (trace (handle_list_lobbies websocket message st)) = true
  ∧ lock_free_sends false
      (trace (handle_subscribe_lobbies connection_id websocket message st)) = true
  ∧ lock_free_sends false (trace (handle_unsubscribe_lobbies connection_id st)) = true
  ∧ lock_free_sends false (trace (heartbeat st)) = true.
Proof.
  split_and!; try done.
  - destruct (Registry.peers st !! peer_id) as [session|] eqn:Hs.
    + destruct (Registry.rooms st !! PeerSession.room_id session) as [room|] eqn:Hr.
      * rewrite (handle_peer_connected_run _ _ _ _ _ Hs Hr). cbn.
        destruct (ready _); [|done]. apply lock_free_sends_EvSend. eauto.
      * unfold handle_peer_connected. rewrite !bind_run. cbn. rewrite Hs.
        rewrite !bind_run. cbn. by rewrite Hr.
    + unfold handle_peer_connected. rewrite !bind_run. cbn. by rewrite Hs.
  - destruct (Registry.peers st !! peer_id) as [session|] eqn:Hs;
      [|by rewrite handle_disconnect_absent].
    destruct (Registry.rooms st !! PeerSession.room_id session) as [room|] eqn:Hr;
      [|by rewrite (handle_disconnect_roomless _ _ _ _ Hs Hr)].
    rewrite (handle_disconnect_run _ _ _ _ _ Hs Hr). cbn [trace snd app].
    cbn [lock_free_sends negb andb].
    rewrite lock_free_sends_app; [apply lobby_delta_trace_lock_free|].
    destruct (bool_decide _); [apply lock_free_sends_EvSend; eauto|].
    destruct (elements _); [done|apply lock_free_sends_EvSend; eauto].
  - apply maybe_emit_match_ready_lock_free.
  - destruct (prune_stale_rooms_run now st) as (st' & -> & _). cbn.
    apply lock_free_sends_concat. intros k. apply lobby_delta_trace_lock_free.
Qed.

(** ** The reaper, once more *)

(** X16. After one pass of the reaper, a second pass at the same instant finds
    no stale room: it changes nothing and sends nothing. *)
Theorem prune_stale_rooms_settles (now : Z) (st : Registry.t) :
  prune_stale_rooms now (final (prune_stale_rooms now st))
  = (tt, final (prune_stale_rooms now st), [EvAcquire; EvRelease]).
Proof.
  destruct (prune_stale_rooms_run now st) as (st' & -> & _ & Hrooms & _).
  cbn [final fst snd].
  assert (Hnil : stale_room_ids now st' = []).
  { apply elem_of_nil_inv. intros k (room & Hroom & Hstale)%elem_of_stale_room_ids.
    rewrite Hrooms in Hroom. case_decide as Hk; [done|].
    apply Hk, elem_of_stale_room_ids. eauto. }
  unfold prune_stale_rooms. rewrite !bind_run. cbn.
  fold (stale_room_ids now st'). rewrite Hnil. done.
Qed.

(** ** What a join announces *)

Lemma sends_concat_option {A} (f : A → option WebSocket) (payload : Payload)
    (xs : list A) :
  sends (concat ((λ x, match f x with
                       | Some ws => [EvSend ws payload]
                       | None => []
                       end) <$> xs))
  = (λ ws, (ws, payload)) <$> omap f xs.
Proof.
  induction xs as [|x xs IH]; [done|].
  cbn. rewrite sends_app, IH. by destruct (f x).
Qed.

Lemma handle_join_admit_sends (ICE_SERVERS : list Json)
    (websocket : WebSocket) (room_id : string) (is_host_intent : bool)
    (peer_id : Z) (room : Room.t) (now : Z) (st : Registry.t) :
  Room.is_sealed room || Room.is_full room = false →
  is_host_intent && negb (bool_decide (Room.host_id room = peer_id)) = false →
  let r := handle_join_admit ICE_SERVERS websocket room_id is_host_intent
                             peer_id room now st in
  let st' := joined_registry websocket room_id peer_id now room st in
  let room' := admitted peer_id now room in
  ∃ joined,
    sends (trace r)
    = sends (lobby_delta_trace st' room_id)
      ++ [(websocket,
           PIdAssigned peer_id (Room.host_id room) (Room.topology room)
                       (Room.capacity room) ICE_SERVERS)]
      ++ ((λ ws, (ws, PPeerJoined peer_id)) <$> joined)
      ++ (if ready room'
          then (λ ws, (ws, PMatchReady)) <$> room_recipients st' room'
          else [])
    ∧ ∀ ws, ws ∈ joined
        ↔ ∃ q s, q ∈ Room.peer_ids room ∧ q ≠ peer_id
                 ∧ Registry.peers st !! q = Some s
                 ∧ PeerSession.websocket s = ws
                 ∧ (Room.topology room = ServerAuthoritative → q = Room.host_id room).
Proof.
  intros Hfree Hhost r st' room'. subst r.
  unfold handle_join_admit. rewrite Hfree, Hhost.
  fold (admitted peer_id now room). fold room'.
  rewrite !bind_run. cbn.
  rewrite notify_lobby_room_changed_run. cbn.
  fold (joined_registry websocket room_id peer_id now room st). fold st'.
  set (notify_peer_ids := match Room.topology room' with
                          | Mesh => _ | ServerAuthoritative => _ end).
  erewrite (for_each_pure notify_peer_ids _
    (λ existing_peer_id,
       match PeerSession.websocket <$> Registry.peers st' !! existing_peer_id with
       | Some ws => [EvSend ws (PPeerJoined peer_id)]
       | None => []
       end)); last first.
  { intros p. rewrite bind_run. cbn.
    by destruct (<[peer_id:=_]> (Registry.peers st) !! p). }
  cbn [final trace fst snd].
  destruct (admitted_fields peer_id now room) as (Hp & Hc & Hh & Ht & _).
  fold room' in Hp, Hc, Hh, Ht.
  exists (omap (λ p, PeerSession.websocket <$> Registry.peers st' !! p) notify_peer_ids).
  split.
  - rewrite app_nil_r. cbn [sends]. rewrite !sends_app. cbn [sends].
    rewrite sends_app.
    change (Registry.set_peers _ _) with st'.
    rewrite (sends_concat_option
      (λ p, PeerSession.websocket <$> Registry.peers st' !! p)
      (PPeerJoined peer_id) notify_peer_ids), Hh, Ht, Hc. f_equal. cbn [app]. f_equal. f_equal.
    unfold ready. destruct (Room.is_full room') eqn:Hfull; [|done].
    rewrite maybe_emit_match_ready_run.
    replace (Registry.rooms st' !! room_id) with (Some room')
      by (subst st' room'; cbn; by rewrite lookup_insert_eq).
    unfold ready. rewrite Hfull. cbn [andb].
    destruct (negb (_ <? _)%nat); [|done]. cbn. by rewrite sends_EvSend.
  - intros ws. rewrite list_elem_of_omap. split.
    + intros (q & Hq & Hws).
      assert (Hex : q ∈ filter (λ pid, pid ≠ peer_id) (elements (Room.peer_ids room'))
                    ∧ (Room.topology room = ServerAuthoritative → q = Room.host_id room)).
      { subst notify_peer_ids. rewrite <- Ht, <- Hh.
        destruct (Room.topology room'); [by split|].
        case_bool_decide as Hin; [|by apply elem_of_nil in Hq].
        apply list_elem_of_singleton in Hq as ->. by split. }
      destruct Hex as [Hex Hsa]. apply list_elem_of_filter in Hex as [Hne Hq'].
      apply elem_of_elements in Hq'. rewrite Hp in Hq'.
      assert (Hold : Registry.peers st' !! q = Registry.peers st !! q)
        by (subst st'; cbn; by apply lookup_insert_ne).
      rewrite Hold in Hws.
      destruct (Registry.peers st !! q) as [s|] eqn:Hs; [|done].
      injection Hws as <-. exists q, s. split_and!; try done. set_solver.
    + intros (q & s & Hq & Hne & Hs & <- & Hsa). exists q.
      assert (Hold : Registry.peers st' !! q = Registry.peers st !! q)
        by (subst st'; cbn; by apply lookup_insert_ne).
      rewrite Hold, Hs. split; [|done].
      assert (Hex : q ∈ filter (λ pid, pid ≠ peer_id) (elements (Room.peer_ids room'))).
      { apply list_elem_of_filter. split; [done|].
        apply elem_of_elements. rewrite Hp. set_solver. }
      subst notify_peer_ids. destruct (Room.topology room') eqn:Htopo; [done|].
      rewrite <- Ht in Hsa. specialize (Hsa eq_refl). rewrite <- Hh in Hsa. subst q.
      rewrite bool_decide_eq_true_2 by done. apply list_elem_of_here.
Qed.

#[local] Arguments handle_join_admit : simpl never.

(** X17. An accepted join (one that returns a peer id) returns the id the
    allocator had next and sends, in this order: to every lobby subscriber
    the delta for the room as it is after the join; to the joiner one
    [id_assigned] with its id and the room's host, topology and capacity;
    [peer_joined] to the connections of the other members that have a
    session, in a mesh room to all of them and in a server-authoritative
    room to the host only; and [match_ready] to the members exactly when the
    room is full and fully acknowledged with the newcomer in it. *)
Theorem handle_join_announces (ICE_SERVERS : list Json) (websocket : WebSocket)
    (message : Message) (now : Z) (st : Registry.t) (peer_id : Z) :
  let r := handle_join ICE_SERVERS websocket message now st in
  let room_id := m_room_id message in
  result r = Some peer_id →
  peer_id = Registry._next_peer_id st
  ∧ ∃ room' joined,
      Registry.rooms (final r) !! room_id = Some room'
      ∧ sends (trace r)
        = ((λ sub, (LobbySubscription.websocket sub,
                    lobby_delta_payload (Some room') room_id sub))
           <$> subscribers st)
          ++ [(websocket,
               PIdAssigned peer_id (Room.host_id room') (Room.topology room')
                           (Room.capacity room') ICE_SERVERS)]
          ++ ((λ ws, (ws, PPeerJoined peer_id)) <$> joined)
          ++ (if ready room'
              then (λ ws, (ws, PMatchReady)) <$> room_recipients (final r) room'
              else [])
      ∧ ∀ ws, ws ∈ joined
          ↔ ∃ q s, q ∈ Room.peer_ids room' ∧ q ≠ peer_id
                   ∧ Registry.peers st !! q = Some s
                   ∧ PeerSession.websocket s = ws
                   ∧ (Room.topology room' = ServerAuthoritative
                      → q = Room.host_id room').
Proof.
  intros r room_id Hres. subst r. unfold handle_join in *. fold room_id in Hres |- *.
  case_bool_decide as Hid; [done|].
  rewrite !bind_run in Hres. rewrite !bind_run. cbn in Hres. cbn.
  set (st1 := Registry.mk _ _ _ (Registry._next_peer_id st + 1) _) in *.
  set (p := Registry._next_peer_id st) in *.
  assert (Hgo : ∀ (is_host_intent : bool) (room : Room.t) (st2 : Registry.t),
    Registry.peers st2 = Registry.peers st →
    Registry.lobby_subscriptions st2 = Registry.lobby_subscriptions st →
    result (handle_join_admit ICE_SERVERS websocket room_id is_host_intent
                              p room now st2) = Some peer_id →
    peer_id = p
    ∧ ∃ room' joined,
        Registry.rooms (final (handle_join_admit ICE_SERVERS websocket room_id
                                 is_host_intent p room now st2)) !! room_id
        = Some room'
        ∧ sends (trace (handle_join_admit ICE_SERVERS websocket room_id
                          is_host_intent p room now st2))
          = ((λ sub, (LobbySubscription.websocket sub,
                      lobby_delta_payload (Some room') room_id sub))
             <$> subscribers st)
            ++ [(websocket,
                 PIdAssigned peer_id (Room.host_id room') (Room.topology room')
                             (Room.capacity room') ICE_SERVERS)]
            ++ ((λ ws, (ws, PPeerJoined peer_id)) <$> joined)
            ++ (if ready room'
                then (λ ws, (ws, PMatchReady))
                     <$> room_recipients
                           (final (handle_join_admit ICE_SERVERS websocket room_id
                                     is_host_intent p room now st2)) room'
                else [])
        ∧ ∀ ws, ws ∈ joined
            ↔ ∃ q s, q ∈ Room.peer_ids room' ∧ q ≠ peer_id
                     ∧ Registry.peers st !! q = Some s
                     ∧ PeerSession.websocket s = ws
                     ∧ (Room.topology room' = ServerAuthoritative
                        → q = Room.host_id room')).
  { intros is_host_intent room st2 Hpeers Hsubs Hadm.
    destruct (Room.is_sealed room || Room.is_full room) eqn:Hfree;
      [by rewrite handle_join_admit_reject_unavailable in Hadm|].
    destruct (is_host_intent && negb (bool_decide (Room.host_id room = p))) eqn:Hhost.
    { unfold handle_join_admit in Hadm. by rewrite Hfree, Hhost in Hadm. }
    destruct (handle_join_admit_sends ICE_SERVERS websocket room_id is_host_intent
                p room now st2 Hfree Hhost) as (joined & Hsends & Hjoined).
    destruct (handle_join_admit_accept ICE_SERVERS websocket room_id is_host_intent
                p room now st2 Hfree Hhost) as (tr & Heq & _).
    rewrite Hsends. rewrite Heq in Hadm |- *. cbn in Hadm. injection Hadm as <-.
    split; [done|]. cbn [final fst snd].
    destruct (admitted_fields p now room) as (Hp & Hc & Hh & Ht & _).
    exists (admitted p now room), joined. split_and!.
    - cbn. by rewrite lookup_insert_eq.
    - rewrite sends_lobby_delta_trace. rewrite Hh, Ht, Hc. f_equal.
      unfold subscribers. cbn. rewrite Hsubs. by rewrite lookup_insert_eq.
    - intros ws. rewrite Hjoined, Hp, Hh, Ht, Hpeers.
      split; intros (q & s & Hq & Hne & Hrest); exists q, s;
        (split; [set_solver|done]). }
  destruct (Registry.rooms st !! room_id) as [room|] eqn:Hroom.
  - destruct (bool_decide (_ = Room.topology room)); [|done]. cbn in Hres |- *.
    by apply Hgo.
  - destruct (m_is_host_intent message); [|done]. cbn in Hres |- *.
    rewrite !bind_run in Hres. rewrite !bind_run. cbn in Hres |- *.
    by apply Hgo.
Qed.

(** [handle_join_announces] for the join of peer 3 that fills the mesh room
    r1 of three. *)
Lemma handle_join_announces_witness :
  3 = Registry._next_peer_id (registry_after (firstn 5 three_peers_inputs)).
Proof.
  refine (proj1 (handle_join_announces DEFAULT_ICE_SERVERS 12%nat
                   (join_message "r1" false 3) 103
                   (registry_after (firstn 5 three_peers_inputs)) 3 _)).
  vm_compute. reflexivity.
Defined.

(** ** A member leaves *)

(** X18. When a member that is not the host disconnects from a room that holds
    its host and no more members than its capacity, the room stays in the
    registry without the member among its members and acknowledgments,
    unsealed and no longer full; the member's session is gone; nobody gets
    [room_closed] and exactly the connections of the remaining members that
    have a session get [peer_left]; and a join request for the room with
    the room's topology and no host intent, handled next, is accepted. *)
Theorem member_departure_reopens_room (ICE_SERVERS : list Json)
    (peer_id now : Z) (st : Registry.t) (session : PeerSession.t) (room : Room.t) :
  Registry.peers st !! peer_id = Some session →
  Registry.rooms st !! PeerSession.room_id session = Some room →
  Room.room_id room = PeerSession.room_id session →
  room_bounds room →
  peer_id ∈ Room.peer_ids room →
  peer_id ≠ Room.host_id room →
  let r := handle_disconnect peer_id now st in
  Registry.peers (final r) = delete peer_id (Registry.peers st)
  ∧ (∃ room',
       Registry.rooms (final r) = <[Room.room_id room := room']> (Registry.rooms st)
       ∧ Room.peer_ids room' = Room.peer_ids room ∖ {[peer_id]}
       ∧ Room.connected_ack room' = Room.connected_ack room ∖ {[peer_id]}
       ∧ Room.is_sealed room' = false
       ∧ Room.is_full room' = false
       ∧ Room.last_activity room' = now)
  ∧ (∀ ws, (ws, PRoomClosed) ∉ sends (trace r))
  ∧ (∀ ws, (ws, PPeerLeft peer_id) ∈ sends (trace r)
           ↔ ∃ q s, q ∈ Room.peer_ids room ∧ q ≠ peer_id
                    ∧ Registry.peers st !! q = Some s
                    ∧ PeerSession.websocket s = ws)
  ∧ (∀ websocket message now',
       m_room_id message = Room.room_id room →
       Room.room_id room ≠ "" →
       requested_topology message = Room.topology room →
       m_is_host_intent message = false →
       result (handle_join ICE_SERVERS websocket message now' (final r))
       = Some (Registry._next_peer_id st)).
Proof.
  intros Hs Hr Hid (Hhost & Hcap & Hsize) Hin Hne r. subst r.
  rewrite (handle_disconnect_run _ _ _ _ _ Hs Hr). cbn [final trace fst snd].
  set (room' := Room.set_is_sealed false (departed peer_id now room)).
  assert (Hfull : Room.is_full room' = false).
  { unfold Room.is_full. apply andb_false_iff. right. apply Z.leb_gt.
    subst room'. unfold departed. cbn.
    rewrite size_difference by set_solver. rewrite size_singleton.
    assert (size (Room.peer_ids room) ≠ 0%nat)
      by (apply size_non_empty_iff; set_solver).
    lia. }
  assert (Hst : disconnected_registry peer_id now session room st
    = Registry.set_rooms (<[Room.room_id room := room']> (Registry.rooms st))
        (Registry.set_peers (delete peer_id (Registry.peers st)) st)).
  { unfold disconnected_registry, closes.
    change (Room.host_id (departed peer_id now room)) with (Room.host_id room).
    rewrite (bool_decide_eq_false_2 _ Hne).
    rewrite bool_decide_eq_false_2; last first.
    { unfold departed. cbn. intros Hz. apply size_empty_iff in Hz. set_solver. }
    cbn. rewrite <- Hid. unfold Registry.set_rooms. cbn.
    by rewrite insert_insert_eq. }
  rewrite Hst. clear Hst.
  set (st' := Registry.set_rooms _ _).
  assert (Hrecip : ∀ ws, ws ∈ room_recipients st' (departed peer_id now room)
                   ↔ ∃ q s, q ∈ Room.peer_ids room ∧ q ≠ peer_id
                            ∧ Registry.peers st !! q = Some s
                            ∧ PeerSession.websocket s = ws).
  { intros ws. unfold room_recipients. rewrite list_elem_of_omap.
    unfold departed. cbn. split.
    - intros (q & Hq & Hws). apply elem_of_elements in Hq.
      assert (q ≠ peer_id) by set_solver.
      rewrite lookup_delete_ne in Hws by done.
      destruct (Registry.peers st !! q) as [s|] eqn:Hqs; [|done].
      injection Hws as <-. exists q, s. split_and!; try done. set_solver.
    - intros (q & s & Hq & Hq' & Hqs & <-). exists q. split.
      + apply elem_of_elements. set_solver.
      + rewrite lookup_delete_ne by done. by rewrite Hqs. }
  change (Room.host_id (departed peer_id now room)) with (Room.host_id room).
  change (Room.room_id (departed peer_id now room)) with (Room.room_id room).
  rewrite (bool_decide_eq_false_2 _ Hne).
  assert (Htr : sends
    ([EvAcquire; EvRelease]
     ++ match elements (Room.peer_ids (departed peer_id now room)) with
        | [] => []
        | _ :: _ => (λ ws, EvSend ws (PPeerLeft peer_id))
                    <$> room_recipients st' (departed peer_id now room)
        end
     ++ lobby_delta_trace st' (Room.room_id room))
    = ((λ ws, (ws, PPeerLeft peer_id))
       <$> room_recipients st' (departed peer_id now room))
      ++ sends (lobby_delta_trace st' (Room.room_id room))).
  { cbn [app sends]. rewrite sends_app. f_equal.
    unfold room_recipients.
    destruct (elements (Room.peer_ids (departed peer_id now room))); [done|].
    apply (sends_EvSend (λ ws, ws) (λ _, PPeerLeft peer_id)). }
  rewrite Htr. clear Htr. rewrite sends_lobby_delta_trace.
  split_and!.
  - done.
  - exists room'. by split_and!.
  - intros ws [Hc|Hc]%elem_of_app.
    + by apply list_elem_of_fmap in Hc as (? & ? & _).
    + apply list_elem_of_fmap in Hc as (sub & Hc & _).
      unfold lobby_delta_payload in Hc.
      destruct (Registry.rooms st' !! Room.room_id room) as [r0|]; [|done].
      by destruct (_is_room_visible_to_filter _ _).
  - intros ws. rewrite <- Hrecip. rewrite elem_of_app, list_elem_of_fmap. split.
    + intros [(ws' & Heq & Hws)|Hc]; [by injection Heq as ->|].
      apply list_elem_of_fmap in Hc as (sub & Hc & _).
      unfold lobby_delta_payload in Hc.
      destruct (Registry.rooms st' !! Room.room_id room) as [r0|]; [|done].
      by destruct (_is_room_visible_to_filter _ _).
    + intros Hws. left. by exists ws.
  - intros websocket message now' Hmid Hnonempty Htopo Hintent.
    unfold handle_join. rewrite Hmid, Hintent.
    rewrite (bool_decide_eq_false_2 _ Hnonempty).
    rewrite !bind_run. cbn. rewrite lookup_insert_eq.
    fold (requested_topology message). rewrite Htopo.
    change (Room.topology (departed peer_id now room)) with (Room.topology room).
    rewrite bool_decide_eq_true_2 by done. cbn.
    match goal with
    | |- result (handle_join_admit ?ice ?ws ?rid ?hi ?p ?rm ?nw ?s) = _ =>
        destruct (handle_join_admit_accept ice ws rid hi p rm nw s)
          as (tr & -> & _); [|done|done]
    end.
    fold room'. by rewrite Hfull.
Qed.

(** [member_departure_reopens_room] when member 2 leaves the full room r1
    of host 1 and member 2. *)
Lemma member_departure_reopens_room_witness :
  Registry.peers (final (handle_disconnect 2 103 (registry_after two_peers_inputs)))
  = delete 2 (Registry.peers (registry_after two_peers_inputs)).
Proof.
  refine (proj1 (member_departure_reopens_room DEFAULT_ICE_SERVERS 2 103
                   (registry_after two_peers_inputs)
                   (PeerSession.mk 2 11%nat "r1" 102)
                   (Room.mk "r1" 1 Mesh 2 true {[1; 2]} ∅ [] 102)
                   _ _ _ _ _ _)).
  - vm_compute. reflexivity.
  - vm_compute. reflexivity.
  - reflexivity.
  - split_and!; [set_solver|done|].
    cbn. rewrite size_union by set_solver. rewrite !size_singleton. lia.
  - set_solver.
  - cbn. lia.
Defined.

(** ** Peer ids in use were allocated *)

Lemma for_each_preserves {A} (P : Registry.t → Prop) (xs : list A)
    (f : A → Handler unit) (st : Registry.t) :
  (∀ x st, P st → P (final (f x st))) →
  P st → P (final (for_each xs f st)).
Proof.
  intros Hf. revert st. induction xs as [|x xs IH]; intros st HP; [done|].
  cbn [for_each]. rewrite bind_run. cbn. by apply IH, Hf.
Qed.

Lemma peer_ids_allocated_shrink (st st' : Registry.t) :
  Registry._next_peer_id st ≤ Registry._next_peer_id st' →
  (∀ p, Registry.peers st !! p = None → Registry.peers st' !! p = None) →
  (∀ k room', Registry.rooms st' !! k = Some room' →
     ∃ room, Registry.rooms st !! k = Some room
             ∧ Room.host_id room' = Room.host_id room
             ∧ Room.peer_ids room' ⊆ Room.peer_ids room) →
  peer_ids_allocated st → peer_ids_allocated st'.
Proof.
  intros Hnext Hpeers Hrooms [Hp Hr]. split.
  - intros p s Hs. destruct (Registry.peers st !! p) as [s0|] eqn:Hs0.
    + apply Hp in Hs0. lia.
    + apply Hpeers in Hs0. congruence.
  - intros k room' Hk. destruct (Hrooms _ _ Hk) as (room & Hroom & Hh & Hsub).
    destruct (Hr _ _ Hroom) as [Hhost Hmem]. rewrite Hh. split; [lia|].
    intros p Hin. apply Hsub, Hmem in Hin. lia.
Qed.

Lemma handle_join_final (ICE_SERVERS : list Json) (websocket : WebSocket)
    (message : Message) (now : Z) (st : Registry.t) :
  let r := handle_join ICE_SERVERS websocket message now st in
  let peer_id := Registry._next_peer_id st in
  let room_id := m_room_id message in
  (result r = None
   ∧ Registry.rooms (final r) = Registry.rooms st
   ∧ Registry.peers (final r) = Registry.peers st
   ∧ Registry._next_peer_id st ≤ Registry._next_peer_id (final r))
  ∨ ∃ room,
      (Registry.rooms st !! room_id = Some room
       ∧ (m_is_host_intent message = true → Room.host_id room = peer_id)
       ∨ Registry.rooms st !! room_id = None
         ∧ room = Room.mk room_id peer_id (requested_topology message)
                          (Z.max 2 (m_capacity message)) false ∅ ∅
                          (m_tags message) now)
      ∧ result r = Some peer_id
      ∧ Registry.rooms (final r)
        = <[room_id := admitted peer_id now room]> (Registry.rooms st)
      ∧ Registry.peers (final r)
        = <[peer_id := PeerSession.mk peer_id websocket room_id now]>
            (Registry.peers st)
      ∧ Registry._next_peer_id (final r) = peer_id + 1.
Proof.
  intros r peer_id room_id. subst r. unfold handle_join.
  fold room_id. fold (requested_topology message).
  case_bool_decide as Hrid; [left; rewrite ?bind_run; cbn; split_and!; (done || lia)|].
  rewrite !bind_run. cbn. fold peer_id.
  destruct (Registry.rooms st !! room_id) as [room|] eqn:Hroom.
  - destruct (negb (bool_decide (requested_topology message = Room.topology room)));
      [left; rewrite ?bind_run; cbn; split_and!; (done || lia)|].
    destruct (Room.is_sealed room || Room.is_full room) eqn:Hfree.
    { rewrite handle_join_admit_reject_unavailable by done.
      left; rewrite ?bind_run; cbn; split_and!; (done || lia). }
    destruct (m_is_host_intent message
              && negb (bool_decide (Room.host_id room = peer_id))) eqn:Hhost.
    { apply andb_true_iff in Hhost as [-> Hne%negb_true_iff%bool_decide_eq_false].
      rewrite handle_join_admit_reject_host by done.
      left; rewrite ?bind_run; cbn; split_and!; (done || lia). }
    edestruct (handle_join_admit_accept ICE_SERVERS websocket room_id
                 (m_is_host_intent message) peer_id room now)
      as (tr & Hrun & _ & _); [done|done|].
    rewrite Hrun. right. exists room. cbn. split_and!; try done.
    left. split; [done|]. intros Hintent. rewrite Hintent in Hhost. cbn in Hhost.
    by apply negb_false_iff, bool_decide_eq_true in Hhost.
  - destruct (m_is_host_intent message) eqn:Hintent; cbn;
      [|left; rewrite ?bind_run; cbn; split_and!; (done || lia)].
    set (room := Room.mk room_id peer_id (requested_topology message)
                         (Z.max 2 (m_capacity message)) false ∅ ∅
                         (m_tags message) now).
    edestruct (handle_join_admit_accept ICE_SERVERS websocket room_id
                 true peer_id room now)
      as (tr & Hrun & _ & _).
    { apply new_room_open. }
    { cbn. by rewrite bool_decide_eq_true_2. }
    rewrite !bind_run. cbn. rewrite Hrun. cbn.
    right. exists room. split_and!; try done; [by right|].
    by rewrite insert_insert_eq.
Qed.

Lemma handle_join_allocated (ICE_SERVERS : list Json) (websocket : WebSocket)
    (message : Message) (now : Z) (st : Registry.t) :
  peer_ids_allocated st →
  peer_ids_allocated (final (handle_join ICE_SERVERS websocket message now st)).
Proof.
  intros Hinv.
  destruct (handle_join_final ICE_SERVERS websocket message now st)
    as [(_ & Hrooms & Hpeers & Hnext)|(room & Hroom & _ & Hrooms & Hpeers & Hnext)].
  - eapply peer_ids_allocated_shrink; [exact Hnext| | |done].
    + intros p. by rewrite Hpeers.
    + intros k room' Hk. rewrite Hrooms in Hk. by exists room'.
  - destruct Hinv as [Hp Hr]. split.
    + intros p s. rewrite Hpeers, Hnext.
      intros [[<- _]|[_ Hs]]%lookup_insert_Some; [lia|]. apply Hp in Hs. lia.
    + intros k room'. rewrite Hrooms, Hnext.
      intros [[_ <-]|[_ Hk]]%lookup_insert_Some.
      * destruct (admitted_fields (Registry._next_peer_id st) now room)
          as (Hpi & _ & Hh & _). rewrite Hpi, Hh.
        destruct Hroom as [[Hroom _]|[_ ->]].
        -- destruct (Hr _ _ Hroom) as [Hhost Hmem]. split; [lia|].
           intros p [->%elem_of_singleton|Hin]%elem_of_union; [lia|].
           apply Hmem in Hin. lia.
        -- cbn. split; [lia|].
           intros p [->%elem_of_singleton|Hin]%elem_of_union; [lia|set_solver].
      * destruct (Hr _ _ Hk) as [Hhost Hmem]. split; [lia|].
        intros p Hin. apply Hmem in Hin. lia.
Qed.

Lemma handle_signal_allocated (from_peer_id : Z) (message : Message) (now : Z)
    (st : Registry.t) :
  peer_ids_allocated st →
  peer_ids_allocated (final (handle_signal from_peer_id message now st)).
Proof.
  intros Hinv. unfold handle_signal.
  case_bool_decide as Hz.
  { rewrite bind_run. cbn. by destruct (Registry.peers st !! from_peer_id). }
  rewrite !bind_run. cbn.
  destruct (Registry.peers st !! from_peer_id) as [source|]; [|done].
  destruct (Registry.peers st !! m_target_id message) as [target|]; [|done].
  destruct (negb (bool_decide (PeerSession.room_id source = PeerSession.room_id target)));
    [done|].
  rewrite !bind_run. cbn.
  destruct (Registry.rooms st !! PeerSession.room_id source) as [room|] eqn:Hr;
    [|done].
  rewrite !bind_run. cbn.
  eapply peer_ids_allocated_shrink; [| | |exact Hinv]; cbn; [lia|done|].
  intros k room'. intros [[<- <-]|[_ Hk]]%lookup_insert_Some; [by exists room|].
  by exists room'.
Qed.

Lemma handle_peer_connected_allocated (peer_id now : Z) (st : Registry.t) :
  peer_ids_allocated st →
  peer_ids_allocated (final (handle_peer_connected peer_id now st)).
Proof.
  intros Hinv.
  destruct (Registry.peers st !! peer_id) as [session|] eqn:Hs.
  - destruct (Registry.rooms st !! PeerSession.room_id session) as [room|] eqn:Hr.
    + rewrite (handle_peer_connected_run _ _ _ _ _ Hs Hr). cbn [final fst snd].
      eapply peer_ids_allocated_shrink; [| | |exact Hinv]; cbn; [lia|done|].
      intros k room'. intros [[<- <-]|[_ Hk]]%lookup_insert_Some; [by exists room|].
      by exists room'.
    + unfold handle_peer_connected. rewrite !bind_run. cbn. rewrite Hs.
      rewrite !bind_run. cbn. by rewrite Hr.
  - unfold handle_peer_connected. rewrite !bind_run. cbn. by rewrite Hs.
Qed.

Lemma handle_disconnect_allocated (peer_id now : Z) (st : Registry.t) :
  peer_ids_allocated st →
  peer_ids_allocated (final (handle_disconnect peer_id now st)).
Proof.
  intros Hinv.
  destruct (Registry.peers st !! peer_id) as [session|] eqn:Hs;
    [|by rewrite handle_disconnect_absent].
  destruct (Registry.rooms st !! PeerSession.room_id session) as [room|] eqn:Hr.
  - rewrite (handle_disconnect_run _ _ _ _ _ Hs Hr). cbn [final fst snd].
    eapply peer_ids_allocated_shrink; [| | |exact Hinv].
    + unfold disconnected_registry. by destruct (closes _ _).
    + intros p Hp. unfold disconnected_registry.
      destruct (closes _ _); cbn; by apply lookup_delete_None; right.
    + intros k room'. unfold disconnected_registry.
      destruct (closes _ _); cbn.
      * intros [_ Hk]%lookup_delete_Some.
        apply lookup_insert_Some in Hk as [[<- <-]|[_ Hk]].
        -- exists room. unfold departed; cbn. split_and!; [done|done|set_solver].
        -- by exists room'.
      * rewrite insert_insert_eq.
        intros [[<- <-]|[_ Hk]]%lookup_insert_Some.
        -- exists room. unfold departed; cbn. split_and!; [done|done|set_solver].
        -- by exists room'.
  - rewrite (handle_disconnect_roomless _ _ _ _ Hs Hr). cbn.
    eapply peer_ids_allocated_shrink; [| | |exact Hinv]; cbn; [lia| |].
    + intros p Hp. by apply lookup_delete_None; right.
    + intros k room' Hk. by exists room'.
Qed.

Lemma prune_stale_rooms_next_peer_id (now : Z) (st : Registry.t) :
  Registry._next_peer_id (final (prune_stale_rooms now st))
  = Registry._next_peer_id st.
Proof.
  unfold prune_stale_rooms. rewrite !bind_run. cbn.
  set (n := Registry._next_peer_id st).
  apply (for_each_preserves (λ s, Registry._next_peer_id s = n)).
  { intros room_id s Hs. by rewrite notify_lobby_room_changed_run. }
  apply (for_each_preserves (λ s, Registry._next_peer_id s = n)); [|done].
  intros room_id s Hs. rewrite !bind_run. cbn.
  destruct (Registry.rooms s !! room_id) as [room|]; [|done].
  apply (for_each_preserves (λ s, Registry._next_peer_id s = n)); [|done].
  intros p s' Hs'. done.
Qed.

Lemma prune_stale_rooms_allocated (now : Z) (st : Registry.t) :
  peer_ids_allocated st → peer_ids_allocated (final (prune_stale_rooms now st)).
Proof.
  intros Hinv. pose proof (prune_stale_rooms_next_peer_id now st) as Hnext.
  destruct (prune_stale_rooms_run now st) as (st' & Heq & _ & Hrooms & Hkeep & _).
  rewrite Heq in Hnext |- *. cbn in Hnext |- *.
  eapply peer_ids_allocated_shrink; [| | |exact Hinv]; [lia|done|].
  intros k room'. rewrite Hrooms. case_decide; [done|]. intros Hk. by exists room'.
Qed.

Lemma websocket_endpoint_allocated (ICE_SERVERS : list Json) (connection_id : Z)
    (websocket : WebSocket) (peer_id : option Z) (message : Message) (now : Z)
    (st : Registry.t) :
  peer_ids_allocated st →
  peer_ids_allocated
    (final (websocket_endpoint ICE_SERVERS connection_id websocket peer_id
                               message now st)).
Proof.
  intros Hinv. unfold websocket_endpoint.
  repeat case_bool_decide; try destruct peer_id as [p|];
    repeat case_bool_decide; rewrite ?bind_run; cbn [final fst snd];
    rewrite ?handle_list_lobbies_run, ?handle_subscribe_lobbies_run;
    try done;
    first [ by apply handle_join_allocated
          | by apply handle_signal_allocated
          | by apply handle_peer_connected_allocated
          | idtac ].
Qed.

Lemma websocket_cleanup_allocated (connection_id : Z) (peer_id : option Z) (now : Z)
    (st : Registry.t) :
  peer_ids_allocated st →
  peer_ids_allocated (final (websocket_cleanup connection_id peer_id now st)).
Proof.
  intros Hinv. unfold websocket_cleanup. rewrite bind_run. cbn.
  destruct peer_id as [p|]; [|done].
  by apply (handle_disconnect_allocated p now) in Hinv.
Qed.

Lemma server_step_allocated (ICE_SERVERS : list Json) (now : Z) (input : Input)
    (sv : Server) :
  peer_ids_allocated (registry sv) →
  peer_ids_allocated (registry (server_step ICE_SERVERS now input sv).1).
Proof.
  intros Hinv. destruct input as [ws|ws message|ws|]; cbn.
  - done.
  - destruct (connections sv !! ws) as [c|]; [|done].
    pose proof (websocket_endpoint_allocated ICE_SERVERS (conn_connection_id c) ws
                  (conn_peer_id c) message now _ Hinv) as H.
    by destruct (websocket_endpoint _ _ _ _ _ _ _) as [[? ?] ?].
  - destruct (connections sv !! ws) as [c|]; [|done].
    pose proof (websocket_cleanup_allocated (conn_connection_id c)
                  (conn_peer_id c) now _ Hinv) as H.
    by destruct (websocket_cleanup _ _ _ _) as [[? ?] ?].
  - pose proof (prune_stale_rooms_allocated now _ Hinv) as H.
    by destruct (prune_stale_rooms _ _) as [[? ?] ?].
Qed.

Lemma server_run_allocated (ICE_SERVERS : list Json) (inputs : list (Z * Input))
    (sv : Server) :
  peer_ids_allocated (registry sv) →
  peer_ids_allocated (registry (server_run ICE_SERVERS inputs sv).1).
Proof.
  revert sv. induction inputs as [|[now input] inputs IH]; intros sv Hinv; [done|].
  cbn. pose proof (server_step_allocated ICE_SERVERS now input sv Hinv) as Hstep.
  destruct (server_step ICE_SERVERS now input sv) as [sv1 tr1].
  specialize (IH sv1 Hstep).
  by destruct (server_run ICE_SERVERS inputs sv1) as [sv2 tr2].
Qed.

Lemma peer_ids_allocated_init : peer_ids_allocated Registry.init.
Proof. split; intros ? ?; cbn; by rewrite lookup_empty. Qed.

(** X19. In every registry the server can reach, every peer id in use (the
    sessions' keys, the rooms' hosts and members) is below the next id of
    the allocator, so the id a join is about to allocate is in use
    nowhere. *)
Theorem reachable_peer_ids_allocated (ICE_SERVERS : list Json) (reg : Registry.t) :
  reachable ICE_SERVERS reg →
  peer_ids_allocated reg
  ∧ Registry.peers reg !! Registry._next_peer_id reg = None
  ∧ ∀ room_id room, Registry.rooms reg !! room_id = Some room →
      (Registry._next_peer_id reg ∉ Room.peer_ids room)
      ∧ Room.host_id room ≠ Registry._next_peer_id reg.
Proof.
  intros [inputs <-].
  pose proof (server_run_allocated ICE_SERVERS inputs server_init
                peer_ids_allocated_init) as Hinv.
  split; [done|]. destruct Hinv as [Hp Hr]. split.
  - destruct (Registry.peers _ !! _) as [s|] eqn:Hs; [|done].
    apply Hp in Hs. lia.
  - intros room_id room Hroom. destruct (Hr _ _ Hroom) as [Hhost Hmem].
    split; [|lia]. intros Hin. apply Hmem in Hin. lia.
Qed.

(** [reachable_peer_ids_allocated] for the registry with room r1, host 1
    and member 2: the next id, 3, has no session. *)
Lemma reachable_peer_ids_allocated_witness :
  Registry.peers (registry_after two_peers_inputs)
    !! Registry._next_peer_id (registry_after two_peers_inputs) = None.
Proof.
  refine (proj1 (proj2 (reachable_peer_ids_allocated DEFAULT_ICE_SERVERS
                          (registry_after two_peers_inputs) _))).
  exists two_peers_inputs. reflexivity.
Defined.

(** X20. In every registry the server can reach, a join keeps every session
    that was there, with its connection and room, and a join with host
    intent for a room that already exists is refused: the id compared with
    the room's host is freshly allocated, so it is never the host's. *)
Theorem reachable_join_keeps_sessions (ICE_SERVERS : list Json) (reg : Registry.t)
    (websocket : WebSocket) (message : Message) (now : Z) :
  reachable ICE_SERVERS reg →
  let r := handle_join ICE_SERVERS websocket message now reg in
  (∀ q s, Registry.peers reg !! q = Some s → Registry.peers (final r) !! q = Some s)
  ∧ (m_is_host_intent message = true →
     is_Some (Registry.rooms reg !! m_room_id message) →
     result r = None
     ∧ Registry.rooms (final r) = Registry.rooms reg
     ∧ Registry.peers (final r) = Registry.peers reg).
Proof.
  intros [inputs <-] r. subst r.
  pose proof (server_run_allocated ICE_SERVERS inputs server_init
                peer_ids_allocated_init) as [Hp Hr].
  set (reg := registry (server_run ICE_SERVERS inputs server_init).1) in *.
  destruct (handle_join_final ICE_SERVERS websocket message now reg)
    as [(Hres & Hrooms & Hpeers & _)|(room & Hroom & _ & _ & Hpeers & _)].
  - split; [intros q s; by rewrite Hpeers|done].
  - split.
    + intros q s Hs. rewrite Hpeers, lookup_insert_ne; [done|].
      apply Hp in Hs. lia.
    + intros Hintent [room0 Hroom0]. exfalso.
      destruct Hroom as [[Hroom Hhost]|[Hnone _]]; [|congruence].
      apply Hr in Hroom as [Hlt _]. specialize (Hhost Hintent). lia.
Qed.

(** [reachable_join_keeps_sessions] for a second host-intent join to room
    r1: the session of peer 1 is still there afterwards. *)
Lemma reachable_join_keeps_sessions_witness :
  Registry.peers
    (final (handle_join DEFAULT_ICE_SERVERS 12%nat (join_message "r1" true 4) 103
              (registry_after two_peers_inputs))) !! 1
  = Some (PeerSession.mk 1 10%nat "r1" 101).
Proof.
  refine (proj1 (reachable_join_keeps_sessions DEFAULT_ICE_SERVERS
                   (registry_after two_peers_inputs) 12%nat
                   (join_message "r1" true 4) 103 _) 1 _ _).
  - exists two_peers_inputs. reflexivity.
  - vm_compute. reflexivity.
Defined.

(** ** Reachable registries and the lobby directory *)

(** [reachable_room_bounds] for room r1 after host 1 and member 2 joined. *)
Lemma reachable_room_bounds_witness :
  room_bounds (Room.mk "r1" 1 Mesh 2 true {[1; 2]} ∅ [] 102).
Proof.
  refine (reachable_room_bounds DEFAULT_ICE_SERVERS
            (registry_after two_peers_inputs) _ "r1" _ _).
  - exists two_peers_inputs. reflexivity.
  - vm_compute. reflexivity.
Defined.

(** X22. In every registry the server can reach, each entry of a lobby snapshot,
    whatever the filter, describes a room with at least one player, at
    least one free seat and capacity at least 2. *)
Theorem reachable_lobbies_have_free_seat (ICE_SERVERS : list Json)
    (reg : Registry.t) (filter_tags : gset string) (lobby : Lobby) :
  reachable ICE_SERVERS reg →
  lobby ∈ _build_lobby_snapshot ((map_to_list (Registry.rooms reg)).*2) filter_tags →
  (1 ≤ lobby_players lobby)%nat
  ∧ Z.of_nat (lobby_players lobby) < lobby_capacity lobby
  ∧ 2 ≤ lobby_capacity lobby.
Proof.
  intros [inputs <-] Hin.
  unfold _build_lobby_snapshot in Hin.
  apply list_elem_of_fmap in Hin as (room & -> & Hin).
  apply list_elem_of_filter in Hin as [Hv Hin].
  apply list_elem_of_fmap in Hin as ([room_id room'] & -> & Hin).
  apply elem_of_map_to_list in Hin. cbn in Hv |- *.
  destruct (server_run_bounds ICE_SERVERS inputs server_init) with room_id room'
    as (_ & Hhost & Hcap & Hsize); [|done|].
  { intros k r Hk. cbn in Hk. by rewrite lookup_empty in Hk. }
  apply _is_room_visible_to_filter_spec in Hv as (_ & Hfull & _).
  unfold Room.is_full in Hfull.
  apply andb_false_iff in Hfull as [Hfull%Z.ltb_ge|Hfull%Z.leb_gt]; [lia|].
  split_and!; [|done|done].
  assert (size (Room.peer_ids room') ≠ 0%nat)
    by (apply size_non_empty_iff; set_solver).
  lia.
Qed.

(** [reachable_lobbies_have_free_seat] for the room of three with two
    members in it, listed without a filter. *)
Lemma reachable_lobbies_have_free_seat_witness :
  (1 ≤ 2)%nat ∧ Z.of_nat 2 < 3 ∧ 2 ≤ 3.
Proof.
  refine (reachable_lobbies_have_free_seat DEFAULT_ICE_SERVERS
            (registry_after (firstn 5 three_peers_inputs)) ∅
            (mkLobby "r1" Mesh 2 3 []) _ _).
  - exists (firstn 5 three_peers_inputs). reflexivity.
  - vm_compute. apply list_elem_of_here.
Defined.

(** ** The protocol loop and its clean-up *)

(** X23. The three lobby messages are served whether or not the connection has
    joined: they leave the connection's peer id, the rooms and the sessions
    as they were, and they are never answered with an error. *)
Theorem lobby_messages_need_no_join (ICE_SERVERS : list Json) (connection_id : Z)
    (websocket : WebSocket) (peer_id : option Z) (message : Message) (now : Z)
    (st : Registry.t) :
  m_type message ∈ ["list_lobbies"; "subscribe_lobbies"; "unsubscribe_lobbies"] →
  let r := websocket_endpoint ICE_SERVERS connection_id websocket peer_id
                              message now st in
  result r = peer_id
  ∧ Registry.rooms (final r) = Registry.rooms st
  ∧ Registry.peers (final r) = Registry.peers st
  ∧ Registry._next_peer_id (final r) = Registry._next_peer_id st
  ∧ ∀ ws code, (ws, PError code) ∉ sends (trace r).
Proof.
  intros Hty r. subst r. unfold websocket_endpoint.
  repeat (apply elem_of_cons in Hty as [->|Hty]); [| | |by apply elem_of_nil in Hty].
  - rewrite bool_decide_eq_false_2, bool_decide_eq_true_2 by done.
    rewrite bind_run, handle_list_lobbies_run. cbn.
    split_and!; try done. intros ws code.
    rewrite !elem_of_cons, elem_of_nil. naive_solver.
  - rewrite !bool_decide_eq_false_2, bool_decide_eq_true_2 by done.
    rewrite bind_run, handle_subscribe_lobbies_run. cbn.
    split_and!; try done. intros ws code.
    rewrite !elem_of_cons, elem_of_nil. naive_solver.
  - rewrite !bool_decide_eq_false_2, bool_decide_eq_true_2 by done.
    cbn. split_and!; try done. intros ws code. apply not_elem_of_nil.
Qed.

(** [lobby_messages_need_no_join] for a subscription on a connection that
    has not joined. *)
Lemma lobby_messages_need_no_join_witness :
  result (websocket_endpoint DEFAULT_ICE_SERVERS 3 12%nat None
            (subscribe_message ∅) 200 (registry_after two_peers_inputs))
  = None.
Proof.
  refine (proj1 (lobby_messages_need_no_join DEFAULT_ICE_SERVERS 3 12%nat None
                   (subscribe_message ∅) 200 (registry_after two_peers_inputs) _)).
  cbn. apply list_elem_of_further, list_elem_of_here.
Defined.

Lemma handle_disconnect_sessions (peer_id now : Z) (st : Registry.t) :
  let r := handle_disconnect peer_id now st in
  Registry.peers (final r) = delete peer_id (Registry.peers st)
  ∧ Registry.lobby_subscriptions (final r) = Registry.lobby_subscriptions st
  ∧ Registry._next_peer_id (final r) = Registry._next_peer_id st
  ∧ Registry._next_connection_id (final r) = Registry._next_connection_id st.
Proof.
  intros r. subst r.
  destruct (Registry.peers st !! peer_id) as [session|] eqn:Hs.
  - destruct (Registry.rooms st !! PeerSession.room_id session) as [room|] eqn:Hr.
    + rewrite (handle_disconnect_run _ _ _ _ _ Hs Hr). cbn [final fst snd].
      unfold disconnected_registry. by destruct (closes _ _).
    + by rewrite (handle_disconnect_roomless _ _ _ _ Hs Hr).
  - rewrite handle_disconnect_absent by done. cbn.
    by rewrite delete_id.
Qed.

(** X24. The clean-up of a connection leaves no session under the connection's
    peer id and no lobby subscription under its connection id; every other
    session and subscription stays, both allocators keep their value, and
    for a connection that never joined the rooms are untouched and nothing
    is sent. All its sends happen with the lock free. *)
Theorem websocket_cleanup_forgets (connection_id : Z) (peer_id : option Z)
    (now : Z) (st : Registry.t) :
  let r := websocket_cleanup connection_id peer_id now st in
  Registry.lobby_subscriptions (final r)
    = delete connection_id (Registry.lobby_subscriptions st)
  ∧ Registry.peers (final r)
    = match peer_id with
      | Some p => delete p (Registry.peers st)
      | None => Registry.peers st
      end
  ∧ Registry._next_peer_id (final r) = Registry._next_peer_id st
  ∧ Registry._next_connection_id (final r) = Registry._next_connection_id st
  ∧ lock_free_sends false (trace r) = true
  ∧ (peer_id = None →
     Registry.rooms (final r) = Registry.rooms st ∧ sends (trace r) = []).
Proof.
  intros r. subst r. unfold websocket_cleanup. rewrite bind_run.
  destruct peer_id as [p|]; [|cbn; by split_and!].
  destruct (handle_disconnect_sessions p now st) as (Hpeers & Hsubs & Hn & Hc).
  unfold handle_unsubscribe_lobbies. rewrite !bind_run. cbn.
  rewrite Hpeers, Hsubs, Hn, Hc. split_and!; try done.
  assert (Hlock : lock_free_sends false (trace (handle_disconnect p now st)) = true).
  { destruct (Registry.peers st !! p) as [session|] eqn:Hs;
      [|by rewrite handle_disconnect_absent].
    destruct (Registry.rooms st !! PeerSession.room_id session) as [room|] eqn:Hr;
      [|by rewrite (handle_disconnect_roomless _ _ _ _ Hs Hr)].
    rewrite (handle_disconnect_run _ _ _ _ _ Hs Hr). cbn [trace snd app].
    cbn [lock_free_sends negb andb].
    rewrite lock_free_sends_app; [apply lobby_delta_trace_lock_free|].
    destruct (bool_decide _); [apply lock_free_sends_EvSend; eauto|].
    destruct (elements _); [done|apply lock_free_sends_EvSend; eauto]. }
  by rewrite lock_free_sends_app.
Qed.

(** ** What the reaper spares *)

Lemma prune_loop_spares (ids : list string) (st : Registry.t) (p : Z) :
  NoDup ids →
  (∀ k room, k ∈ ids → Registry.rooms st !! k = Some room →
     p ∉ Room.peer_ids room) →
  let r := for_each ids (λ room_id,
             room ← gets (λ st, Registry.rooms st !! room_id);
             modify (λ st, Registry.set_rooms (delete room_id (Registry.rooms st)) st) ;;
             match room with
             | None => mret tt
             | Some room =>
                 for_each (elements (Room.peer_ids room)) (λ peer_id,
                   modify (λ st, Registry.set_peers
                                   (delete peer_id (Registry.peers st)) st))
             end) st in
  Registry.peers (final r) !! p = Registry.peers st !! p.
Proof.
  intros Hnd. revert st. induction Hnd as [|k ids Hk Hnd IH]; intros st Hout; cbn;
    [done|].
  rewrite !bind_run. cbn.
  set (st1 := Registry.set_rooms (delete k (Registry.rooms st)) st).
  set (body := match Registry.rooms st !! k with
               | Some room => _ | None => _ end).
  assert (Hbody : Registry.rooms (final (body st1)) = delete k (Registry.rooms st)
                  ∧ Registry.peers (final (body st1)) !! p = Registry.peers st !! p).
  { subst body. destruct (Registry.rooms st !! k) as [room|] eqn:Hroom; [|done].
    destruct (drop_sessions_run (elements (Room.peer_ids room)) st1)
      as (_ & _ & Hrooms & _ & Hpeers).
    cbn in Hrooms, Hpeers. split; [done|]. rewrite Hpeers.
    rewrite decide_False; [done|].
    rewrite elem_of_elements. eapply Hout; [apply list_elem_of_here|done]. }
  destruct Hbody as [Hrooms1 Hpeers1].
  rewrite <- Hpeers1. apply IH.
  intros k' room Hin. rewrite Hrooms1.
  intros [_ Hroom]%lookup_delete_Some. eapply Hout; [|done].
  by apply list_elem_of_further.
Qed.

Lemma prune_stale_rooms_peers_spared (now : Z) (st : Registry.t) (p : Z) :
  (∀ k room, k ∈ stale_room_ids now st → Registry.rooms st !! k = Some room →
     p ∉ Room.peer_ids room) →
  Registry.peers (final (prune_stale_rooms now st)) !! p = Registry.peers st !! p.
Proof.
  intros Hout. unfold prune_stale_rooms. rewrite !bind_run. cbn.
  fold (stale_room_ids now st).
  erewrite for_each_pure by (intros room_id; apply notify_lobby_room_changed_run).
  cbn.
  by apply (prune_loop_spares (stale_room_ids now st) st p
              (NoDup_stale_room_ids now st)).
Qed.

(** X25. One pass of the reaper removes only the sessions of members of stale
    rooms: the session of a peer that is a member of no stale room is
    still there, unchanged (and a peer without a session still has none);
    the peer id allocator keeps its value. *)
Theorem prune_stale_rooms_spares (now : Z) (st : Registry.t) (p : Z) :
  (∀ room_id room,
     Registry.rooms st !! room_id = Some room →
     stale_after_seconds < now - Room.last_activity room →
     p ∉ Room.peer_ids room) →
  Registry.peers (final (prune_stale_rooms now st)) !! p = Registry.peers st !! p
  ∧ Registry._next_peer_id (final (prune_stale_rooms now st))
    = Registry._next_peer_id st.
Proof.
  intros Hout. split; [|apply prune_stale_rooms_next_peer_id].
  apply prune_stale_rooms_peers_spared. intros k room Hk Hroom.
  apply elem_of_stale_room_ids in Hk as (room' & Hroom' & Hstale).
  rewrite Hroom in Hroom'. injection Hroom' as <-. by eapply Hout.
Qed.

(** [prune_stale_rooms_spares] for peer 3 of the fresh room r2 while the
    stale room r1 is reaped. *)
Lemma prune_stale_rooms_spares_witness :
  Registry.peers (final (prune_stale_rooms 163 (registry_after two_rooms_inputs))) !! 3
  = Registry.peers (registry_after two_rooms_inputs) !! 3.
Proof.
  refine (proj1 (prune_stale_rooms_spares 163 (registry_after two_rooms_inputs) 3 _)).
  assert (Hrooms : Registry.rooms (registry_after two_rooms_inputs)
            = <["r2" := Room.mk "r2" 3 Mesh 2 false {[3]} ∅ [] 104]>
                (<["r1" := Room.mk "r1" 1 Mesh 2 true {[1; 2]} ∅ [] 102]> ∅))
    by (vm_compute; reflexivity).
  intros room_id room. rewrite Hrooms. clear Hrooms.
  intros [[_ <-]|[_ [[_ <-]|[_ Hroom]]%lookup_insert_Some]]%lookup_insert_Some.
  - cbn. unfold stale_after_seconds. lia.
  - intros _. cbn. set_solver.
  - by rewrite lookup_empty in Hroom.
Defined.

(** ** Connection ids *)

Lemma handle_join_connection_frame (ICE_SERVERS : list Json) (websocket : WebSocket)
    (message : Message) (now : Z) (st : Registry.t) :
  let r := handle_join ICE_SERVERS websocket message now st in
  Registry.lobby_subscriptions (final r) = Registry.lobby_subscriptions st
  ∧ Registry._next_connection_id (final r) = Registry._next_connection_id st.
Proof.
  intros r. subst r. unfold handle_join.
  case_bool_decide as Hrid; [by rewrite bind_run|].
  rewrite !bind_run. cbn.
  assert (Hgo : ∀ is_host_intent room st2,
    Registry.lobby_subscriptions
      (final (handle_join_admit ICE_SERVERS websocket (m_room_id message)
                is_host_intent (Registry._next_peer_id st) room now st2))
    = Registry.lobby_subscriptions st2
    ∧ Registry._next_connection_id
        (final (handle_join_admit ICE_SERVERS websocket (m_room_id message)
                  is_host_intent (Registry._next_peer_id st) room now st2))
      = Registry._next_connection_id st2).
  { intros is_host_intent room st2.
    destruct (Room.is_sealed room || Room.is_full room) eqn:Hfree;
      [by rewrite handle_join_admit_reject_unavailable|].
    destruct (is_host_intent
              && negb (bool_decide (Room.host_id room = Registry._next_peer_id st)))
      eqn:Hhost.
    { unfold handle_join_admit. by rewrite Hfree, Hhost. }
    by destruct (handle_join_admit_accept ICE_SERVERS websocket (m_room_id message)
                   is_host_intent (Registry._next_peer_id st) room now st2 Hfree Hhost)
      as (tr & -> & _). }
  destruct (Registry.rooms st !! m_room_id message) as [room|].
  - destruct (negb (bool_decide (_ = Room.topology room))); [done|].
    match goal with
    | |- context [handle_join_admit _ _ _ ?h _ ?rm _ ?s] =>
        by destruct (Hgo h rm s) as [-> ->]
    end.
  - destruct (m_is_host_intent message); [|done]. cbn.
    rewrite !bind_run. cbn.
    match goal with
    | |- context [handle_join_admit _ _ _ ?h _ ?rm _ ?s] =>
        by destruct (Hgo h rm s) as [-> ->]
    end.
Qed.

Lemma handle_signal_connection_frame (from_peer_id : Z) (message : Message)
    (now : Z) (st : Registry.t) :
  let r := handle_signal from_peer_id message now st in
  Registry.lobby_subscriptions (final r) = Registry.lobby_subscriptions st
  ∧ Registry._next_connection_id (final r) = Registry._next_connection_id st.
Proof.
  intros r. subst r. unfold handle_signal.
  case_bool_decide as Hz.
  { rewrite bind_run. cbn. by destruct (Registry.peers st !! from_peer_id). }
  rewrite !bind_run. cbn.
  destruct (Registry.peers st !! from_peer_id) as [source|]; [|done].
  destruct (Registry.peers st !! m_target_id message) as [target|]; [|done].
  destruct (negb (bool_decide (PeerSession.room_id source = PeerSession.room_id target)));
    [done|].
  rewrite !bind_run. cbn.
  destruct (Registry.rooms st !! PeerSession.room_id source) as [room|]; [|done].
  by rewrite !bind_run.
Qed.

Lemma handle_peer_connected_connection_frame (peer_id now : Z) (st : Registry.t) :
  let r := handle_peer_connected peer_id now st in
  Registry.lobby_subscriptions (final r) = Registry.lobby_subscriptions st
  ∧ Registry._next_connection_id (final r) = Registry._next_connection_id st.
Proof.
  intros r. subst r.
  destruct (Registry.peers st !! peer_id) as [session|] eqn:Hs.
  - destruct (Registry.rooms st !! PeerSession.room_id session) as [room|] eqn:Hr.
    + by rewrite (handle_peer_connected_run _ _ _ _ _ Hs Hr).
    + unfold handle_peer_connected. rewrite !bind_run. cbn. rewrite Hs.
      rewrite !bind_run. cbn. by rewrite Hr.
  - unfold handle_peer_connected. rewrite !bind_run. cbn. by rewrite Hs.
Qed.

Lemma websocket_endpoint_connection_frame (ICE_SERVERS : list Json)
    (connection_id : Z) (websocket : WebSocket) (peer_id : option Z)
    (message : Message) (now : Z) (st : Registry.t) :
  let r := websocket_endpoint ICE_SERVERS connection_id websocket peer_id
                              message now st in
  Registry._next_connection_id (final r) = Registry._next_connection_id st
  ∧ ∀ k, k ≠ connection_id →
      Registry.lobby_subscriptions (final r) !! k
      = Registry.lobby_subscriptions st !! k.
Proof.
  intros r. subst r. unfold websocket_endpoint.
  case_bool_decide.
  { rewrite bind_run. cbn.
    destruct (handle_join_connection_frame ICE_SERVERS websocket message now st)
      as [-> ->]. done. }
  case_bool_decide; [done|].
  case_bool_decide.
  { rewrite bind_run, handle_subscribe_lobbies_run. cbn. split; [done|].
    intros k Hk. by rewrite lookup_insert_ne. }
  case_bool_decide.
  { unfold handle_unsubscribe_lobbies. rewrite !bind_run. cbn.
    split; [done|]. intros k Hk. by rewrite lookup_delete_ne. }
  destruct peer_id as [p|]; [|done].
  rewrite bind_run. cbn.
  case_bool_decide.
  { by destruct (handle_signal_connection_frame p message now st) as [-> ->]. }
  case_bool_decide; [|done].
  by destruct (handle_peer_connected_connection_frame p now st) as [-> ->].
Qed.

Lemma websocket_cleanup_connection_frame (connection_id : Z) (peer_id : option Z)
    (now : Z) (st : Registry.t) :
  let r := websocket_cleanup connection_id peer_id now st in
  Registry._next_connection_id (final r) = Registry._next_connection_id st
  ∧ ∀ k sub, Registry.lobby_subscriptions (final r) !! k = Some sub →
      Registry.lobby_subscriptions st !! k = Some sub.
Proof.
  intros r. subst r. unfold websocket_cleanup, handle_unsubscribe_lobbies.
  rewrite !bind_run. cbn.
  destruct peer_id as [p|]; cbn.
  - destruct (handle_disconnect_sessions p now st) as (_ & -> & _ & ->).
    split; [done|]. by intros k sub [_ Hk]%lookup_delete_Some.
  - split; [done|]. by intros k sub [_ Hk]%lookup_delete_Some.
Qed.

Lemma prune_stale_rooms_next_connection_id (now : Z) (st : Registry.t) :
  Registry._next_connection_id (final (prune_stale_rooms now st))
  = Registry._next_connection_id st.
Proof.
  unfold prune_stale_rooms. rewrite !bind_run. cbn.
  set (n := Registry._next_connection_id st).
  apply (for_each_preserves (λ s, Registry._next_connection_id s = n)).
  { intros room_id s Hs. by rewrite notify_lobby_room_changed_run. }
  apply (for_each_preserves (λ s, Registry._next_connection_id s = n)); [|done].
  intros room_id s Hs. rewrite !bind_run. cbn.
  destruct (Registry.rooms s !! room_id) as [room|]; [|done].
  apply (for_each_preserves (λ s, Registry._next_connection_id s = n)); [|done].
  intros p s' Hs'. done.
Qed.

Lemma server_step_connection_ids (ICE_SERVERS : list Json) (now : Z)
    (input : Input) (sv : Server) :
  connection_ids_allocated sv →
  connection_ids_allocated (server_step ICE_SERVERS now input sv).1.
Proof.
  intros (Hconn & Hsubs & Hinj). destruct input as [ws|ws message|ws|]; cbn.
  - split_and!; cbn.
    + intros ws' c [[_ <-]|[_ Hc]]%lookup_insert_Some; cbn; [lia|].
      apply Hconn in Hc. lia.
    + intros k sub Hk. apply Hsubs in Hk. lia.
    + intros ws1 ws2 c1 c2.
      intros [[<- <-]|[Hne1 Hc1]]%lookup_insert_Some
             [[<- <-]|[Hne2 Hc2]]%lookup_insert_Some; cbn; try done.
      * intros Heq. apply Hconn in Hc2. lia.
      * intros Heq. apply Hconn in Hc1. lia.
      * by apply Hinj.
  - destruct (connections sv !! ws) as [c|] eqn:Hc; [|done].
    pose proof (websocket_endpoint_connection_frame ICE_SERVERS
                  (conn_connection_id c) ws (conn_peer_id c) message now
                  (registry sv)) as [Hn Hs].
    destruct (websocket_endpoint _ _ _ _ _ _ _) as [[pid reg] tr].
    cbn in Hn, Hs |- *. split_and!; cbn; rewrite ?Hn.
    + intros ws' c' [[_ <-]|[_ Hc']]%lookup_insert_Some; cbn; eauto.
    + intros k sub Hk.
      destruct (decide (k = conn_connection_id c)) as [->|Hne]; [eauto|].
      rewrite Hs in Hk by done. eauto.
    + intros ws1 ws2 c1 c2.
      intros [[<- <-]|[Hne1 Hc1]]%lookup_insert_Some
             [[<- <-]|[Hne2 Hc2]]%lookup_insert_Some; cbn; try done.
      * intros Heq. by apply (Hinj ws ws2 c c2).
      * intros Heq. by apply (Hinj ws1 ws c1 c).
      * by apply Hinj.
  - destruct (connections sv !! ws) as [c|] eqn:Hc; [|done].
    pose proof (websocket_cleanup_connection_frame (conn_connection_id c)
                  (conn_peer_id c) now (registry sv)) as [Hn Hs].
    destruct (websocket_cleanup _ _ _ _) as [[u reg] tr].
    cbn in Hn, Hs |- *. split_and!; cbn; rewrite ?Hn.
    + intros ws' c' [_ Hc']%lookup_delete_Some. eauto.
    + intros k sub Hk. apply Hs in Hk. eauto.
    + intros ws1 ws2 c1 c2 [_ Hc1]%lookup_delete_Some [_ Hc2]%lookup_delete_Some.
      by apply Hinj.
  - pose proof (prune_stale_rooms_next_connection_id now (registry sv)) as Hn.
    destruct (prune_stale_rooms_run now (registry sv)) as (st' & Heq & Hs & _).
    rewrite Heq in Hn |- *. cbn in Hn |- *. split_and!; cbn; rewrite ?Hn, ?Hs; eauto.
Qed.

Lemma server_run_connection_ids (ICE_SERVERS : list Json)
    (inputs : list (Z * Input)) (sv : Server) :
  connection_ids_allocated sv →
  connection_ids_allocated (server_run ICE_SERVERS inputs sv).1.
Proof.
  revert sv. induction inputs as [|[now input] inputs IH]; intros sv Hinv; [done|].
  cbn. pose proof (server_step_connection_ids ICE_SERVERS now input sv Hinv) as Hstep.
  destruct (server_step ICE_SERVERS now input sv) as [sv1 tr1].
  specialize (IH sv1 Hstep).
  by destruct (server_run ICE_SERVERS inputs sv1) as [sv2 tr2].
Qed.

(** X26. After any sequence of events, two different live connections have
    different connection ids, and the ids of the live connections and the
    keys of the lobby subscriptions are below the allocator's next id: a
    connection just accepted never takes over another's subscription. *)
Theorem connection_ids_unique (ICE_SERVERS : list Json)
    (inputs : list (Z * Input)) :
  connection_ids_allocated (server_run ICE_SERVERS inputs server_init).1.
Proof.
  apply server_run_connection_ids. split_and!; cbn.
  - intros ws c Hc. by rewrite lookup_empty in Hc.
  - intros k sub Hk. by rewrite lookup_empty in Hk.
  - intros ws1 ws2 c1 c2 Hc. by rewrite lookup_empty in Hc.
Qed.

(** ** Members have sessions *)

Lemma members_have_sessions_mono (st st' : Registry.t) :
  (∀ k room' q,
     Registry.rooms st' !! k = Some room' → q ∈ Room.peer_ids room' →
     ∃ room, Registry.rooms st !! k = Some room ∧ q ∈ Room.peer_ids room
             ∧ ∀ s, Registry.peers st !! q = Some s → PeerSession.room_id s = k →
                    Registry.peers st' !! q = Some s) →
  members_have_sessions st → members_have_sessions st'.
Proof.
  intros Hstep Hinv k room' q Hk Hq.
  destruct (Hstep _ _ _ Hk Hq) as (room & Hroom & Hin & Hkeep).
  destruct (Hinv _ _ _ Hroom Hin) as (s & Hs & Hrid).
  exists s. split; [by apply Hkeep|done].
Qed.

(** A handler that leaves the sessions alone and the members of every room
    as they were keeps the invariant. *)
Lemma members_have_sessions_same_members (st st' : Registry.t) :
  Registry.peers st' = Registry.peers st →
  (∀ k room', Registry.rooms st' !! k = Some room' →
     ∃ room, Registry.rooms st !! k = Some room
             ∧ Room.peer_ids room' = Room.peer_ids room) →
  members_have_sessions st → members_have_sessions st'.
Proof.
  intros Hpeers Hrooms. apply members_have_sessions_mono.
  intros k room' q Hk Hq. destruct (Hrooms _ _ Hk) as (room & Hroom & Hp).
  exists room. rewrite <- Hp, Hpeers. by split_and!.
Qed.

Lemma handle_join_members (ICE_SERVERS : list Json) (websocket : WebSocket)
    (message : Message) (now : Z) (st : Registry.t) :
  peer_ids_allocated st →
  members_have_sessions st →
  members_have_sessions (final (handle_join ICE_SERVERS websocket message now st)).
Proof.
  intros [Hp Hr] Hinv.
  destruct (handle_join_final ICE_SERVERS websocket message now st)
    as [(_ & Hrooms & Hpeers & _)|(room & Hroom & _ & Hrooms & Hpeers & _)].
  - eapply members_have_sessions_same_members; [exact Hpeers| |exact Hinv].
    intros k room'. rewrite Hrooms. by exists room'.
  - intros k room' q. rewrite Hrooms, Hpeers.
    destruct (admitted_fields (Registry._next_peer_id st) now room)
      as (Hpi & _).
    intros [[<- <-]|[Hne Hk]]%lookup_insert_Some Hq.
    + rewrite Hpi in Hq. apply elem_of_union in Hq as [->%elem_of_singleton|Hq].
      { eexists. by rewrite lookup_insert_eq. }
      destruct Hroom as [[Hroom _]|[_ ->]]; [|set_solver].
      destruct (Hinv _ _ _ Hroom Hq) as (s & Hs & Hrid).
      exists s. split; [|done]. rewrite lookup_insert_ne; [done|].
      apply Hp in Hs. lia.
    + destruct (Hinv _ _ _ Hk Hq) as (s & Hs & Hrid).
      exists s. split; [|done]. rewrite lookup_insert_ne; [done|].
      apply Hp in Hs. lia.
Qed.

Lemma handle_signal_members (from_peer_id : Z) (message : Message) (now : Z)
    (st : Registry.t) :
  members_have_sessions st →
  members_have_sessions (final (handle_signal from_peer_id message now st)).
Proof.
  intros Hinv. unfold handle_signal.
  case_bool_decide as Hz.
  { rewrite bind_run. cbn. by destruct (Registry.peers st !! from_peer_id). }
  rewrite !bind_run. cbn.
  destruct (Registry.peers st !! from_peer_id) as [source|]; [|done].
  destruct (Registry.peers st !! m_target_id message) as [target|]; [|done].
  destruct (negb (bool_decide (PeerSession.room_id source = PeerSession.room_id target)));
    [done|].
  rewrite !bind_run. cbn.
  destruct (Registry.rooms st !! PeerSession.room_id source) as [room|] eqn:Hr;
    [|done].
  rewrite !bind_run. cbn.
  eapply members_have_sessions_same_members; [| |exact Hinv]; cbn; [done|].
  intros k room'. intros [[<- <-]|[_ Hk]]%lookup_insert_Some; [by exists room|].
  by exists room'.
Qed.

Lemma handle_peer_connected_members (peer_id now : Z) (st : Registry.t) :
  members_have_sessions st →
  members_have_sessions (final (handle_peer_connected peer_id now st)).
Proof.
  intros Hinv.
  destruct (Registry.peers st !! peer_id) as [session|] eqn:Hs.
  - destruct (Registry.rooms st !! PeerSession.room_id session) as [room|] eqn:Hr.
    + rewrite (handle_peer_connected_run _ _ _ _ _ Hs Hr). cbn [final fst snd].
      eapply members_have_sessions_same_members; [| |exact Hinv]; cbn; [done|].
      intros k room'. intros [[<- <-]|[_ Hk]]%lookup_insert_Some; [by exists room|].
      by exists room'.
    + unfold handle_peer_connected. rewrite !bind_run. cbn. rewrite Hs.
      rewrite !bind_run. cbn. by rewrite Hr.
  - unfold handle_peer_connected. rewrite !bind_run. cbn. by rewrite Hs.
Qed.

Lemma handle_disconnect_members (peer_id now : Z) (st : Registry.t) :
  members_have_sessions st →
  members_have_sessions (final (handle_disconnect peer_id now st)).
Proof.
  intros Hinv.
  destruct (Registry.peers st !! peer_id) as [session|] eqn:Hs;
    [|by rewrite handle_disconnect_absent].
  assert (Hother : ∀ k room q s,
            Registry.rooms st !! k = Some room → q ∈ Room.peer_ids room →
            k ≠ PeerSession.room_id session →
            Registry.peers st !! q = Some s → PeerSession.room_id s = k →
            delete peer_id (Registry.peers st) !! q = Some s).
  { intros k room q s Hk Hq Hne Hqs Hrid.
    rewrite lookup_delete_ne; [done|]. intros <-. congruence. }
  destruct (Registry.rooms st !! PeerSession.room_id session) as [room|] eqn:Hr.
  - rewrite (handle_disconnect_run _ _ _ _ _ Hs Hr). cbn [final fst snd].
    revert Hinv. apply members_have_sessions_mono.
    assert (Hmine : ∀ q, q ∈ Room.peer_ids (departed peer_id now room) →
              ∃ room0, Registry.rooms st !! PeerSession.room_id session = Some room0
                       ∧ q ∈ Room.peer_ids room0
                       ∧ ∀ s, Registry.peers st !! q = Some s →
                              PeerSession.room_id s = PeerSession.room_id session →
                              delete peer_id (Registry.peers st) !! q = Some s).
    { intros q Hq. unfold departed in Hq. cbn in Hq.
      exists room. split_and!; [done|set_solver|].
      intros s Hqs _. rewrite lookup_delete_ne; [done|]. set_solver. }
    intros k room' q. unfold disconnected_registry.
    destruct (closes _ _); cbn.
    + intros [_ Hk]%lookup_delete_Some.
      apply lookup_insert_Some in Hk as [[<- <-]|[Hne Hk]]; [apply Hmine|].
      intros Hq. exists room'. split_and!; [done|done|].
      intros s. by eapply Hother.
    + rewrite insert_insert_eq.
      intros [[<- <-]|[Hne Hk]]%lookup_insert_Some; [apply Hmine|].
      intros Hq. exists room'. split_and!; [done|done|].
      intros s. by eapply Hother.
  - rewrite (handle_disconnect_roomless _ _ _ _ Hs Hr). cbn.
    revert Hinv. apply members_have_sessions_mono. cbn.
    intros k room' q Hk Hq. exists room'. split_and!; [done|done|].
    intros s. eapply Hother; [done|done|]. intros ->. congruence.
Qed.

Lemma prune_stale_rooms_members (now : Z) (st : Registry.t) :
  members_have_sessions st →
  members_have_sessions (final (prune_stale_rooms now st)).
Proof.
  intros Hinv. pose proof (prune_stale_rooms_peers_spared now st) as Hspare.
  destruct (prune_stale_rooms_run now st) as (st' & Heq & _ & Hrooms & _).
  rewrite Heq in Hspare |- *. cbn in Hspare |- *.
  eapply members_have_sessions_mono; [|exact Hinv].
  intros k room' q. rewrite Hrooms. case_decide as Hk; [done|].
  intros Hroom Hq. exists room'. split_and!; [done|done|].
  intros s Hs Hrid. rewrite Hspare; [done|].
  intros k' room0 Hk' Hroom0 Hq0.
  destruct (Hinv _ _ _ Hroom0 Hq0) as (s0 & Hs0 & Hrid0).
  apply Hk. congruence.
Qed.

Lemma websocket_endpoint_members (ICE_SERVERS : list Json) (connection_id : Z)
    (websocket : WebSocket) (peer_id : option Z) (message : Message) (now : Z)
    (st : Registry.t) :
  peer_ids_allocated st →
  members_have_sessions st →
  members_have_sessions
    (final (websocket_endpoint ICE_SERVERS connection_id websocket peer_id
                               message now st)).
Proof.
  intros Halloc Hinv. unfold websocket_endpoint.
  repeat case_bool_decide; try destruct peer_id as [p|];
    repeat case_bool_decide; rewrite ?bind_run; cbn [final fst snd];
    rewrite ?handle_list_lobbies_run, ?handle_subscribe_lobbies_run;
    try done;
    first [ by apply handle_join_members
          | by apply handle_signal_members
          | by apply handle_peer_connected_members
          | idtac ].
Qed.

Lemma websocket_cleanup_members (connection_id : Z) (peer_id : option Z) (now : Z)
    (st : Registry.t) :
  members_have_sessions st →
  members_have_sessions (final (websocket_cleanup connection_id peer_id now st)).
Proof.
  intros Hinv. unfold websocket_cleanup. rewrite bind_run. cbn.
  destruct peer_id as [p|]; [|done].
  by apply (handle_disconnect_members p now) in Hinv.
Qed.

Lemma server_step_members (ICE_SERVERS : list Json) (now : Z) (input : Input)
    (sv : Server) :
  peer_ids_allocated (registry sv) →
  members_have_sessions (registry sv) →
  members_have_sessions (registry (server_step ICE_SERVERS now input sv).1).
Proof.
  intros Halloc Hinv. destruct input as [ws|ws message|ws|]; cbn.
  - done.
  - destruct (connections sv !! ws) as [c|]; [|done].
    pose proof (websocket_endpoint_members ICE_SERVERS (conn_connection_id c) ws
                  (conn_peer_id c) message now _ Halloc Hinv) as H.
    by destruct (websocket_endpoint _ _ _ _ _ _ _) as [[? ?] ?].
  - destruct (connections sv !! ws) as [c|]; [|done].
    pose proof (websocket_cleanup_members (conn_connection_id c)
                  (conn_peer_id c) now _ Hinv) as H.
    by destruct (websocket_cleanup _ _ _ _) as [[? ?] ?].
  - pose proof (prune_stale_rooms_members now _ Hinv) as H.
    by destruct (prune_stale_rooms _ _) as [[? ?] ?].
Qed.

Lemma server_run_members (ICE_SERVERS : list Json) (inputs : list (Z * Input))
    (sv : Server) :
  peer_ids_allocated (registry sv) →
  members_have_sessions (registry sv) →
  members_have_sessions (registry (server_run ICE_SERVERS inputs sv).1).
Proof.
  revert sv. induction inputs as [|[now input] inputs IH]; intros sv Halloc Hinv;
    [done|].
  cbn. pose proof (server_step_allocated ICE_SERVERS now input sv Halloc) as Ha.
  pose proof (server_step_members ICE_SERVERS now input sv Halloc Hinv) as Hm.
  destruct (server_step ICE_SERVERS now input sv) as [sv1 tr1].
  specialize (IH sv1 Ha Hm).
  by destruct (server_run ICE_SERVERS inputs sv1) as [sv2 tr2].
Qed.

(** X27. In every registry the server can reach, every member of a room has a
    session, that session names the room by the id it is stored under, and
    a broadcast to the room reaches the member's connection. (The converse
    fails: a session can outlive its room.) *)
Theorem reachable_members_have_sessions (ICE_SERVERS : list Json)
    (reg : Registry.t) (room_id : string) (room : Room.t) (p : Z) :
  reachable ICE_SERVERS reg →
  Registry.rooms reg !! room_id = Some room →
  p ∈ Room.peer_ids room →
  ∃ s, Registry.peers reg !! p = Some s
       ∧ PeerSession.room_id s = room_id
       ∧ PeerSession.websocket s ∈ room_recipients reg room.
Proof.
  intros [inputs <-] Hroom Hp.
  destruct (server_run_members ICE_SERVERS inputs server_init) with room_id room p
    as (s & Hs & Hrid); [apply peer_ids_allocated_init| |done|done|].
  { intros k r q Hk. cbn in Hk. by rewrite lookup_empty in Hk. }
  exists s. split_and!; [done|done|].
  unfold room_recipients. apply list_elem_of_omap. exists p.
  split; [by apply elem_of_elements|]. by rewrite Hs.
Qed.

(** [reachable_members_have_sessions] for member 2 of room r1. *)
Lemma reachable_members_have_sessions_witness :
  ∃ s, Registry.peers (registry_after two_peers_inputs) !! 2 = Some s
       ∧ PeerSession.room_id s = "r1"
       ∧ PeerSession.websocket s
         ∈ room_recipients (registry_after two_peers_inputs)
             (Room.mk "r1" 1 Mesh 2 true {[1; 2]} ∅ [] 102).
Proof.
  refine (reachable_members_have_sessions DEFAULT_ICE_SERVERS
            (registry_after two_peers_inputs) "r1"
            (Room.mk "r1" 1 Mesh 2 true {[1; 2]} ∅ [] 102) 2 _ _ _).
  - exists two_peers_inputs. reflexivity.
  - vm_compute. reflexivity.
  - set_solver.
Defined.

(** ** Broadcasts *)

Lemma elem_of_concat_option {A} (f : A → option WebSocket) (payload : Payload)
    (xs : list A) (e : Event) :
  e ∈ concat ((λ x, match f x with
                    | Some ws => [EvSend ws payload]
                    | None => []
                    end) <$> xs) →
  ∃ ws, e = EvSend ws payload.
Proof.
  induction xs as [|x xs IH]; cbn; [by intros ?%elem_of_nil|].
  intros [Hin|Hin]%elem_of_app; [|by apply IH].
  destruct (f x) as [ws|]; [|by apply elem_of_nil in Hin].
  apply list_elem_of_singleton in Hin as ->. by exists ws.
Qed.

Lemma length_omap_le {A B} (f : A → option B) (xs : list A) :
  (length (omap f xs) ≤ length xs)%nat.
Proof.
  induction xs as [|x xs IH]; cbn; [done|].
  destruct (f x); cbn; lia.
Qed.

(** X28. [broadcast_room] leaves the registry as it was, never takes the lock,
    and sends the payload, and nothing else, exactly to the connections of
    the room's members that have a session and are not the excluded peer:
    at most one send per member. *)
Theorem broadcast_room_recipients (room : Room.t) (payload : Payload)
    (exclude_peer_id : option Z) (st : Registry.t) :
  let r := broadcast_room room payload exclude_peer_id st in
  final r = st
  ∧ (∀ e, e ∈ trace r → ∃ ws, e = EvSend ws payload)
  ∧ (∀ ws, (ws, payload) ∈ sends (trace r)
           ↔ ∃ q s, q ∈ Room.peer_ids room ∧ exclude_peer_id ≠ Some q
                    ∧ Registry.peers st !! q = Some s
                    ∧ PeerSession.websocket s = ws)
  ∧ (length (sends (trace r)) ≤ size (Room.peer_ids room))%nat.
Proof.
  intros r. subst r. unfold broadcast_room.
  set (target := λ peer_id : Z,
         if bool_decide (exclude_peer_id = Some peer_id) then None
         else PeerSession.websocket <$> Registry.peers st !! peer_id).
  rewrite (for_each_pure (elements (Room.peer_ids room)) _
    (λ peer_id, match target peer_id with
                | Some ws => [EvSend ws payload]
                | None => []
                end)); last first.
  { intros peer_id. subst target. cbn. case_bool_decide; [done|].
    rewrite bind_run. cbn. by destruct (Registry.peers st !! peer_id). }
  cbn [final trace fst snd].
  rewrite (sends_concat_option target payload).
  split_and!.
  - done.
  - intros e Hin. by apply elem_of_concat_option in Hin.
  - intros ws. rewrite list_elem_of_fmap. split.
    + intros (ws' & [= <-] & Hin). apply list_elem_of_omap in Hin as (q & Hq & Ht).
      apply elem_of_elements in Hq. subst target. cbn in Ht.
      case_bool_decide as Hex; [done|].
      destruct (Registry.peers st !! q) as [s|] eqn:Hs; [|done].
      injection Ht as <-. by exists q, s.
    + intros (q & s & Hq & Hex & Hs & <-). exists (PeerSession.websocket s).
      split; [done|]. apply list_elem_of_omap. exists q.
      split; [by apply elem_of_elements|]. subst target. cbn.
      rewrite bool_decide_eq_false_2 by done. by rewrite Hs.
  - rewrite length_fmap. apply length_omap_le.
Qed.

(** X29. [maybe_emit_match_ready] changes nothing in the registry but the
    [last_activity] of a room, and what it sends is [match_ready] to the
    members of the room that have a session when the room is in the
    registry, full, and acknowledged by at least as many peers as it has
    members, and nothing at all otherwise: a room that is missing, below
    its capacity or short of acknowledgments gets no [match_ready]. *)
Theorem maybe_emit_match_ready_fires (room_id : string) (now : Z)
    (st : Registry.t) :
  let r := maybe_emit_match_ready room_id now st in
  Registry.peers (final r) = Registry.peers st
  ∧ Registry.lobby_subscriptions (final r) = Registry.lobby_subscriptions st
  ∧ (∀ k, option_Forall2 same_but_activity
            (Registry.rooms st !! k) (Registry.rooms (final r) !! k))
  ∧ sends (trace r)
    = match Registry.rooms st !! room_id with
      | Some room =>
          if Room.is_full room
             && (size (Room.peer_ids room) <=? size (Room.connected_ack room))%nat
          then (λ ws, (ws, PMatchReady)) <$> room_recipients st room
          else []
      | None => []
      end.
Proof.
  assert (Hrefl : ∀ (m : gmap string Room.t) k,
            option_Forall2 same_but_activity (m !! k) (m !! k)).
  { intros m k. destruct (m !! k); by constructor. }
  intros r. subst r. rewrite maybe_emit_match_ready_run.
  destruct (Registry.rooms st !! room_id) as [room|] eqn:Hr;
    [|cbn; by split_and!].
  unfold ready.
  replace (negb (size (Room.connected_ack room) <? size (Room.peer_ids room))%nat)
    with (size (Room.peer_ids room) <=? size (Room.connected_ack room))%nat
    by (rewrite Nat.ltb_antisym; by rewrite negb_involutive).
  destruct (Room.is_full room && _); [|cbn; by split_and!].
  cbn [final trace fst snd]. split_and!; try done.
  - intros k. cbn. destruct (decide (k = room_id)) as [->|Hne].
    + rewrite lookup_insert_eq, Hr. by constructor.
    + rewrite lookup_insert_ne by done. apply Hrefl.
  - cbn. apply (sends_EvSend (λ ws, ws) (λ _, PMatchReady)).
Qed.
